(** * Clinical AI readmission-risk form: feature preparation, risk tier, report id

    A shallow embedding of [app.py].  The script is straight-line code that
    reads the widget values, builds a one-row [pandas.DataFrame], aligns it
    with the [feature_columns] the model was trained on, turns the model's
    probability into a risk level, and stamps the PDF report with an
    identifier derived from SHA-256.

    Python values are modelled as follows.
    - [int] is [Z] (unbounded, as in Python).
    - [float] is an IEEE-754 binary64 value, [spec_float] with precision 53 and
      [emax] 1024; comparisons are the IEEE comparisons [SFltb] and [SFleb].
    - [str] is a list of Unicode code points ([N]); [bytes] is a list of octets.
    - the one-row data frame is an ordered association list from column
      names to cell values; [df[c] = v] is explicit state passing.
    - an uncaught exception is the left summand of [result].
    - what the script reads from outside (the widgets, the schema, the
      model, the clock, the run-time's [str.upper]) is an argument. *)

From Stdlib Require Import String Ascii.
From Stdlib Require Import ZArith NArith QArith Qabs List Bool Lia.
From Stdlib Require Import DecimalPos DecimalN DecimalZ.
From Stdlib Require Import Floats.SpecFloat.
Import ListNotations.

(** ** Python strings *)

Definition str := list N.

(** A literal of the source, written as a Rocq string of ASCII characters. *)
Definition py (s : string) : str := map N_of_ascii (list_ascii_of_string s).

Fixpoint str_eqb (a b : str) : bool :=
  match a, b with
  | [], [] => true
  | x :: a', y :: b' => N.eqb x y && str_eqb a' b'
  | _, _ => false
  end.

(** [c in cols] on a list (or index) of column names. *)
Fixpoint contains (c : str) (cols : list str) : bool :=
  match cols with
  | [] => false
  | k :: rest => str_eqb k c || contains c rest
  end.

(** The ASCII part of [str.upper]: [a]..[z] go to [A]..[Z]. *)
Definition ascii_lower (c : N) : bool := ((97 <=? c) && (c <=? 122))%N.

Definition ascii_upper (c : N) : N := if ascii_lower c then (c - 32)%N else c.

Definition is_ascii (c : N) : bool := (c <? 128)%N.

(** ** Python floats *)

Definition prec : Z := 53.
Definition emax : Z := 1024.

Definition float := spec_float.

(** The exact conversion of a (small) Python [int], as the comparison of a
    [float] with an [int] literal performs it. *)
Definition float_of_int (z : Z) : float := binary_normalize prec emax z 0 false.

(** A decimal literal [num/den] of the source text: the binary64 value
    nearest to the quotient (both [num] and [den] are exactly
    representable, so the correctly rounded division is that value). *)
Definition float_lit (num den : Z) : float :=
  SFdiv prec emax (float_of_int num) (float_of_int den).

Definition float_gt (a b : float) : bool := SFltb b a.
Definition float_ge (a b : float) : bool := SFleb b a.
Definition float_lt (a b : float) : bool := SFltb a b.
Definition float_le (a b : float) : bool := SFleb a b.

(** Zeros and finite numbers: what a bounded [st.number_input] returns. *)
Definition finite (x : float) : bool :=
  match x with
  | S754_zero _ | S754_finite _ _ _ => true
  | _ => false
  end.

(** A well-formed binary64 number (canonical mantissa and exponent). *)
Definition binary64 (x : float) : Prop :=
  valid_binary prec emax x = true /\ finite x = true.

(** The number a binary64 value stands for, counted in units of
    [2^-1074], the spacing of the subnormals: always an integer. *)
Definition ulps (x : float) : Z :=
  match x with
  | S754_finite s m e => ((if s then Z.neg m else Z.pos m) * 2 ^ (e + 1074))%Z
  | _ => 0%Z
  end.

(** The same number as a rational. *)
Definition F2Q (x : float) : Q := Qmake (ulps x) (2 ^ 1074)%positive.

(** [int(b)] for a [bool]. *)
Definition int_of_bool (b : bool) : Z := if b then 1%Z else 0%Z.

(** ** Exceptions *)

Inductive exn : Type :=
| IndexError
| KeyError (c : str)
| UnicodeEncodeError.

Definition result (A : Type) : Type := (exn + A)%type.

Definition ret {A} (a : A) : result A := inr a.
Definition raise {A} (e : exn) : result A := inl e.
Definition bind {A B} (m : result A) (k : A -> result B) : result B :=
  match m with
  | inl e => inl e
  | inr a => k a
  end.

Declare Scope result_scope.
Delimit Scope result_scope with result.
Notation "x <- m ;; k" := (bind m (fun x => k))
  (at level 61, m at next level, right associativity) : result_scope.
Open Scope result_scope.

(** ** The one-row data frame *)

Inductive value : Type :=
| VInt (z : Z)
| VFloat (f : float).

Module DataFrame.

Definition t := list (str * value).

(** [df.columns] *)
Definition columns (df : t) : list str := map fst df.

(** The cell of column [c], if the frame has that column. *)
Fixpoint get (c : str) (df : t) : option value :=
  match df with
  | [] => None
  | (k, v) :: rest => if str_eqb k c then Some v else get c rest
  end.

(** [df[c] = v]: overwrite the column in place, or append a new one. *)
Fixpoint setitem (c : str) (v : value) (df : t) : t :=
  match df with
  | [] => [(c, v)]
  | (k, x) :: rest =>
      if str_eqb k c then (k, v) :: rest else (k, x) :: setitem c v rest
  end.

(** [df[cols]] for a list of labels: the listed columns in the listed
    order; a label the frame lacks raises [KeyError]. *)
Fixpoint getitem (cols : list str) (df : t) : result t :=
  match cols with
  | [] => ret []
  | c :: rest =>
      match get c df with
      | None => raise (KeyError c)
      | Some v => tl <- getitem rest df ;; ret ((c, v) :: tl)
      end
  end.

End DataFrame.

(** ** The widget values *)

Record PatientProfile : Type := {
  age : Z;
  gender : str;
  los : Z;
  prev_adm : Z;
  comorbidity_count : Z;
  num_medications : Z;
  diagnosis_code : str;
  avg_creatinine : float;
  avg_hemoglobin : float;
  avg_glucose : float
}.

(** Laboratory values that are well-formed numbers. *)
Definition valid_labs (p : PatientProfile) : Prop :=
  binary64 (avg_creatinine p) /\ binary64 (avg_hemoglobin p)
  /\ binary64 (avg_glucose p).

(** ** Feature preparation *)

Section FeaturePrep.

(** [str.upper] of the Python runtime.  Its full table is Unicode's; the
    development uses two facts about it, both theorems of the Unicode
    case mapping: on ASCII text it is [ascii_upper] character by
    character, and its output never contains an ASCII lower-case
    letter. *)
Variable upper : str -> str.

Definition upper_on_ascii : Prop :=
  forall s, forallb is_ascii s = true -> upper s = map ascii_upper s.

Definition upper_has_no_lower : Prop :=
  forall s, existsb ascii_lower (upper s) = false.

(** [icd_group = diagnosis_code[0].upper()] *)
Definition icd_group (p : PatientProfile) : result str :=
  match diagnosis_code p with
  | [] => raise IndexError
  | c :: _ => ret (upper [c])
  end.

(** The frame after the [pd.DataFrame({...})] constructor. *)
Definition input_data (p : PatientProfile) : DataFrame.t :=
  [ (py "age", VInt (age p));
    (py "length_of_stay", VInt (los p));
    (py "previous_admissions", VInt (prev_adm p));
    (py "comorbidity_count", VInt (comorbidity_count p));
    (py "avg_creatinine", VFloat (avg_creatinine p));
    (py "avg_hemoglobin", VFloat (avg_hemoglobin p));
    (py "avg_glucose", VFloat (avg_glucose p));
    (py "num_medications", VInt (num_medications p));
    (py "gender_M", VInt (if str_eqb (gender p) (py "Male") then 1 else 0)) ].

(** The frame after the five derived columns are assigned. *)
Definition engineered (p : PatientProfile) : DataFrame.t :=
  let df := input_data p in
  let df := DataFrame.setitem (py "los_x_comorb")
              (VInt (los p * comorbidity_count p)) df in
  let df := DataFrame.setitem (py "glucose_flag")
              (VInt (int_of_bool (float_gt (avg_glucose p) (float_of_int 200)))) df in
  let df := DataFrame.setitem (py "creatinine_flag")
              (VInt (int_of_bool (float_gt (avg_creatinine p) (float_of_int 2)))) df in
  let df := DataFrame.setitem (py "hb_flag")
              (VInt (int_of_bool (float_lt (avg_hemoglobin p) (float_of_int 10)))) df in
  DataFrame.setitem (py "polypharmacy_flag")
    (VInt (int_of_bool (15 <=? num_medications p)%Z)) df.

(** [for col in feature_columns: if col not in input_data.columns:
    input_data[col] = 0] *)
Definition fill_missing (feature_columns : list str) (df : DataFrame.t)
  : DataFrame.t :=
  fold_left
    (fun df col =>
       if contains col (DataFrame.columns df) then df
       else DataFrame.setitem col (VInt 0) df)
    feature_columns df.

(** [if icd_group in feature_columns: input_data[icd_group] = 1] *)
Definition one_hot (g : str) (feature_columns : list str) (df : DataFrame.t)
  : DataFrame.t :=
  if contains g feature_columns then DataFrame.setitem g (VInt 1) df else df.

(** The whole FEATURE PREP block, down to
    [input_data = input_data[feature_columns]]. *)
Definition feature_prep (p : PatientProfile) (feature_columns : list str)
  : result DataFrame.t :=
  g <- icd_group p ;;
  let df := engineered p in
  let df := fill_missing feature_columns df in
  let df := one_hot g feature_columns df in
  DataFrame.getitem feature_columns df.

End FeaturePrep.

(** The columns the script assigns by name: the nine of the constructor
    and the five derived ones. *)
Definition produced_columns : list str :=
  map py [ "age"; "length_of_stay"; "previous_admissions"; "comorbidity_count";
           "avg_creatinine"; "avg_hemoglobin"; "avg_glucose"; "num_medications";
           "gender_M"; "los_x_comorb"; "glucose_flag"; "creatinine_flag";
           "hb_flag"; "polypharmacy_flag" ]%string.

(** The cell of column [c] after alignment, in closed form: the one-hot
    wins, then an assigned column keeps its value, anything else is 0. *)
Definition final_cell (p : PatientProfile) (g c : str) : value :=
  if str_eqb g c then VInt 1
  else match DataFrame.get c (engineered p) with
       | Some v => v
       | None => VInt 0
       end.

(** The default widget values, with a male patient: the end-to-end scenario. *)
Definition scenario : PatientProfile := {|
  age := 65;
  gender := py "Male";
  los := 7;
  prev_adm := 2;
  comorbidity_count := 2;
  num_medications := 10;
  diagnosis_code := py "I50.9";
  avg_creatinine := float_lit 12 10;
  avg_hemoglobin := float_lit 120 10;
  avg_glucose := float_lit 1100 10
|}.

(** The same form with the diagnosis field cleared. *)
Definition scenario_cleared : PatientProfile := {|
  age := 65;
  gender := py "Male";
  los := 7;
  prev_adm := 2;
  comorbidity_count := 2;
  num_medications := 10;
  diagnosis_code := [];
  avg_creatinine := float_lit 12 10;
  avg_hemoglobin := float_lit 120 10;
  avg_glucose := float_lit 1100 10
|}.

(** Another patient with the same age and diagnosis code: a woman with a
    longer stay and more medications. *)
Definition scenario_female : PatientProfile := {|
  age := 65;
  gender := py "Female";
  los := 30;
  prev_adm := 0;
  comorbidity_count := 5;
  num_medications := 20;
  diagnosis_code := py "I50.9";
  avg_creatinine := float_lit 25 10;
  avg_hemoglobin := float_lit 95 10;
  avg_glucose := float_lit 2100 10
|}.

(** A schema of the expected shape, for running the block: assigned
    columns in an order of its own, two diagnosis groups, and a column
    the script never assigns. *)
Definition sample_columns : list str :=
  map py [ "age"; "gender_M"; "los_x_comorb"; "glucose_flag"; "creatinine_flag";
           "hb_flag"; "polypharmacy_flag"; "E"; "I"; "insurance_private" ]%string.

(** The four threshold flags. *)
Definition flag_columns : list str :=
  map py [ "glucose_flag"; "creatinine_flag"; "hb_flag"; "polypharmacy_flag" ]%string.

(** [z] is the 0/1 projection of the condition [P]. *)
Definition is_flag (z : Z) (P : Prop) : Prop :=
  (z = 0 \/ z = 1)%Z /\ (z = 1%Z <-> P).

(** ** Risk level *)

Inductive level : Type := HIGH | MODERATE | LOW.

(** The [if prob >= 0.50 ... elif prob >= 0.30 ... else] cascade; it binds
    [level] and [color] together. *)
Definition classify (prob : float) : level * str :=
  if float_ge prob (float_lit 50 100) then (HIGH, py "#d62828")
  else if float_ge prob (float_lit 30 100) then (MODERATE, py "#f77f00")
  else (LOW, py "#2a9d8f").

Definition risk_level (prob : float) : level := fst (classify prob).
Definition risk_color (prob : float) : str := snd (classify prob).

(** A probability: a float between 0 and 1 (which excludes NaN). *)
Definition probability (prob : float) : Prop :=
  float_le (float_of_int 0) prob = true /\ float_le prob (float_of_int 1) = true.

Definition is_nan (x : float) : bool :=
  match x with
  | S754_nan => true
  | _ => false
  end.

(** [level] as the source spells it. *)
Definition level_name (l : level) : str :=
  match l with
  | HIGH => py "HIGH"
  | MODERATE => py "MODERATE"
  | LOW => py "LOW"
  end.

(** ** SHA-256 ([hashlib.sha256]), FIPS 180-4, on 32-bit words held in [N] *)

Module Sha256.

Local Open Scope N_scope.

Definition mask32 : N := 4294967295.

Definition add32 (x y : N) : N := N.land (x + y) mask32.
Definition not32 (x : N) : N := N.lxor x mask32.
Definition rotr (n x : N) : N :=
  N.lor (N.shiftr x n) (N.land (N.shiftl x (32 - n)) mask32).

Definition Ch (x y z : N) : N := N.lxor (N.land x y) (N.land (not32 x) z).
Definition Maj (x y z : N) : N :=
  N.lxor (N.lxor (N.land x y) (N.land x z)) (N.land y z).
Definition Sigma0 (x : N) : N := N.lxor (N.lxor (rotr 2 x) (rotr 13 x)) (rotr 22 x).
Definition Sigma1 (x : N) : N := N.lxor (N.lxor (rotr 6 x) (rotr 11 x)) (rotr 25 x).
Definition sigma0 (x : N) : N := N.lxor (N.lxor (rotr 7 x) (rotr 18 x)) (N.shiftr x 3).
Definition sigma1 (x : N) : N := N.lxor (N.lxor (rotr 17 x) (rotr 19 x)) (N.shiftr x 10).

(** Fractional parts of the cube roots of the first 64 primes. *)
Definition K : list N :=
  [ 1116352408; 1899447441; 3049323471; 3921009573; 961987163; 1508970993;
    2453635748; 2870763221; 3624381080; 310598401; 607225278; 1426881987;
    1925078388; 2162078206; 2614888103; 3248222580; 3835390401; 4022224774;
    264347078; 604807628; 770255983; 1249150122; 1555081692; 1996064986;
    2554220882; 2821834349; 2952996808; 3210313671; 3336571891; 3584528711;
    113926993; 338241895; 666307205; 773529912; 1294757372; 1396182291;
    1695183700; 1986661051; 2177026350; 2456956037; 2730485921; 2820302411;
    3259730800; 3345764771; 3516065817; 3600352804; 4094571909; 275423344;
    430227734; 506948616; 659060556; 883997877; 958139571; 1322822218;
    1537002063; 1747873779; 1955562222; 2024104815; 2227730452; 2361852424;
    2428436474; 2756734187; 3204031479; 3329325298 ].

(** The chaining value: eight 32-bit words. *)
Record state : Type := State {
  ha : N; hb : N; hc : N; hd : N; he : N; hf : N; hg : N; hh : N
}.

(** Fractional parts of the square roots of the first 8 primes. *)
Definition H0 : state :=
  State 1779033703 3144134277 1013904242 2773480762
        1359893119 2600822924 528734635 1541459225.

(** [n] octets of [x], most significant first. *)
Fixpoint be_bytes (n : nat) (x : N) : list N :=
  match n with
  | O => []
  | S n' => N.land (N.shiftr x (8 * N.of_nat n')) 255 :: be_bytes n' x
  end.

(** The big-endian number a list of octets spells. *)
Definition be_word (bs : list N) : N :=
  fold_left (fun acc b => N.lor (N.shiftl acc 8) b) bs 0.

(** Message padding: [0x80], zeros up to 56 mod 64, the bit length on 8 octets. *)
Definition pad (msg : list N) : list N :=
  let len := N.of_nat (length msg) in
  msg ++ [128] ++ repeat 0 (N.to_nat ((119 - len mod 64) mod 64))
      ++ be_bytes 8 (8 * len).

Fixpoint chunks (k n : nat) (l : list N) : list (list N) :=
  match n with
  | O => []
  | S n' => firstn k l :: chunks k n' (skipn k l)
  end.

(** The 64-octet blocks of a padded message. *)
Definition blocks (padded : list N) : list (list N) :=
  chunks 64 (Nat.div (length padded) 64) padded.

(** Message schedule; the words are kept newest first while it grows. *)
Fixpoint extend (n : nat) (rw : list N) : list N :=
  match n with
  | O => rw
  | S n' =>
      let w := add32 (add32 (sigma1 (nth 1 rw 0)) (nth 6 rw 0))
                     (add32 (sigma0 (nth 14 rw 0)) (nth 15 rw 0)) in
      extend n' (w :: rw)
  end.

Definition schedule (block : list N) : list N :=
  rev (extend 48 (rev (map be_word (chunks 4 16 block)))).

Definition round (s : state) (kw : N * N) : state :=
  let (k, w) := kw in
  let t1 := add32 (add32 (add32 (add32 (hh s) (Sigma1 (he s)))
                                (Ch (he s) (hf s) (hg s))) k) w in
  let t2 := add32 (Sigma0 (ha s)) (Maj (ha s) (hb s) (hc s)) in
  State (add32 t1 t2) (ha s) (hb s) (hc s) (add32 (hd s) t1) (he s) (hf s) (hg s).

Definition compress (h : state) (block : list N) : state :=
  let s := fold_left round (combine K (schedule block)) h in
  State (add32 (ha h) (ha s)) (add32 (hb h) (hb s)) (add32 (hc h) (hc s))
        (add32 (hd h) (hd s)) (add32 (he h) (he s)) (add32 (hf h) (hf s))
        (add32 (hg h) (hg s)) (add32 (hh h) (hh s)).

Definition words (s : state) : list N :=
  [ha s; hb s; hc s; hd s; he s; hf s; hg s; hh s].

(** [hashlib.sha256(msg).digest()] *)
Definition digest (msg : list N) : list N :=
  flat_map (be_bytes 4) (words (fold_left compress (blocks (pad msg)) H0)).

Definition hex_digit (d : N) : N := if d <? 10 then 48 + d else 87 + d.

(** [hashlib.sha256(msg).hexdigest()]: two lower-case hex digits per octet. *)
Definition hexdigest (msg : list N) : str :=
  flat_map (fun b => [hex_digit (N.shiftr b 4); hex_digit (N.land b 15)])
           (digest msg).

End Sha256.

(** ** [str.encode()]: UTF-8 *)

Definition encode_char (c : N) : result (list N) :=
  (if c <? 128 then ret [c]
   else if c <? 2048 then
     ret [N.lor 192 (N.shiftr c 6); N.lor 128 (N.land c 63)]
   else if c <? 65536 then
     if (55296 <=? c) && (c <=? 57343) then raise UnicodeEncodeError
     else ret [N.lor 224 (N.shiftr c 12);
               N.lor 128 (N.land (N.shiftr c 6) 63);
               N.lor 128 (N.land c 63)]
   else if c <? 1114112 then
     ret [N.lor 240 (N.shiftr c 18);
          N.lor 128 (N.land (N.shiftr c 12) 63);
          N.lor 128 (N.land (N.shiftr c 6) 63);
          N.lor 128 (N.land c 63)]
   else raise UnicodeEncodeError)%N.

Fixpoint encode (s : str) : result (list N) :=
  match s with
  | [] => ret []
  | c :: rest =>
      hd <- encode_char c ;;
      tl <- encode rest ;;
      ret (hd ++ tl)
  end.

(** A code point that [encode] accepts: a Unicode scalar value. *)
Definition scalar_value (c : N) : bool :=
  ((c <? 55296) || ((57343 <? c) && (c <? 1114112)))%N.

(** ** Decimal text of numbers *)

Fixpoint str_of_uint (d : Decimal.uint) : str :=
  match d with
  | Decimal.Nil => []
  | Decimal.D0 d => 48%N :: str_of_uint d
  | Decimal.D1 d => 49%N :: str_of_uint d
  | Decimal.D2 d => 50%N :: str_of_uint d
  | Decimal.D3 d => 51%N :: str_of_uint d
  | Decimal.D4 d => 52%N :: str_of_uint d
  | Decimal.D5 d => 53%N :: str_of_uint d
  | Decimal.D6 d => 54%N :: str_of_uint d
  | Decimal.D7 d => 55%N :: str_of_uint d
  | Decimal.D8 d => 56%N :: str_of_uint d
  | Decimal.D9 d => 57%N :: str_of_uint d
  end.

(** [str(n)] for an [int]. *)
Definition str_of_int (z : Z) : str :=
  match Z.to_int z with
  | Decimal.Pos d => str_of_uint d
  | Decimal.Neg d => 45%N :: str_of_uint d
  end.

(** ["%0wd" % n] for [n >= 0]: decimal digits, zero-filled on the left to
    width [w]. *)
Definition zero_padded (w : nat) (n : N) : str :=
  let d := str_of_uint (N.to_uint n) in
  repeat 48%N (w - length d) ++ d.

Definition is_digit (c : N) : bool := ((48 <=? c) && (c <=? 57))%N.

(** A string that does not begin with a digit (it may be empty). *)
Definition no_digit_head (s : str) : Prop :=
  match s with
  | [] => True
  | c :: _ => is_digit c = false
  end.

(** [k] leading zeros in front of a decimal numeral. *)
Fixpoint zeros (k : nat) (d : Decimal.uint) : Decimal.uint :=
  match k with
  | O => d
  | S k' => Decimal.D0 (zeros k' d)
  end.

(** ** The clock *)

Record datetime : Type := {
  year : N; month : N; day : N;
  hour : N; minute : N; second : N; microsecond : N
}.

(** [str(t)], as an f-string formats a naive [datetime]: ISO format with a
    space separator, microseconds only when they are not zero. *)
Definition str_of_datetime (t : datetime) : str :=
  zero_padded 4 (year t) ++ py "-" ++ zero_padded 2 (month t) ++ py "-"
    ++ zero_padded 2 (day t) ++ py " "
    ++ zero_padded 2 (hour t) ++ py ":" ++ zero_padded 2 (minute t) ++ py ":"
    ++ zero_padded 2 (second t)
    ++ (if (microsecond t =? 0)%N then []
        else py "." ++ zero_padded 6 (microsecond t)).

(** ** Report identifier *)

(** [f"{datetime.now()}-{age}-{diagnosis_code}"] *)
Definition report_text (now : datetime) (age : Z) (diagnosis_code : str) : str :=
  str_of_datetime now ++ py "-" ++ str_of_int age ++ py "-" ++ diagnosis_code.

(** [hashlib.sha256(text.encode()).hexdigest()[:12].upper()] *)
Definition report_id (upper : str -> str)
    (now : datetime) (age : Z) (diagnosis_code : str) : result str :=
  octets <- encode (report_text now age diagnosis_code) ;;
  ret (upper (firstn 12 (Sha256.hexdigest octets))).

(** The run-time's [upper] restricted to ASCII text, which is all it is
    ever applied to outside the diagnosis code. *)
Definition upper_ascii (s : str) : str := map ascii_upper s.

(** A character of [hexdigest()]: a digit or [a]..[f]. *)
Definition lower_hex (c : N) : bool :=
  (is_digit c || ((97 <=? c) && (c <=? 102)))%N.

(** A character of an upper-case hexadecimal token. *)
Definition upper_hex (c : N) : bool :=
  (((48 <=? c) && (c <=? 57)) || ((65 <=? c) && (c <=? 70)))%N.

(** ** Sample runs *)

(** An instant of the clock, with microseconds as [datetime.now()] has them. *)
Definition sample_time : datetime := {|
  year := 2024; month := 3; day := 15;
  hour := 10; minute := 30; second := 45; microsecond := 123456
|}.

(** The same instant one whole second later, microseconds at zero. *)
Definition sample_time_later : datetime := {|
  year := 2024; month := 3; day := 15;
  hour := 10; minute := 30; second := 46; microsecond := 0
|}.

(** ** The ANALYZE block: what is shown and printed *)

(** The form with another diagnosis code typed in. *)
Definition with_code (p : PatientProfile) (code : str) : PatientProfile := {|
  age := age p;
  gender := gender p;
  los := los p;
  prev_adm := prev_adm p;
  comorbidity_count := comorbidity_count p;
  num_medications := num_medications p;
  diagnosis_code := code;
  avg_creatinine := avg_creatinine p;
  avg_hemoglobin := avg_hemoglobin p;
  avg_glucose := avg_glucose p
|}.

(** The three levels in increasing order of risk. *)
Definition level_rank (l : level) : nat :=
  match l with
  | LOW => 0
  | MODERATE => 1
  | HIGH => 2
  end.

(** [risk_percent = prob * 100] *)
Definition risk_percent (prob : float) : float :=
  SFmul prec emax prob (float_of_int 100).

(** The integer nearest to [num / den], ties to the even one. *)
Definition round_half_even (num den : N) : N :=
  (let q := num / den in
   let r := num mod den in
   if den <? 2 * r then q + 1
   else if 2 * r =? den then (if N.even q then q else q + 1)
   else q)%N.

(** The number of tenths nearest to the magnitude of a finite float. *)
Definition tenths (m : positive) (e : Z) : N :=
  match e with
  | Z.neg k => round_half_even (10 * N.pos m) (2 ^ N.pos k)
  | _ => (10 * N.pos m * 2 ^ Z.to_N e)%N
  end.

(** [format(x, ".1f")]: the correctly rounded decimal with one digit after
    the point, the sign kept even when the digits are all zero. *)
Definition format_1f (x : float) : str :=
  match x with
  | S754_nan => py "nan"
  | S754_infinity s => (if s then py "-" else []) ++ py "inf"
  | S754_zero s => (if s then py "-" else []) ++ py "0.0"
  | S754_finite s m e =>
      (if s then py "-" else [])
        ++ str_of_uint (N.to_uint (tenths m e / 10))
        ++ py "." ++ str_of_uint (N.to_uint (tenths m e mod 10))
  end.

(** [f"{risk_percent:.1f}%"], as the card, the table and the QR code show it. *)
Definition percent_text (prob : float) : str :=
  format_1f (risk_percent prob) ++ py "%".

(** The steps of the gauge: a range of the axis and its color. *)
Record gauge_step : Type := {
  step_lo : Z;
  step_hi : Z;
  step_color : str
}.

Definition gauge_steps : list gauge_step :=
  [ {| step_lo := 0; step_hi := 30; step_color := py "#2a9d8f" |};
    {| step_lo := 30; step_hi := 50; step_color := py "#f77f00" |};
    {| step_lo := 50; step_hi := 100; step_color := py "#d62828" |} ].

(** The value of the gauge lies in the range of a step, ends included. *)
Definition in_step (v : float) (s : gauge_step) : bool :=
  float_le (float_of_int (step_lo s)) v && float_le v (float_of_int (step_hi s)).

(** [%b] in the C locale, which the script never changes. *)
Definition month_abbr (m : N) : str :=
  match m with
  | 0%N => []
  | _ => nth (N.to_nat m - 1)
             (map py [ "Jan"; "Feb"; "Mar"; "Apr"; "May"; "Jun";
                       "Jul"; "Aug"; "Sep"; "Oct"; "Nov"; "Dec" ]%string) []
  end.

(** [t.strftime("%d %b %Y | %H:%M")]; [%Y] is the plain decimal year, as
    glibc prints it (four digits from the year 1000 on). *)
Definition formatted_time (t : datetime) : str :=
  zero_padded 2 (day t) ++ py " " ++ month_abbr (month t) ++ py " "
    ++ str_of_uint (N.to_uint (year t)) ++ py " | "
    ++ zero_padded 2 (hour t) ++ py ":" ++ zero_padded 2 (minute t).

(** One line of the triple-quoted QR text: a line feed, the eight spaces
    of the source's indentation, the text. *)
Definition qr_line (s : str) : str := 10%N :: repeat 32%N 8 ++ s.

(** The f-string [qr_text]. *)
Definition qr_text (report_id level pct formatted : str) : str :=
  qr_line (py "Clinical AI Official Report")
    ++ qr_line (py "Report ID: CAI-" ++ report_id)
    ++ qr_line (py "Risk Level: " ++ level)
    ++ qr_line (py "Probability: " ++ pct)
    ++ qr_line (py "Generated: " ++ formatted)
    ++ qr_line (py "This is a computer-generated clinical document.")
    ++ qr_line [].

(** A cell of the patient table. *)
Inductive cell : Type :=
| CInt (z : Z)
| CFloat (x : float)
| CStr (s : str).

(** The texts [generate_pdf] computes and hands to reportlab and qrcode. *)
Record pdf_texts : Type := {
  id_paragraph : str;
  generated_paragraph : str;
  data : list (str * cell);
  qr_payload : str
}.

(** The statements of [generate_pdf] itself, between the calls into
    reportlab and qrcode: the identifier, the printed time, the rows of
    the table and the QR text.  The clock is read twice, once for the
    identifier ([now_id]) and once for the printed time ([now_shown]). *)
Definition pdf_content (upper : str -> str) (now_id now_shown : datetime)
    (p : PatientProfile) (prob : float) : result pdf_texts :=
  report_id <- report_id upper now_id (age p) (diagnosis_code p) ;;
  let formatted := formatted_time now_shown in
  let level := level_name (risk_level prob) in
  ret {| id_paragraph := py "Report ID: CAI-" ++ report_id;
         generated_paragraph := py "Generated: " ++ formatted;
         data :=
           [ (py "Age", CInt (age p));
             (py "Gender", CStr (gender p));
             (py "Diagnosis Code", CStr (diagnosis_code p));
             (py "Length of Stay", CInt (los p));
             (py "Previous Admissions", CInt (prev_adm p));
             (py "Comorbidity Count", CInt (comorbidity_count p));
             (py "Number of Medications", CInt (num_medications p));
             (py "Creatinine (mg/dL)", CFloat (avg_creatinine p));
             (py "Hemoglobin (g/dL)", CFloat (avg_hemoglobin p));
             (py "Glucose (mg/dL)", CFloat (avg_glucose p));
             (py "Predicted Risk (%)", CStr (percent_text prob));
             (py "Risk Category", CStr level) ];
         qr_payload := qr_text report_id level (percent_text prob) formatted |}.

(** How a call of [generate_pdf] ends: with the buffer, with an exception
    of one of its own statements, or with an exception raised inside
    reportlab or qrcode ([LayoutError] and the like). *)
Inductive pdf_result (E : Type) : Type :=
| Returned (buffer : list N)
| Raises (e : exn)
| LibraryRaises (e : E).

Arguments Returned {E} buffer.
Arguments Raises {E} e.
Arguments LibraryRaises {E} e.

Section Rendering.

(** reportlab and qrcode as the call at hand finds them.  [new_document]
    is the set-up of lines 188-191 ([BytesIO], [SimpleDocTemplate],
    [getSampleStyleSheet]), which takes no input of the form; [build] is
    everything done with the texts ([Paragraph], [Table], [qrcode.make],
    [Image], [doc.build]) and gives the bytes of the buffer.  Both may
    raise, and [build] need not be the same from one call to the next. *)
Variable render_exn : Type.
Variable new_document : render_exn + unit.
Variable build : pdf_texts -> render_exn + list N.

(** [generate_pdf()].  After the printed time no statement of its own can
    fail, so the calls into the libraries that the source interleaves
    with them are taken together. *)
Definition generate_pdf (upper : str -> str) (now_id now_shown : datetime)
    (p : PatientProfile) (prob : float) : pdf_result render_exn :=
  match new_document with
  | inl e => LibraryRaises e
  | inr _ =>
      match pdf_content upper now_id now_shown p prob with
      | inl e => Raises e
      | inr texts =>
          match build texts with
          | inl e => LibraryRaises e
          | inr buffer => Returned buffer
          end
      end
  end.

End Rendering.

(** The columns that hold a quantity; every other column is a 0/1 flag. *)
Definition quantity_columns : list str :=
  map py [ "age"; "length_of_stay"; "previous_admissions"; "comorbidity_count";
           "avg_creatinine"; "avg_hemoglobin"; "avg_glucose"; "num_medications";
           "los_x_comorb" ]%string.

(** Not a line feed. *)
Definition not_nl (c : N) : bool := negb (c =? 10)%N.

(** ** One run of the script, statement by statement *)

(** What a name of the script can be bound to. *)
Inductive object : Type :=
| OInt (z : Z)
| OFloat (x : float)
| OStr (s : str)
| OList (l : list str)
| OFrame (df : DataFrame.t)
| OModel (predict_proba : DataFrame.t -> option float)
| OOther (tag : N).

(** How a statement can fail: an exception of the stage itself, a name
    that is not bound, an object of a type the statement has no use for,
    or an exception inside the model. *)
Inductive fault : Type :=
| Raised (e : exn)
| NameError (name : str)
| TypeError
| ModelError.

(** What a statement can reach: the module's namespace and, behind it,
    the clock with the readings it will give from now on. *)
Record run_state : Type := {
  names : str -> option object;
  clock : nat -> datetime
}.

Definition outcome (A : Type) : Type := (fault + A)%type.

Definition bind_outcome {A B} (m : outcome A) (k : A -> outcome B) : outcome B :=
  match m with
  | inl f => inl f
  | inr a => k a
  end.

Definition lift {A} (m : result A) : outcome A :=
  match m with
  | inl e => inl (Raised e)
  | inr a => inr a
  end.

Declare Scope run_scope.
Delimit Scope run_scope with run.
Notation "x <- m ;; k" := (bind_outcome m (fun x => k))
  (at level 61, m at next level, right associativity) : run_scope.

(** The object bound to [n], if any. *)
Definition bound (n : string) (r : run_state) : option object := names r (py n).

(** [n = o] *)
Definition assign (n : string) (o : object) (r : run_state) : run_state := {|
  names := fun k => if str_eqb k (py n) then Some o else names r k;
  clock := clock r
|}.

(** [datetime.now()]: the next reading of the clock. *)
Definition datetime_now (r : run_state) : datetime * run_state :=
  (clock r 0%nat, {| names := names r; clock := fun i => clock r (S i) |}).

(** Reading a name: [NameError] when it is not bound. *)
Definition lookup (n : string) (r : run_state) : outcome object :=
  match bound n r with
  | Some o => inr o
  | None => inl (NameError (py n))
  end.

(** Reading a name where the statement needs an object of one type.  The
    widgets fix the type of every input ([number_input] with integer
    bounds gives an [int], with float bounds a [float], [text_input] and
    [selectbox] a [str]), and the stages bind the other names they read
    themselves, so the [TypeError] branches are not taken in a run; what
    Python would do with an object of another type is not modelled. *)
Definition get_int (n : string) (r : run_state) : outcome Z :=
  (o <- lookup n r ;; match o with OInt z => inr z | _ => inl TypeError end)%run.

Definition get_float (n : string) (r : run_state) : outcome float :=
  (o <- lookup n r ;; match o with OFloat x => inr x | _ => inl TypeError end)%run.

Definition get_str (n : string) (r : run_state) : outcome str :=
  (o <- lookup n r ;; match o with OStr s => inr s | _ => inl TypeError end)%run.

Definition get_list (n : string) (r : run_state) : outcome (list str) :=
  (o <- lookup n r ;; match o with OList l => inr l | _ => inl TypeError end)%run.

Definition get_frame (n : string) (r : run_state) : outcome DataFrame.t :=
  (o <- lookup n r ;; match o with OFrame df => inr df | _ => inl TypeError end)%run.

Definition get_model (n : string) (r : run_state)
  : outcome (DataFrame.t -> option float) :=
  (o <- lookup n r ;; match o with OModel m => inr m | _ => inl TypeError end)%run.

Section Script.

Variable upper : str -> str.

Local Open Scope run_scope.

(** [icd_group = diagnosis_code[0].upper()] *)
Definition stmt_icd_group (r : run_state) : outcome run_state :=
  code <- get_str "diagnosis_code" r ;;
  match code with
  | [] => inl (Raised IndexError)
  | c :: _ => inr (assign "icd_group" (OStr (upper [c])) r)
  end.

(** [input_data = pd.DataFrame({...})] *)
Definition stmt_constructor (r : run_state) : outcome run_state :=
  age <- get_int "age" r ;;
  los <- get_int "los" r ;;
  prev_adm <- get_int "prev_adm" r ;;
  comorbidity_count <- get_int "comorbidity_count" r ;;
  avg_creatinine <- get_float "avg_creatinine" r ;;
  avg_hemoglobin <- get_float "avg_hemoglobin" r ;;
  avg_glucose <- get_float "avg_glucose" r ;;
  num_medications <- get_int "num_medications" r ;;
  gender <- get_str "gender" r ;;
  inr (assign "input_data"
         (OFrame
            [ (py "age", VInt age);
              (py "length_of_stay", VInt los);
              (py "previous_admissions", VInt prev_adm);
              (py "comorbidity_count", VInt comorbidity_count);
              (py "avg_creatinine", VFloat avg_creatinine);
              (py "avg_hemoglobin", VFloat avg_hemoglobin);
              (py "avg_glucose", VFloat avg_glucose);
              (py "num_medications", VInt num_medications);
              (py "gender_M", VInt (if str_eqb gender (py "Male") then 1 else 0)) ])
         r).

(** [input_data[col] = rhs]: the right-hand side first, then the frame.
    The frame is changed in place; no other name refers to it, so the
    change is a new binding of [input_data]. *)
Definition stmt_setitem (col : str) (rhs : run_state -> outcome value)
    (r : run_state) : outcome run_state :=
  v <- rhs r ;;
  df <- get_frame "input_data" r ;;
  inr (assign "input_data" (OFrame (DataFrame.setitem col v df)) r).

(** [los * comorbidity_count] *)
Definition rhs_los_x_comorb (r : run_state) : outcome value :=
  los <- get_int "los" r ;;
  comorbidity_count <- get_int "comorbidity_count" r ;;
  inr (VInt (los * comorbidity_count)).

(** [int(avg_glucose > 200)] *)
Definition rhs_glucose_flag (r : run_state) : outcome value :=
  avg_glucose <- get_float "avg_glucose" r ;;
  inr (VInt (int_of_bool (float_gt avg_glucose (float_of_int 200)))).

(** [int(avg_creatinine > 2)] *)
Definition rhs_creatinine_flag (r : run_state) : outcome value :=
  avg_creatinine <- get_float "avg_creatinine" r ;;
  inr (VInt (int_of_bool (float_gt avg_creatinine (float_of_int 2)))).

(** [int(avg_hemoglobin < 10)] *)
Definition rhs_hb_flag (r : run_state) : outcome value :=
  avg_hemoglobin <- get_float "avg_hemoglobin" r ;;
  inr (VInt (int_of_bool (float_lt avg_hemoglobin (float_of_int 10)))).

(** [int(num_medications >= 15)] *)
Definition rhs_polypharmacy_flag (r : run_state) : outcome value :=
  num_medications <- get_int "num_medications" r ;;
  inr (VInt (int_of_bool (15 <=? num_medications)%Z)).

(** The body of the loop, with [col] bound to the next column. *)
Definition loop_body (c : str) (r : run_state) : outcome run_state :=
  let r := assign "col" (OStr c) r in
  col <- get_str "col" r ;;
  df <- get_frame "input_data" r ;;
  if contains col (DataFrame.columns df) then inr r
  else
    df <- get_frame "input_data" r ;;
    col <- get_str "col" r ;;
    inr (assign "input_data" (OFrame (DataFrame.setitem col (VInt 0) df)) r).

(** [for col in feature_columns: if col not in input_data.columns:
    input_data[col] = 0] *)
Definition stmt_fill_missing (r : run_state) : outcome run_state :=
  cols <- get_list "feature_columns" r ;;
  fold_left (fun acc c => r <- acc ;; loop_body c r) cols (inr r).

(** [if icd_group in feature_columns: input_data[icd_group] = 1] *)
Definition stmt_one_hot (r : run_state) : outcome run_state :=
  icd_group <- get_str "icd_group" r ;;
  cols <- get_list "feature_columns" r ;;
  if contains icd_group cols then
    df <- get_frame "input_data" r ;;
    icd_group <- get_str "icd_group" r ;;
    inr (assign "input_data" (OFrame (DataFrame.setitem icd_group (VInt 1) df)) r)
  else inr r.

(** [input_data = input_data[feature_columns]] *)
Definition stmt_align (r : run_state) : outcome run_state :=
  df <- get_frame "input_data" r ;;
  cols <- get_list "feature_columns" r ;;
  fv <- lift (DataFrame.getitem cols df) ;;
  inr (assign "input_data" (OFrame fv) r).

(** The FEATURE PREP block. *)
Definition run_feature_prep (r : run_state) : outcome run_state :=
  r <- stmt_icd_group r ;;
  r <- stmt_constructor r ;;
  r <- stmt_setitem (py "los_x_comorb") rhs_los_x_comorb r ;;
  r <- stmt_setitem (py "glucose_flag") rhs_glucose_flag r ;;
  r <- stmt_setitem (py "creatinine_flag") rhs_creatinine_flag r ;;
  r <- stmt_setitem (py "hb_flag") rhs_hb_flag r ;;
  r <- stmt_setitem (py "polypharmacy_flag") rhs_polypharmacy_flag r ;;
  r <- stmt_fill_missing r ;;
  r <- stmt_one_hot r ;;
  stmt_align r.

(** [prob = float(model.predict_proba(input_data)[0][1])] *)
Definition stmt_predict (r : run_state) : outcome run_state :=
  model <- get_model "model" r ;;
  df <- get_frame "input_data" r ;;
  match model df with
  | Some prob => inr (assign "prob" (OFloat prob) r)
  | None => inl ModelError
  end.

(** [risk_percent = prob * 100] *)
Definition stmt_risk_percent (r : run_state) : outcome run_state :=
  prob <- get_float "prob" r ;;
  inr (assign "risk_percent" (OFloat (risk_percent prob)) r).

(** The cascade that binds [level] and [color]. *)
Definition stmt_level (r : run_state) : outcome run_state :=
  prob <- get_float "prob" r ;;
  if float_ge prob (float_lit 50 100) then
    inr (assign "color" (OStr (py "#d62828")) (assign "level" (OStr (py "HIGH")) r))
  else
    prob <- get_float "prob" r ;;
    if float_ge prob (float_lit 30 100) then
      inr (assign "color" (OStr (py "#f77f00"))
             (assign "level" (OStr (py "MODERATE")) r))
    else
      inr (assign "color" (OStr (py "#2a9d8f")) (assign "level" (OStr (py "LOW")) r)).

(** The ANALYZE block up to the binding of [level] and [color]. *)
Definition run_analyze (r : run_state) : outcome run_state :=
  r <- stmt_predict r ;;
  r <- stmt_risk_percent r ;;
  stmt_level r.

(** Lines 108-153 of a run in which the button is pressed. *)
Definition run_script (r : run_state) : outcome run_state :=
  r <- run_feature_prep r ;; run_analyze r.

(** The identifier of the report, as [generate_pdf] computes it: the one
    place where the clock is read. *)
Definition eval_report_id (r : run_state) : outcome (str * run_state) :=
  let (now, r) := datetime_now r in
  age <- get_int "age" r ;;
  diagnosis_code <- get_str "diagnosis_code" r ;;
  id <- lift (report_id upper now age diagnosis_code) ;;
  inr (id, r).

End Script.

(** The namespace binds the widgets' names to the values of [p] and
    [feature_columns] to [cols]: the run was started from these inputs. *)
Definition started_from (p : PatientProfile) (cols : list str) (r : run_state)
  : Prop :=
  bound "age" r = Some (OInt (age p))
  /\ bound "gender" r = Some (OStr (gender p))
  /\ bound "los" r = Some (OInt (los p))
  /\ bound "prev_adm" r = Some (OInt (prev_adm p))
  /\ bound "comorbidity_count" r = Some (OInt (comorbidity_count p))
  /\ bound "num_medications" r = Some (OInt (num_medications p))
  /\ bound "diagnosis_code" r = Some (OStr (diagnosis_code p))
  /\ bound "avg_creatinine" r = Some (OFloat (avg_creatinine p))
  /\ bound "avg_hemoglobin" r = Some (OFloat (avg_hemoglobin p))
  /\ bound "avg_glucose" r = Some (OFloat (avg_glucose p))
  /\ bound "feature_columns" r = Some (OList cols).

(** The names the stages assign; none is an input. *)
Definition assigned (n : string) : Prop :=
  In n ["icd_group"; "input_data"; "col"; "prob"; "risk_percent";
        "level"; "color"]%string.

(** After [icd_group] and the frame are bound: the inputs are as they
    were, and so are the model and the clock. *)
Definition prepared (p : PatientProfile) (cols : list str) (g : str)
    (df : DataFrame.t) (r0 r : run_state) : Prop :=
  started_from p cols r
  /\ bound "icd_group" r = Some (OStr g)
  /\ bound "input_data" r = Some (OFrame df)
  /\ bound "model" r = bound "model" r0
  /\ clock r = clock r0.

(** Lines 69-103 in a run whose widgets return [p]: the cached model and
    schema, then the inputs, bound over whatever [r] held before. *)
Definition bind_inputs (p : PatientProfile) (cols : list str)
    (m : DataFrame.t -> option float) (r : run_state) : run_state :=
  assign "avg_glucose" (OFloat (avg_glucose p))
    (assign "avg_hemoglobin" (OFloat (avg_hemoglobin p))
    (assign "avg_creatinine" (OFloat (avg_creatinine p))
    (assign "diagnosis_code" (OStr (diagnosis_code p))
    (assign "num_medications" (OInt (num_medications p))
    (assign "comorbidity_count" (OInt (comorbidity_count p))
    (assign "prev_adm" (OInt (prev_adm p))
    (assign "los" (OInt (los p))
    (assign "gender" (OStr (gender p))
    (assign "age" (OInt (age p))
    (assign "feature_columns" (OList cols)
    (assign "model" (OModel m) r))))))))))).

(** A run of the end-to-end scenario in a fresh namespace, with the clock
    standing at [t] and a model that answers [prob] whatever it is asked. *)
Definition sample_run (t : datetime) (prob : float) : run_state :=
  bind_inputs scenario sample_columns (fun _ => Some prob)
    {| names := fun _ => None; clock := fun _ => t |}.

(** The same inputs over a namespace that still holds the bindings of an
    earlier analysis. *)
Definition stale_run (t : datetime) (prob : float) : run_state :=
  bind_inputs scenario sample_columns (fun _ => Some prob)
    (assign "color" (OStr (py "#d62828"))
       (assign "level" (OStr (py "HIGH"))
          (assign "prob" (OFloat (float_lit 9 10))
             (assign "input_data" (OFrame [(py "age", VInt 99)])
                (assign "icd_group" (OStr (py "Z"))
                   {| names := fun _ => None; clock := fun _ => t |}))))).

(** The quotient [a / 2^k] rounded to the nearest integer, ties to the
    even one: what the binary64 multiplication keeps of an exact product
    that is [k] bits too long. *)
Definition rne (a k : Z) : Z :=
  (let q := a / 2 ^ k in
   let r := a mod 2 ^ k in
   if 2 * r <? 2 ^ k then q
   else if 2 ^ k <? 2 * r then q + 1
   else if Z.even q then q else q + 1)%Z.

(** * Properties *)

(** ** Runs of the embedding *)

(** The standard test vectors of SHA-256. *)
Example hexdigest_empty :
  Sha256.hexdigest []
  = py "e3b0c44298fc1c149afbf4c8996fb92427ae41e4649b934ca495991b7852b855".
Proof. vm_compute. reflexivity. Qed.

Example hexdigest_abc :
  Sha256.hexdigest (py "abc")
  = py "ba7816bf8f01cfea414140de5dae2223b00361a396177a9cb410ff61f20015ad".
Proof. vm_compute. reflexivity. Qed.

(** A message that needs two blocks. *)
Example hexdigest_two_blocks :
  Sha256.hexdigest (py "abcdbcdecdefdefgefghfghighijhijkijkljklmklmnlmnomnopnopq")
  = py "248d6a61d20638b8e5c026930c3e6039a33ce45964ff2167f6ecedd419db06c1".
Proof. vm_compute. reflexivity. Qed.

Example encode_non_ascii :
  encode [233; 8364; 128512]%N = inr [195; 169; 226; 130; 172; 240; 159; 152; 128]%N.
Proof. reflexivity. Qed.

Example encode_surrogate : encode [55357]%N = inl UnicodeEncodeError.
Proof. reflexivity. Qed.

Example str_of_sample_time :
  str_of_datetime sample_time = py "2024-03-15 10:30:45.123456".
Proof. reflexivity. Qed.

Example str_of_sample_time_later :
  str_of_datetime sample_time_later = py "2024-03-15 10:30:46".
Proof. reflexivity. Qed.

Example report_text_sample :
  report_text sample_time 65 (py "I50.9") = py "2024-03-15 10:30:45.123456-65-I50.9".
Proof. reflexivity. Qed.

(** The decimal literals denote the binary64 value nearest to them: each
    is within half a unit in the last place of the decimal fraction. *)
Example literal_030_nearest :
  (Qabs (F2Q (float_lit 30 100) - (3 # 10)) <= (1 # 2 ^ 55))%Q.
Proof. apply Qle_bool_iff. vm_compute. reflexivity. Qed.

Example literal_04999_nearest :
  (Qabs (F2Q (float_lit 4999 10000) - (4999 # 10000)) <= (1 # 2 ^ 55))%Q.
Proof. apply Qle_bool_iff. vm_compute. reflexivity. Qed.

Example literal_02999_nearest :
  (Qabs (F2Q (float_lit 2999 10000) - (2999 # 10000)) <= (1 # 2 ^ 55))%Q.
Proof. apply Qle_bool_iff. vm_compute. reflexivity. Qed.

(** Their bit patterns, as [float.hex] shows them in Python. *)
Example literal_bits :
  [float_lit 30 100; float_lit 4999 10000; float_lit 2999 10000; float_lit 12 10]
  = [ S754_finite false 5404319552844595 (-54);
      S754_finite false 9005397814890044 (-54);
      S754_finite false 5402518112993647 (-54);
      S754_finite false 5404319552844595 (-52) ].
Proof. vm_compute. reflexivity. Qed.

Example literal_050_exact : (F2Q (float_lit 50 100) == (1 # 2))%Q.
Proof. apply Qeq_bool_iff. vm_compute. reflexivity. Qed.

(** The block on the end-to-end scenario, for the sample schema. *)
Example feature_prep_scenario :
  feature_prep upper_ascii scenario sample_columns
  = inr [ (py "age", VInt 65); (py "gender_M", VInt 1);
          (py "los_x_comorb", VInt 14); (py "glucose_flag", VInt 0);
          (py "creatinine_flag", VInt 0); (py "hb_flag", VInt 0);
          (py "polypharmacy_flag", VInt 0); (py "E", VInt 0);
          (py "I", VInt 1); (py "insurance_private", VInt 0) ].
Proof. vm_compute. reflexivity. Qed.

Example classify_samples :
  map classify [float_lit 50 100; float_lit 4999 10000; float_lit 30 100;
                float_lit 2999 10000; S754_nan]
  = [ (HIGH, py "#d62828"); (MODERATE, py "#f77f00"); (MODERATE, py "#f77f00");
      (LOW, py "#2a9d8f"); (LOW, py "#2a9d8f") ].
Proof. vm_compute. reflexivity. Qed.

(** ** Strings and column lists *)

Lemma str_eqb_eq (a b : str) : str_eqb a b = true <-> a = b.
Proof.
  revert b; induction a as [|x a IH]; intros [|y b]; simpl; split;
    try congruence; try reflexivity.
  - intros H; apply andb_true_iff in H as [Hx Hr].
    apply N.eqb_eq in Hx; apply IH in Hr; congruence.
  - intros H; injection H as -> ->.
    rewrite N.eqb_refl; simpl; now apply IH.
Qed.

Lemma str_eqb_refl (a : str) : str_eqb a a = true.
Proof. now apply str_eqb_eq. Qed.

Lemma str_eqb_neq (a b : str) : str_eqb a b = false <-> a <> b.
Proof.
  split.
  - intros H E; apply str_eqb_eq in E; congruence.
  - intros H; destruct (str_eqb a b) eqn:E; [|reflexivity].
    apply str_eqb_eq in E; contradiction.
Qed.

Lemma str_eqb_sym (a b : str) : str_eqb a b = str_eqb b a.
Proof.
  destruct (str_eqb b a) eqn:E.
  - apply str_eqb_eq in E; subst; apply str_eqb_refl.
  - apply str_eqb_neq in E; apply str_eqb_neq; congruence.
Qed.

Lemma contains_In (c : str) (cols : list str) :
  contains c cols = true <-> In c cols.
Proof.
  induction cols as [|k cols IH]; simpl.
  - split; [discriminate | contradiction].
  - rewrite orb_true_iff, str_eqb_eq, IH; tauto.
Qed.

Lemma contains_not_In (c : str) (cols : list str) :
  contains c cols = false <-> ~ In c cols.
Proof.
  rewrite <- contains_In; destruct (contains c cols); split; congruence.
Qed.

(** ** Data frame algebra *)

Module DataFrameFacts.

Import DataFrame.

Lemma get_setitem (c k : str) (v : value) (df : t) :
  get c (setitem k v df) = if str_eqb k c then Some v else get c df.
Proof.
  induction df as [|[k' x] df IH]; simpl.
  - reflexivity.
  - destruct (str_eqb k' k) eqn:Ek; simpl.
    + apply str_eqb_eq in Ek; subst k'.
      destruct (str_eqb k c); reflexivity.
    + rewrite IH. destruct (str_eqb k' c) eqn:Ec; [|reflexivity].
      apply str_eqb_eq in Ec; subst k'. now rewrite str_eqb_sym, Ek.
Qed.

Lemma contains_columns (c : str) (df : t) :
  contains c (columns df) = match get c df with Some _ => true | None => false end.
Proof.
  induction df as [|[k x] df IH]; simpl; [reflexivity|].
  destruct (str_eqb k c); simpl; [reflexivity | exact IH].
Qed.

(** Assigning never removes or reorders the columns that were there. *)
Lemma columns_setitem (k : str) (v : value) (df : t) :
  columns (setitem k v df)
  = if contains k (columns df) then columns df else columns df ++ [k].
Proof.
  induction df as [|[k' x] df IH]; simpl; [reflexivity|].
  destruct (str_eqb k' k) eqn:Ek; simpl; [reflexivity|].
  unfold columns in *; rewrite IH.
  destruct (contains k (map fst df)); reflexivity.
Qed.

Lemma getitem_map (f : str -> value) (cols : list str) (df : t) :
  (forall c, In c cols -> get c df = Some (f c)) ->
  getitem cols df = inr (map (fun c => (c, f c)) cols).
Proof.
  induction cols as [|c cols IH]; intros H; simpl; [reflexivity|].
  rewrite (H c (or_introl eq_refl)), IH; [reflexivity|].
  intros c' Hc'; apply H; now right.
Qed.

Lemma getitem_KeyError (cols : list str) (df : t) (c : str) :
  getitem cols df = inl (KeyError c) -> In c cols /\ get c df = None.
Proof.
  induction cols as [|k cols IH]; simpl; [discriminate|].
  destruct (get k df) eqn:Ek.
  - destruct (getitem cols df) eqn:Er; simpl; [|discriminate].
    intros H; injection H as ->. destruct (IH eq_refl); auto.
  - intros H; injection H as <-. auto.
Qed.

Lemma get_map (f : str -> value) (cols : list str) (c : str) :
  get c (map (fun k => (k, f k)) cols)
  = if contains c cols then Some (f c) else None.
Proof.
  induction cols as [|k cols IH]; simpl; [reflexivity|].
  destruct (str_eqb k c) eqn:Ek; simpl; [|exact IH].
  apply str_eqb_eq in Ek; now subst.
Qed.

(** Assignment keeps the labels distinct, so overwriting the first
    match in [setitem] is overwriting the column. *)
Lemma NoDup_setitem (k : str) (v : value) (df : t) :
  NoDup (columns df) -> NoDup (columns (setitem k v df)).
Proof.
  intros H. rewrite columns_setitem.
  destruct (contains k (columns df)) eqn:E; [exact H|].
  apply contains_not_In in E.
  apply NoDup_rev in H. rewrite <- (rev_involutive (columns df ++ [k])).
  apply NoDup_rev. rewrite rev_app_distr. simpl.
  constructor; [now rewrite <- in_rev | exact H].
Qed.

End DataFrameFacts.


(** ** Feature preparation *)

Section FeaturePrepFacts.

Variable upper : str -> str.

Import DataFrame DataFrameFacts.

Lemma get_fill_missing (cols : list str) (df : t) (c : str) :
  get c (fill_missing cols df)
  = match get c df with
    | Some v => Some v
    | None => if contains c cols then Some (VInt 0) else None
    end.
Proof.
  unfold fill_missing. revert df.
  induction cols as [|k cols IH]; intros df; simpl.
  - destruct (get c df); reflexivity.
  - rewrite IH, contains_columns.
    destruct (get k df) eqn:Ek.
    + destruct (get c df) eqn:Ec; [reflexivity|].
      destruct (str_eqb k c) eqn:E; [|reflexivity].
      apply str_eqb_eq in E; congruence.
    + rewrite get_setitem.
      destruct (str_eqb k c) eqn:E; simpl.
      * apply str_eqb_eq in E; subst k. now rewrite Ek.
      * reflexivity.
Qed.

Lemma get_one_hot (g : str) (cols : list str) (df : t) (c : str) :
  In c cols ->
  get c (one_hot g cols df) = if str_eqb g c then Some (VInt 1) else get c df.
Proof.
  intros Hc. unfold one_hot.
  destruct (contains g cols) eqn:Eg.
  - apply get_setitem.
  - destruct (str_eqb g c) eqn:E; [|reflexivity].
    apply str_eqb_eq in E; subst g.
    apply contains_In in Hc; congruence.
Qed.

(** The columns of the frame before alignment are the fourteen assigned
    ones, whatever the profile. *)
Lemma columns_engineered (p : PatientProfile) :
  columns (engineered p) = produced_columns.
Proof. reflexivity. Qed.

Lemma get_engineered_produced (p : PatientProfile) (c : str) :
  In c produced_columns -> exists v, get c (engineered p) = Some v.
Proof.
  intros H. rewrite <- (columns_engineered p) in H.
  apply contains_In in H. rewrite contains_columns in H.
  destruct (get c (engineered p)) as [v|]; [now exists v | discriminate].
Qed.

Lemma get_engineered_other (p : PatientProfile) (c : str) :
  ~ In c produced_columns -> get c (engineered p) = None.
Proof.
  intros H. rewrite <- (columns_engineered p) in H.
  apply contains_not_In in H. rewrite contains_columns in H.
  destruct (get c (engineered p)); [discriminate | reflexivity].
Qed.

Lemma NoDup_fill_missing (cols : list str) (df : t) :
  NoDup (columns df) -> NoDup (columns (fill_missing cols df)).
Proof.
  unfold fill_missing. revert df.
  induction cols as [|k cols IH]; intros df H; simpl; [exact H|].
  apply IH. destruct (contains k (columns df)); [exact H|].
  now apply NoDup_setitem.
Qed.

(** No label occurs twice in the frame that is aligned. *)
Lemma NoDup_prepared (p : PatientProfile) (g : str) (cols : list str) :
  NoDup (columns (one_hot g cols (fill_missing cols (engineered p)))).
Proof.
  assert (H : NoDup (columns (fill_missing cols (engineered p)))).
  { apply NoDup_fill_missing. rewrite columns_engineered.
    unfold produced_columns.
    repeat (constructor; [apply contains_not_In; reflexivity|]).
    constructor. }
  unfold one_hot. destruct (contains g cols); [|exact H].
  now apply NoDup_setitem.
Qed.

Lemma icd_group_nonempty (p : PatientProfile) :
  diagnosis_code p <> [] -> exists g, icd_group upper p = inr g.
Proof.
  unfold icd_group. destruct (diagnosis_code p) as [|c rest]; [congruence|].
  intros _; now eexists.
Qed.

(** The whole block in closed form: it fails exactly when [icd_group]
    does, and otherwise returns one cell per schema column, in order. *)
Lemma feature_prep_closed_form (p : PatientProfile) (cols : list str) :
  feature_prep upper p cols
  = g <- icd_group upper p ;; ret (map (fun c => (c, final_cell p g c)) cols).
Proof.
  unfold feature_prep. destruct (icd_group upper p) as [e|g]; simpl; [reflexivity|].
  apply getitem_map. intros c Hc.
  rewrite get_one_hot by exact Hc. unfold final_cell.
  destruct (str_eqb g c); [reflexivity|].
  rewrite get_fill_missing.
  destruct (get c (engineered p)); [reflexivity|].
  apply contains_In in Hc. now rewrite Hc.
Qed.

Lemma feature_prep_ok (p : PatientProfile) (cols : list str) (g : str) :
  icd_group upper p = inr g ->
  feature_prep upper p cols = inr (map (fun c => (c, final_cell p g c)) cols).
Proof. intros H. now rewrite feature_prep_closed_form, H. Qed.

Lemma feature_prep_inv (p : PatientProfile) (cols : list str) (fv : t) :
  feature_prep upper p cols = inr fv ->
  exists g, icd_group upper p = inr g
            /\ fv = map (fun c => (c, final_cell p g c)) cols.
Proof.
  rewrite feature_prep_closed_form.
  destruct (icd_group upper p) as [e|g]; simpl; [discriminate|].
  intros H; injection H as <-. now exists g.
Qed.

Lemma In_aligned (p : PatientProfile) (g : str) (cols : list str) (c : str) (v : value) :
  In (c, v) (map (fun c => (c, final_cell p g c)) cols) ->
  In c cols /\ v = final_cell p g c.
Proof.
  intros H. apply in_map_iff in H as (k & E & Hk).
  injection E as -> <-. auto.
Qed.

End FeaturePrepFacts.

(** ** IEEE comparisons *)

Module FloatFacts.

(** Swapping the operands of a comparison reverses its outcome. *)
Lemma SFcompare_antisym (a b : float) :
  SFcompare b a = option_map CompOpp (SFcompare a b).
Proof.
  destruct a as [sa|sa| |sa ma ea], b as [sb|sb| |sb mb eb]; simpl;
    try destruct sa; try destruct sb; try reflexivity.
  all: rewrite (Z.compare_antisym ea eb);
    destruct (ea ?= eb)%Z; simpl; try reflexivity;
    now rewrite (Pos.compare_cont_antisym ma mb Eq).
Qed.

Lemma SFcompare_nan (a b : float) :
  SFcompare a b = None <-> is_nan a = true \/ is_nan b = true.
Proof.
  destruct a as [sa|sa| |sa ma ea], b as [sb|sb| |sb mb eb]; simpl;
    split; intros H; try discriminate; try reflexivity; auto;
    destruct H; discriminate.
Qed.

(** [a >= b] is the negation of [a < b] unless one side is NaN. *)
Lemma float_ge_not_lt (a b : float) :
  is_nan a = false -> is_nan b = false ->
  float_ge a b = negb (float_lt a b).
Proof.
  intros Ha Hb. unfold float_ge, float_lt, SFleb, SFltb.
  rewrite (SFcompare_antisym a b).
  destruct (SFcompare a b) as [[| |]|] eqn:E; simpl; try reflexivity.
  apply SFcompare_nan in E. destruct E; congruence.
Qed.

Lemma float_lt_not_ge (a b : float) :
  float_lt a b = true -> float_ge a b = false.
Proof.
  unfold float_ge, float_lt, SFleb, SFltb.
  rewrite (SFcompare_antisym a b).
  destruct (SFcompare a b) as [[| |]|]; simpl; congruence.
Qed.

Lemma float_le_not_nan_l (a b : float) : float_le a b = true -> is_nan a = false.
Proof. destruct a; [reflexivity..|discriminate|reflexivity]. Qed.

Lemma float_le_not_nan_r (a b : float) : float_le a b = true -> is_nan b = false.
Proof.
  destruct a, b; try reflexivity; try discriminate.
Qed.

Lemma probability_not_nan (prob : float) : probability prob -> is_nan prob = false.
Proof. intros [_ H]. exact (float_le_not_nan_l _ _ H). Qed.

(** The two thresholds, as the binary64 values the literals denote. *)
Lemma lit_050 : float_lit 50 100 = S754_finite false 4503599627370496 (-53).
Proof. vm_compute. reflexivity. Qed.

Lemma lit_030 : float_lit 30 100 = S754_finite false 5404319552844595 (-54).
Proof. vm_compute. reflexivity. Qed.

(** Reaching the upper threshold implies reaching the lower one. *)
Lemma ge_050_ge_030 (prob : float) :
  float_ge prob (float_lit 50 100) = true ->
  float_ge prob (float_lit 30 100) = true.
Proof.
  rewrite lit_050, lit_030. unfold float_ge, SFleb, SFcompare.
  destruct prob as [[|]|[|]| |[|] m e]; try congruence.
  destruct (Z.compare_spec (-53) e), (Z.compare_spec (-54) e);
    try lia; congruence.
Qed.

Local Open Scope Z_scope.

(** The bit length of a mantissa brackets it between two powers of two. *)
Lemma digits2_pos_bounds (m : positive) :
  2 ^ (Z.pos (digits2_pos m) - 1) <= Z.pos m < 2 ^ Z.pos (digits2_pos m).
Proof.
  induction m as [m IH|m IH|]; simpl digits2_pos.
  - rewrite Pos2Z.inj_succ.
    replace (Z.succ (Z.pos (digits2_pos m)) - 1) with (Z.succ (Z.pos (digits2_pos m) - 1)) by lia.
    rewrite !Z.pow_succ_r by lia. lia.
  - rewrite Pos2Z.inj_succ.
    replace (Z.succ (Z.pos (digits2_pos m)) - 1) with (Z.succ (Z.pos (digits2_pos m) - 1)) by lia.
    rewrite !Z.pow_succ_r by lia. lia.
  - simpl. lia.
Qed.

(** A canonical mantissa has at most 53 bits, and exactly 53 unless the
    number is subnormal. *)
Lemma canonical_bounds (m : positive) (e : Z) :
  canonical_mantissa prec emax m e = true ->
  -1074 <= e /\ Z.pos m < 2 ^ 53 /\ (-1074 < e -> 2 ^ 52 <= Z.pos m).
Proof.
  unfold canonical_mantissa, fexp, emin, prec, emax. intros H.
  apply Z.eqb_eq in H.
  pose proof (digits2_pos_bounds m) as [Hlo Hhi].
  set (d := Z.pos (digits2_pos m)) in *.
  assert (Hd : 0 < d) by (unfold d; lia).
  change (IntDef.Z.max) with Z.max in H.
  split; [lia|]. split.
  - assert (d <= 53) by lia.
    apply Z.lt_le_trans with (2 ^ d); [exact Hhi|].
    apply Z.pow_le_mono_r; lia.
  - intros He. assert (d = 53) by lia.
    replace 52 with (d - 1) by lia. exact Hlo.
Qed.

(** Between canonical numbers the smaller exponent is the smaller number. *)
Lemma magnitude_lt (m1 m2 : positive) (e1 e2 : Z) :
  canonical_mantissa prec emax m1 e1 = true ->
  canonical_mantissa prec emax m2 e2 = true ->
  e1 < e2 ->
  Z.pos m1 * 2 ^ (e1 + 1074) < Z.pos m2 * 2 ^ (e2 + 1074).
Proof.
  intros H1 H2 He.
  apply canonical_bounds in H1 as (Hl1 & Hm1 & _).
  apply canonical_bounds in H2 as (Hl2 & _ & Hm2).
  specialize (Hm2 ltac:(lia)).
  assert (Hp : 0 < 2 ^ (e1 + 1074)) by (apply Z.pow_pos_nonneg; lia).
  apply Z.lt_le_trans with (2 ^ 53 * 2 ^ (e1 + 1074)).
  - apply Z.mul_lt_mono_pos_r; assumption.
  - change (2 ^ 53) with (2 ^ 52 * 2 ^ 1).
    rewrite <- Z.mul_assoc, <- Z.pow_add_r by lia.
    apply Z.mul_le_mono_nonneg; try lia.
    apply Z.pow_le_mono_r; lia.
Qed.

(** The IEEE comparison of two well-formed numbers compares the numbers
    they stand for. *)
Lemma SFcompare_ulps (x y : float) :
  binary64 x -> binary64 y ->
  SFcompare x y = Some (ulps x ?= ulps y).
Proof.
  intros [Vx Fx] [Vy Fy].
  destruct x as [sx|sx| |sx mx ex], y as [sy|sy| |sy my ey]; try discriminate;
    simpl in Vx, Vy; cbv beta iota delta [SFcompare ulps].
  - rewrite Z.compare_refl. reflexivity.
  - assert (0 < Z.pos my * 2 ^ (ey + 1074)).
    { apply andb_true_iff in Vy as [Vy _]. apply canonical_bounds in Vy as (? & _).
      apply Z.mul_pos_pos; [lia | apply Z.pow_pos_nonneg; lia]. }
    destruct sy; f_equal; symmetry.
    + apply Z.compare_gt_iff. rewrite <- Pos2Z.opp_pos. lia.
    + apply Z.compare_lt_iff. lia.
  - assert (0 < Z.pos mx * 2 ^ (ex + 1074)).
    { apply andb_true_iff in Vx as [Vx _]. apply canonical_bounds in Vx as (? & _).
      apply Z.mul_pos_pos; [lia | apply Z.pow_pos_nonneg; lia]. }
    destruct sx; f_equal; symmetry.
    + apply Z.compare_lt_iff. rewrite <- Pos2Z.opp_pos. lia.
    + apply Z.compare_gt_iff. lia.
  - apply andb_true_iff in Vx as [Vx _]. apply andb_true_iff in Vy as [Vy _].
    pose proof (canonical_bounds _ _ Vx) as (Hx & _).
    pose proof (canonical_bounds _ _ Vy) as (Hy & _).
    assert (Px : 0 < Z.pos mx * 2 ^ (ex + 1074))
      by (apply Z.mul_pos_pos; [lia | apply Z.pow_pos_nonneg; lia]).
    assert (Py : 0 < Z.pos my * 2 ^ (ey + 1074))
      by (apply Z.mul_pos_pos; [lia | apply Z.pow_pos_nonneg; lia]).
    assert (Hlt : ex < ey -> Z.pos mx * 2 ^ (ex + 1074) < Z.pos my * 2 ^ (ey + 1074))
      by (now apply magnitude_lt).
    assert (Hgt : ey < ex -> Z.pos my * 2 ^ (ey + 1074) < Z.pos mx * 2 ^ (ex + 1074))
      by (now apply magnitude_lt).
    assert (Heq : ex = ey ->
                  (Z.pos mx * 2 ^ (ex + 1074) ?= Z.pos my * 2 ^ (ey + 1074))
                  = Pos.compare_cont Eq mx my).
    { intros <-.
      rewrite <- Zmult_compare_compat_r
        by (apply Z.lt_gt, Z.pow_pos_nonneg; lia).
      reflexivity. }
    rewrite <- !Pos2Z.opp_pos.
    destruct sx, sy; f_equal; symmetry.
    + destruct (Z.compare_spec ex ey) as [E|E|E].
      * rewrite !Z.mul_opp_l, Z.compare_opp, Z.compare_antisym, (Heq E). reflexivity.
      * apply Z.compare_gt_iff. specialize (Hlt E). lia.
      * apply Z.compare_lt_iff. specialize (Hgt E). lia.
    + apply Z.compare_lt_iff. lia.
    + apply Z.compare_gt_iff. lia.
    + destruct (Z.compare_spec ex ey) as [E|E|E].
      * apply (Heq E).
      * apply Z.compare_lt_iff. auto.
      * apply Z.compare_gt_iff. auto.
Qed.

(** IEEE [<] and [<=] on well-formed numbers are the order of the
    rationals they stand for. *)
Lemma float_lt_Q (x y : float) :
  binary64 x -> binary64 y -> (float_lt x y = true <-> (F2Q x < F2Q y)%Q).
Proof.
  intros Hx Hy. unfold float_lt, SFltb. rewrite (SFcompare_ulps x y Hx Hy).
  unfold F2Q, Qlt; simpl Qnum; simpl Qden.
  rewrite <- Z.mul_lt_mono_pos_r by reflexivity.
  rewrite <- Z.compare_lt_iff.
  destruct (ulps x ?= ulps y); split; congruence.
Qed.

Lemma float_le_Q (x y : float) :
  binary64 x -> binary64 y -> (float_le x y = true <-> (F2Q x <= F2Q y)%Q).
Proof.
  intros Hx Hy. unfold float_le, SFleb. rewrite (SFcompare_ulps x y Hx Hy).
  unfold F2Q, Qle; simpl Qnum; simpl Qden.
  rewrite <- Z.mul_le_mono_pos_r by reflexivity.
  rewrite <- Z.compare_le_iff.
  destruct (ulps x ?= ulps y); split; congruence.
Qed.

(** Small integers convert exactly. *)
Lemma float_of_int_exact (n : Z) :
  In n [0; 1; 2; 10; 200; 250]%Z ->
  binary64 (float_of_int n) /\ (F2Q (float_of_int n) == inject_Z n)%Q.
Proof.
  simpl. intros H.
  repeat (destruct H as [<-|H]; [split; [split|]; vm_compute; reflexivity|]).
  contradiction.
Qed.

End FloatFacts.

(** ** Risk level *)

Section RiskLevel.

Import FloatFacts.

Lemma risk_level_HIGH (prob : float) :
  risk_level prob = HIGH <-> float_ge prob (float_lit 50 100) = true.
Proof.
  unfold risk_level, classify.
  destruct (float_ge prob (float_lit 50 100)); simpl.
  - tauto.
  - destruct (float_ge prob (float_lit 30 100)); simpl; split; discriminate.
Qed.

Lemma risk_level_MODERATE (prob : float) :
  is_nan prob = false ->
  risk_level prob = MODERATE
  <-> float_ge prob (float_lit 30 100) = true
      /\ float_lt prob (float_lit 50 100) = true.
Proof.
  intros Hn. unfold risk_level, classify.
  rewrite (float_ge_not_lt prob (float_lit 50 100) Hn) by (now rewrite lit_050).
  destruct (float_lt prob (float_lit 50 100)); simpl.
  - destruct (float_ge prob (float_lit 30 100)); simpl; split;
      try tauto; try discriminate. intros [? _]; discriminate.
  - split; [discriminate | intros [_ ?]; discriminate].
Qed.

Lemma risk_level_LOW (prob : float) :
  is_nan prob = false ->
  risk_level prob = LOW <-> float_lt prob (float_lit 30 100) = true.
Proof.
  intros Hn. unfold risk_level, classify.
  destruct (float_ge prob (float_lit 50 100)) eqn:E50; simpl.
  - apply ge_050_ge_030 in E50.
    rewrite (float_ge_not_lt prob (float_lit 30 100) Hn) in E50
      by (now rewrite lit_030).
    destruct (float_lt prob (float_lit 30 100)); split; discriminate.
  - rewrite (float_ge_not_lt prob (float_lit 30 100) Hn) by (now rewrite lit_030).
    destruct (float_lt prob (float_lit 30 100)); simpl; split;
      try reflexivity; discriminate.
Qed.

(** The same thresholds on the numbers compared: HIGH starts at one half
    exactly, MODERATE at the binary64 value nearest to 0.3. *)
Lemma risk_level_by_value (prob : float) :
  binary64 prob ->
  (risk_level prob = HIGH <-> (1 # 2 <= F2Q prob)%Q)
  /\ (risk_level prob = LOW <-> (F2Q prob < F2Q (float_lit 30 100))%Q).
Proof.
  intros Hb.
  assert (Hn : is_nan prob = false) by (destruct Hb as [_ Hf]; now destruct prob).
  assert (H50 : binary64 (float_lit 50 100)) by (split; vm_compute; reflexivity).
  assert (H30 : binary64 (float_lit 30 100)) by (split; vm_compute; reflexivity).
  split.
  - rewrite risk_level_HIGH.
    change (float_ge prob (float_lit 50 100)) with (float_le (float_lit 50 100) prob).
    rewrite (float_le_Q _ _ H50 Hb).
    assert (E : (F2Q (float_lit 50 100) == 1 # 2)%Q)
      by (apply Qeq_bool_iff; vm_compute; reflexivity).
    now rewrite E.
  - rewrite (risk_level_LOW prob Hn). apply (float_lt_Q _ _ Hb H30).
Qed.

(** C3. On every probability in [0,1] the three tier conditions are each
    equivalent to the tier being assigned, exactly one of them holds, and
    so they partition the interval: [prob >= 0.50] is HIGH,
    [0.30 <= prob < 0.50] is MODERATE, [prob < 0.30] is LOW; 0.5 is HIGH,
    0.3 and 0.4999 are MODERATE and 0.2999 is LOW. *)
Theorem risk_level_partition (prob : float) :
  probability prob ->
  let high := float_ge prob (float_lit 50 100) = true in
  let moderate := float_ge prob (float_lit 30 100) = true
                  /\ float_lt prob (float_lit 50 100) = true in
  let low := float_lt prob (float_lit 30 100) = true in
  (risk_level prob = HIGH <-> high)
  /\ (risk_level prob = MODERATE <-> moderate)
  /\ (risk_level prob = LOW <-> low)
  /\ (high \/ moderate \/ low)
  /\ ~ (high /\ moderate) /\ ~ (high /\ low) /\ ~ (moderate /\ low)
  /\ risk_level (float_lit 5 10) = HIGH
  /\ risk_level (float_lit 3 10) = MODERATE
  /\ risk_level (float_lit 4999 10000) = MODERATE
  /\ risk_level (float_lit 2999 10000) = LOW.
Proof.
  intros Hp high moderate low.
  pose proof (probability_not_nan prob Hp) as Hn.
  pose proof (risk_level_HIGH prob) as HH.
  pose proof (risk_level_MODERATE prob Hn) as HM.
  pose proof (risk_level_LOW prob Hn) as HL.
  fold high in HH. fold moderate in HM. fold low in HL.
  split; [exact HH|]. split; [exact HM|]. split; [exact HL|].
  split; [destruct (risk_level prob); tauto|].
  split; [intros [A B]; apply HH in A; apply HM in B; congruence|].
  split; [intros [A B]; apply HH in A; apply HL in B; congruence|].
  split; [intros [A B]; apply HM in A; apply HL in B; congruence|].
  repeat split; vm_compute; reflexivity.
Qed.

Lemma risk_level_partition_witness :
  probability (float_lit 4999 10000)
  /\ risk_level (float_lit 4999 10000) = MODERATE.
Proof.
  assert (H : probability (float_lit 4999 10000))
    by (split; vm_compute; reflexivity).
  split; [exact H|].
  apply (proj1 (proj2 (risk_level_partition _ H))).
  split; vm_compute; reflexivity.
Defined.

End RiskLevel.

(** ** The run-time's [upper] on ASCII *)

Lemma ascii_upper_not_lower (c : N) : ascii_lower (ascii_upper c) = false.
Proof.
  unfold ascii_upper. destruct (ascii_lower c) eqn:E; [|exact E].
  unfold ascii_lower in *.
  apply andb_true_iff in E as [E1 E2].
  apply N.leb_le in E1, E2.
  apply andb_false_iff. left. apply N.leb_gt. lia.
Qed.

Lemma upper_ascii_on_ascii : upper_on_ascii upper_ascii.
Proof. intros s _. reflexivity. Qed.

Lemma upper_ascii_has_no_lower : upper_has_no_lower upper_ascii.
Proof.
  intros s. unfold upper_ascii.
  induction s as [|c s IH]; simpl; [reflexivity|].
  now rewrite ascii_upper_not_lower, IH.
Qed.

(** ** The claims on feature preparation *)

Section FeaturePrepClaims.

Variable upper : str -> str.

Import DataFrame DataFrameFacts.

Lemma produced_columns_have_lower (c : str) :
  In c produced_columns -> existsb ascii_lower c = true.
Proof.
  assert (H : forallb (existsb ascii_lower) produced_columns = true) by reflexivity.
  rewrite forallb_forall in H. apply H.
Qed.

(** The diagnosis group can never name one of the assigned columns. *)
Lemma icd_group_not_produced (p : PatientProfile) (g c : str) :
  upper_has_no_lower upper ->
  icd_group upper p = inr g -> In c produced_columns -> str_eqb g c = false.
Proof.
  intros Hup Hg Hc. apply str_eqb_neq. intros ->.
  apply produced_columns_have_lower in Hc.
  unfold icd_group in Hg. destruct (diagnosis_code p) as [|c0 rest]; [discriminate|].
  injection Hg as <-. now rewrite Hup in Hc.
Qed.

(** An assigned column goes through alignment unchanged. *)
Lemma aligned_produced (p : PatientProfile) (cols : list str) (fv : t) (c : str) :
  upper_has_no_lower upper ->
  feature_prep upper p cols = inr fv ->
  In c produced_columns -> In c cols ->
  get c fv = get c (engineered p).
Proof.
  intros Hup Hfv Hc Hin.
  apply feature_prep_inv in Hfv as (g & Hg & ->).
  rewrite get_map. apply contains_In in Hin. rewrite Hin.
  unfold final_cell. rewrite (icd_group_not_produced p g c Hup Hg Hc).
  destruct (get_engineered_produced p c Hc) as [v ->]. reflexivity.
Qed.

(** When the group matches no schema column the one-hot step is a no-op. *)
Lemma feature_prep_unmatched_group (p : PatientProfile) (cols : list str) (g : str) :
  icd_group upper p = inr g -> contains g cols = false ->
  feature_prep upper p cols = getitem cols (fill_missing cols (engineered p)).
Proof.
  intros Hg Hc. unfold feature_prep, one_hot. rewrite Hg. simpl. now rewrite Hc.
Qed.

Lemma columns_aligned (p : PatientProfile) (g : str) (cols : list str) :
  columns (map (fun c => (c, final_cell p g c)) cols) = cols.
Proof. unfold columns. rewrite map_map. simpl. apply map_id. Qed.

(** With a diagnosis code to index, the block runs to its end. *)
Lemma feature_prep_produces (p : PatientProfile) (cols : list str) :
  diagnosis_code p <> [] ->
  exists fv, feature_prep upper p cols = inr fv /\ columns fv = cols.
Proof.
  intros Hd. destruct (icd_group_nonempty upper p Hd) as [g Hg].
  eexists. split; [apply (feature_prep_ok upper p cols g Hg) | apply columns_aligned].
Qed.

(** C1. Whenever the block produces a frame its columns are the schema's
    columns, in the schema's order, one cell per schema entry; it does
    produce one for every profile whose diagnosis code is not empty, and
    alignment itself never fails: the only exception the block can raise
    is the [IndexError] of an empty diagnosis code. *)
Theorem feature_vector_columns (p : PatientProfile) (cols : list str) :
  (forall fv, feature_prep upper p cols = inr fv ->
              columns fv = cols /\ length fv = length cols)
  /\ (diagnosis_code p <> [] ->
      exists fv, feature_prep upper p cols = inr fv /\ columns fv = cols)
  /\ (forall e, feature_prep upper p cols = inl e ->
                e = IndexError /\ diagnosis_code p = []).
Proof.
  split; [|split].
  - intros fv Hfv. apply feature_prep_inv in Hfv as (g & _ & ->).
    split; [apply columns_aligned | apply length_map].
  - apply feature_prep_produces.
  - intros e He. rewrite feature_prep_closed_form in He.
    unfold icd_group in He.
    destruct (diagnosis_code p) as [|c rest]; simpl in He; [|discriminate].
    injection He as <-. auto.
Qed.

(** C2 (the failing case). With an empty diagnosis code the first
    statement of the block raises [IndexError]: no frame is built. *)
Theorem feature_prep_empty_diagnosis_code (p : PatientProfile) (cols : list str) :
  diagnosis_code p = [] -> feature_prep upper p cols = inl IndexError.
Proof.
  intros H. unfold feature_prep, icd_group. now rewrite H.
Qed.

(** C4. [gender_M] is 1 exactly when the gender is "Male" and 0 otherwise,
    both when assigned and in the aligned frame. *)
Theorem gender_M_iff_Male (p : PatientProfile) (cols : list str) :
  upper_has_no_lower upper ->
  diagnosis_code p <> [] ->
  In (py "gender_M") cols ->
  exists fv z,
    feature_prep upper p cols = inr fv
    /\ get (py "gender_M") (engineered p) = Some (VInt z)
    /\ get (py "gender_M") fv = Some (VInt z)
    /\ (z = 1%Z <-> gender p = py "Male")
    /\ (gender p <> py "Male" -> z = 0%Z).
Proof.
  intros Hup Hd Hin.
  destruct (feature_prep_produces p cols Hd) as (fv & Hfv & _).
  exists fv, (if str_eqb (gender p) (py "Male") then 1%Z else 0%Z).
  split; [exact Hfv|]. split; [reflexivity|].
  split.
  { rewrite (aligned_produced p cols fv (py "gender_M") Hup Hfv); [reflexivity| |exact Hin].
    unfold produced_columns; simpl; tauto. }
  destruct (str_eqb (gender p) (py "Male")) eqn:E.
  - apply str_eqb_eq in E. split; [tauto | contradiction].
  - apply str_eqb_neq in E. split; [split; [discriminate | contradiction] | reflexivity].
Qed.

Lemma valid_product (a b : Z) :
  (1 <= a <= 60 -> 0 <= b <= 15 -> 0 <= a * b <= 900)%Z.
Proof.
  intros Ha Hb. split.
  - apply Z.mul_nonneg_nonneg; lia.
  - change 900%Z with (60 * 15)%Z. apply Z.mul_le_mono_nonneg; lia.
Qed.

(** C5. For a stay of 1 to 60 days and 0 to 15 comorbidities,
    [los_x_comorb] is the exact integer product, a number between 0 and
    900, both when assigned and in the aligned frame. *)
Theorem los_x_comorb_product (p : PatientProfile) (cols : list str) :
  upper_has_no_lower upper ->
  (1 <= los p <= 60)%Z -> (0 <= comorbidity_count p <= 15)%Z ->
  diagnosis_code p <> [] ->
  In (py "los_x_comorb") cols ->
  exists fv,
    feature_prep upper p cols = inr fv
    /\ get (py "los_x_comorb") (engineered p)
       = Some (VInt (los p * comorbidity_count p))
    /\ get (py "los_x_comorb") fv = Some (VInt (los p * comorbidity_count p))
    /\ (0 <= los p * comorbidity_count p <= 900)%Z.
Proof.
  intros Hup Hl Hc Hd Hin.
  destruct (feature_prep_produces p cols Hd) as (fv & Hfv & _).
  exists fv. split; [exact Hfv|]. split; [reflexivity|].
  split; [|now apply valid_product].
  rewrite (aligned_produced p cols fv (py "los_x_comorb") Hup Hfv); [reflexivity| |exact Hin].
  unfold produced_columns; simpl; tauto.
Qed.

(** C7. A schema column that is neither assigned by name nor the
    diagnosis group holds 0 in the aligned frame, at every position it
    occupies. *)
Theorem unassigned_column_is_zero (p : PatientProfile) (cols : list str) (c : str) :
  diagnosis_code p <> [] ->
  In c cols ->
  ~ In c produced_columns ->
  icd_group upper p <> inr c ->
  exists fv,
    feature_prep upper p cols = inr fv
    /\ get c fv = Some (VInt 0)
    /\ (forall v, In (c, v) fv -> v = VInt 0).
Proof.
  intros Hd Hin Hnp Hng.
  destruct (icd_group_nonempty upper p Hd) as [g Hg].
  assert (Hcell : final_cell p g c = VInt 0).
  { unfold final_cell.
    destruct (str_eqb g c) eqn:E.
    - apply str_eqb_eq in E. congruence.
    - now rewrite (get_engineered_other p c Hnp). }
  eexists. split; [apply (feature_prep_ok upper p cols g Hg)|].
  split.
  - rewrite get_map. apply contains_In in Hin. now rewrite Hin, Hcell.
  - intros v Hv. apply In_aligned in Hv as [_ ->]. exact Hcell.
Qed.

End FeaturePrepClaims.

(** ** The feature claims at the end-to-end scenario *)

Lemma feature_vector_columns_witness :
  diagnosis_code scenario <> []
  /\ exists fv, feature_prep upper_ascii scenario sample_columns = inr fv
                /\ DataFrame.columns fv = sample_columns.
Proof.
  assert (H : diagnosis_code scenario <> []) by discriminate.
  split; [exact H|].
  exact (proj1 (proj2 (feature_vector_columns upper_ascii scenario sample_columns)) H).
Defined.

Lemma feature_prep_empty_diagnosis_code_witness :
  diagnosis_code scenario_cleared = []
  /\ feature_prep upper_ascii scenario_cleared sample_columns = inl IndexError.
Proof.
  split; [reflexivity|].
  apply (feature_prep_empty_diagnosis_code upper_ascii scenario_cleared sample_columns).
  reflexivity.
Defined.

Lemma gender_M_iff_Male_witness :
  exists fv z,
    feature_prep upper_ascii scenario sample_columns = inr fv
    /\ DataFrame.get (py "gender_M") (engineered scenario) = Some (VInt z)
    /\ DataFrame.get (py "gender_M") fv = Some (VInt z)
    /\ (z = 1%Z <-> gender scenario = py "Male")
    /\ (gender scenario <> py "Male" -> z = 0%Z).
Proof.
  apply (gender_M_iff_Male upper_ascii scenario sample_columns).
  - exact upper_ascii_has_no_lower.
  - discriminate.
  - apply contains_In. reflexivity.
Defined.

Lemma los_x_comorb_product_witness :
  exists fv,
    feature_prep upper_ascii scenario sample_columns = inr fv
    /\ DataFrame.get (py "los_x_comorb") (engineered scenario) = Some (VInt (7 * 2))
    /\ DataFrame.get (py "los_x_comorb") fv = Some (VInt (7 * 2))
    /\ (0 <= 7 * 2 <= 900)%Z.
Proof.
  apply (los_x_comorb_product upper_ascii scenario sample_columns).
  - exact upper_ascii_has_no_lower.
  - simpl; lia.
  - simpl; lia.
  - discriminate.
  - apply contains_In. reflexivity.
Defined.

Lemma unassigned_column_is_zero_witness :
  exists fv,
    feature_prep upper_ascii scenario sample_columns = inr fv
    /\ DataFrame.get (py "insurance_private") fv = Some (VInt 0)
    /\ (forall v, In (py "insurance_private", v) fv -> v = VInt 0).
Proof.
  apply (unassigned_column_is_zero upper_ascii scenario sample_columns).
  - discriminate.
  - apply contains_In. reflexivity.
  - apply contains_not_In. reflexivity.
  - discriminate.
Defined.

(** ** The threshold flags *)

Section FlagClaims.

Variable upper : str -> str.

Import DataFrame DataFrameFacts FloatFacts.

Lemma is_flag_int_of_bool (b : bool) : is_flag (int_of_bool b) (b = true).
Proof. destruct b; unfold is_flag; simpl; intuition congruence. Qed.

Lemma is_flag_iff (z : Z) (P R : Prop) : (P <-> R) -> is_flag z P -> is_flag z R.
Proof. unfold is_flag. tauto. Qed.

Lemma float_gt_int (x : float) (n : Z) :
  In n [0; 1; 2; 10; 200; 250]%Z -> binary64 x ->
  float_gt x (float_of_int n) = true <-> (inject_Z n < F2Q x)%Q.
Proof.
  intros Hn Hx. destruct (float_of_int_exact n Hn) as [Hb Hq].
  change (float_gt x (float_of_int n)) with (float_lt (float_of_int n) x).
  rewrite (float_lt_Q _ _ Hb Hx). now rewrite Hq.
Qed.

Lemma float_lt_int (x : float) (n : Z) :
  In n [0; 1; 2; 10; 200; 250]%Z -> binary64 x ->
  float_lt x (float_of_int n) = true <-> (F2Q x < inject_Z n)%Q.
Proof.
  intros Hn Hx. destruct (float_of_int_exact n Hn) as [Hb Hq].
  rewrite (float_lt_Q _ _ Hx Hb). now rewrite Hq.
Qed.

(** C6. The four flags are 0/1 projections of fixed cutoffs: glucose above
    200 (strictly: 200 gives 0, 250 gives 1), creatinine above 2,
    hemoglobin below 10, and at least 15 medications; each is stated for
    the comparison the code performs and for the numbers compared, and
    the aligned frame carries the same cells. *)
Theorem threshold_flags (p : PatientProfile) (cols : list str) :
  upper_has_no_lower upper ->
  valid_labs p ->
  diagnosis_code p <> [] ->
  exists fv g c h m,
    feature_prep upper p cols = inr fv
    /\ get (py "glucose_flag") (engineered p) = Some (VInt g)
    /\ get (py "creatinine_flag") (engineered p) = Some (VInt c)
    /\ get (py "hb_flag") (engineered p) = Some (VInt h)
    /\ get (py "polypharmacy_flag") (engineered p) = Some (VInt m)
    /\ (forall f, In f flag_columns -> In f cols ->
                  get f fv = get f (engineered p))
    /\ is_flag g (float_gt (avg_glucose p) (float_of_int 200) = true)
    /\ is_flag c (float_gt (avg_creatinine p) (float_of_int 2) = true)
    /\ is_flag h (float_lt (avg_hemoglobin p) (float_of_int 10) = true)
    /\ is_flag g (200 < F2Q (avg_glucose p))%Q
    /\ is_flag c (2 < F2Q (avg_creatinine p))%Q
    /\ is_flag h (F2Q (avg_hemoglobin p) < 10)%Q
    /\ is_flag m (15 <= num_medications p)%Z
    /\ (avg_glucose p = float_of_int 200 -> g = 0%Z)
    /\ (avg_glucose p = float_of_int 250 -> g = 1%Z).
Proof.
  intros Hup (Hc & Hh & Hg) Hd.
  destruct (feature_prep_produces upper p cols Hd) as (fv & Hfv & _).
  exists fv; do 4 eexists.
  split; [exact Hfv|]. do 4 (split; [reflexivity|]).
  split.
  { intros f Hf Hin. apply (aligned_produced upper p cols fv f Hup Hfv); [|exact Hin].
    unfold flag_columns in Hf. unfold produced_columns. simpl in *. tauto. }
  do 3 (split; [apply is_flag_int_of_bool|]).
  split.
  { eapply is_flag_iff; [|apply is_flag_int_of_bool].
    apply (float_gt_int (avg_glucose p) 200); [simpl; tauto | exact Hg]. }
  split.
  { eapply is_flag_iff; [|apply is_flag_int_of_bool].
    apply (float_gt_int (avg_creatinine p) 2); [simpl; tauto | exact Hc]. }
  split.
  { eapply is_flag_iff; [|apply is_flag_int_of_bool].
    apply (float_lt_int (avg_hemoglobin p) 10); [simpl; tauto | exact Hh]. }
  split.
  { eapply is_flag_iff; [|apply is_flag_int_of_bool]. apply Z.leb_le. }
  split; intros ->; vm_compute; reflexivity.
Qed.

End FlagClaims.

Lemma threshold_flags_witness :
  exists fv g c h m,
    feature_prep upper_ascii scenario sample_columns = inr fv
    /\ DataFrame.get (py "glucose_flag") (engineered scenario) = Some (VInt g)
    /\ DataFrame.get (py "creatinine_flag") (engineered scenario) = Some (VInt c)
    /\ DataFrame.get (py "hb_flag") (engineered scenario) = Some (VInt h)
    /\ DataFrame.get (py "polypharmacy_flag") (engineered scenario) = Some (VInt m)
    /\ (forall f, In f flag_columns -> In f sample_columns ->
                  DataFrame.get f fv = DataFrame.get f (engineered scenario))
    /\ is_flag g (float_gt (avg_glucose scenario) (float_of_int 200) = true)
    /\ is_flag c (float_gt (avg_creatinine scenario) (float_of_int 2) = true)
    /\ is_flag h (float_lt (avg_hemoglobin scenario) (float_of_int 10) = true)
    /\ is_flag g (200 < F2Q (avg_glucose scenario))%Q
    /\ is_flag c (2 < F2Q (avg_creatinine scenario))%Q
    /\ is_flag h (F2Q (avg_hemoglobin scenario) < 10)%Q
    /\ is_flag m (15 <= num_medications scenario)%Z
    /\ (avg_glucose scenario = float_of_int 200 -> g = 0%Z)
    /\ (avg_glucose scenario = float_of_int 250 -> g = 1%Z).
Proof.
  apply (threshold_flags upper_ascii scenario sample_columns).
  - exact upper_ascii_has_no_lower.
  - repeat split; vm_compute; reflexivity.
  - discriminate.
Defined.

(** ** The end-to-end scenario *)

Section Scenario.

Variable upper : str -> str.

Import DataFrame DataFrameFacts.

Lemma icd_group_scenario :
  upper_on_ascii upper -> icd_group upper scenario = inr (py "I").
Proof.
  intros Hup. unfold icd_group, scenario; simpl.
  rewrite Hup by reflexivity. reflexivity.
Qed.

(** C9. For the default form with a male patient (65 years, I50.9, 7 days,
    2 previous admissions, 2 comorbidities, 10 medications, creatinine
    1.2, hemoglobin 12.0, glucose 110) all four flags are 0,
    [los_x_comorb] is 14 and [gender_M] is 1; the aligned frame carries
    these cells, and its "I" column is 1 wherever the schema has it. *)
Theorem scenario_features (cols : list str) :
  upper_on_ascii upper ->
  exists fv,
    feature_prep upper scenario cols = inr fv
    /\ columns fv = cols
    /\ get (py "glucose_flag") (engineered scenario) = Some (VInt 0)
    /\ get (py "creatinine_flag") (engineered scenario) = Some (VInt 0)
    /\ get (py "hb_flag") (engineered scenario) = Some (VInt 0)
    /\ get (py "polypharmacy_flag") (engineered scenario) = Some (VInt 0)
    /\ get (py "los_x_comorb") (engineered scenario) = Some (VInt 14)
    /\ get (py "gender_M") (engineered scenario) = Some (VInt 1)
    /\ (forall c, In c produced_columns -> In c cols ->
                  get c fv = get c (engineered scenario))
    /\ (In (py "I") cols ->
        get (py "I") fv = Some (VInt 1)
        /\ forall v, In (py "I", v) fv -> v = VInt 1).
Proof.
  intros Hup. pose proof (icd_group_scenario Hup) as Hg.
  exists (map (fun c => (c, final_cell scenario (py "I") c)) cols).
  split; [apply (feature_prep_ok upper scenario cols (py "I") Hg)|].
  split; [apply columns_aligned|].
  do 6 (split; [vm_compute; reflexivity|]).
  split.
  - intros c Hc Hin. rewrite get_map.
    apply contains_In in Hin. rewrite Hin. unfold final_cell.
    assert (Hne : forallb (fun k => negb (str_eqb (py "I") k)) produced_columns = true)
      by reflexivity.
    rewrite forallb_forall in Hne. specialize (Hne c Hc).
    apply negb_true_iff in Hne. rewrite Hne.
    destruct (get_engineered_produced scenario c Hc) as [v ->]. reflexivity.
  - intros Hin. split.
    + rewrite get_map. apply contains_In in Hin. now rewrite Hin.
    + intros v Hv. apply In_aligned in Hv as [_ ->]. reflexivity.
Qed.

End Scenario.

Lemma scenario_features_witness :
  exists fv,
    feature_prep upper_ascii scenario sample_columns = inr fv
    /\ DataFrame.get (py "I") fv = Some (VInt 1)
    /\ DataFrame.get (py "E") fv = Some (VInt 0).
Proof.
  destruct (scenario_features upper_ascii sample_columns upper_ascii_on_ascii)
    as (fv & Hfv & _ & _ & _ & _ & _ & _ & _ & _ & HI).
  exists fv. split; [exact Hfv|]. split.
  - apply HI. apply contains_In. reflexivity.
  - rewrite (feature_prep_ok upper_ascii scenario sample_columns (py "I")) in Hfv
      by reflexivity.
    injection Hfv as <-. reflexivity.
Defined.

(** ** Determinism of the two stages *)

(** Floats that compare equal are the same float, or two zeros. *)
Lemma SFeqb_same_class (a b : float) :
  SFeqb a b = true -> a = b \/ (exists s t, a = S754_zero s /\ b = S754_zero t).
Proof.
  unfold SFeqb, SFcompare.
  destruct a as [sa|sa| |sa ma ea], b as [sb|sb| |sb mb eb];
    try destruct sa; try destruct sb; try discriminate; eauto;
    destruct (Z.compare_spec ea eb) as [->|?|?]; try discriminate;
    destruct (Pos.compare_cont Eq ma mb) eqn:E; try discriminate;
    apply (Pos.compare_eq ma mb) in E; subst; auto.
Qed.

Lemma classify_zero (s t : bool) : classify (S754_zero s) = classify (S754_zero t).
Proof. reflexivity. Qed.

Module RunFacts.

Lemma bound_assign (n n' : string) (o : object) (r : run_state) :
  bound n (assign n' o r)
  = if str_eqb (py n) (py n') then Some o else bound n r.
Proof. reflexivity. Qed.

(** Decide the comparison of two names that are literals. *)
Ltac names :=
  repeat (rewrite bound_assign;
          match goal with
          | |- context [str_eqb (py ?a) (py ?b)] =>
              let v := eval vm_compute in (str_eqb (py a) (py b)) in
              change (str_eqb (py a) (py b)) with v; cbv beta iota
          end).

Lemma started_from_assign (p : PatientProfile) (cols : list str)
    (n : string) (o : object) (r : run_state) :
  assigned n -> started_from p cols r -> started_from p cols (assign n o r).
Proof.
  unfold assigned. simpl In. unfold started_from.
  intros Hn (H1 & H2 & H3 & H4 & H5 & H6 & H7 & H8 & H9 & H10 & H11).
  repeat (destruct Hn as [<-|Hn]; [repeat split; names; assumption|]).
  contradiction.
Qed.

Lemma prepared_frame p cols g df df' r0 r :
  prepared p cols g df r0 r ->
  prepared p cols g df' r0 (assign "input_data" (OFrame df') r).
Proof.
  intros (Hs & Hg & Hd & Hm & Hc).
  split; [|split; [|split; [|split]]].
  - apply started_from_assign; [unfold assigned; simpl; tauto|exact Hs].
  - names. exact Hg.
  - names. reflexivity.
  - names. exact Hm.
  - exact Hc.
Qed.

Lemma prepared_col p cols g df c r0 r :
  prepared p cols g df r0 r ->
  prepared p cols g df r0 (assign "col" (OStr c) r).
Proof.
  intros (Hs & Hg & Hd & Hm & Hc).
  split; [|split; [|split; [|split]]].
  - apply started_from_assign; [unfold assigned; simpl; tauto|exact Hs].
  - names. exact Hg.
  - names. exact Hd.
  - names. exact Hm.
  - exact Hc.
Qed.

Lemma get_int_bound n r z : bound n r = Some (OInt z) -> get_int n r = inr z.
Proof. intros H. unfold get_int, lookup. rewrite H. reflexivity. Qed.

Lemma get_float_bound n r x : bound n r = Some (OFloat x) -> get_float n r = inr x.
Proof. intros H. unfold get_float, lookup. rewrite H. reflexivity. Qed.

Lemma get_str_bound n r s : bound n r = Some (OStr s) -> get_str n r = inr s.
Proof. intros H. unfold get_str, lookup. rewrite H. reflexivity. Qed.

Lemma get_list_bound n r l : bound n r = Some (OList l) -> get_list n r = inr l.
Proof. intros H. unfold get_list, lookup. rewrite H. reflexivity. Qed.

Lemma get_frame_bound n r df : bound n r = Some (OFrame df) -> get_frame n r = inr df.
Proof. intros H. unfold get_frame, lookup. rewrite H. reflexivity. Qed.

Lemma get_model_bound n r m : bound n r = Some (OModel m) -> get_model n r = inr m.
Proof. intros H. unfold get_model, lookup. rewrite H. reflexivity. Qed.

Lemma started_columns p cols r :
  started_from p cols r -> bound "feature_columns" r = Some (OList cols).
Proof. intros (_ & _ & _ & _ & _ & _ & _ & _ & _ & _ & H). exact H. Qed.

Lemma started_code p cols r :
  started_from p cols r -> bound "diagnosis_code" r = Some (OStr (diagnosis_code p)).
Proof. intros (_ & _ & _ & _ & _ & _ & H & _). exact H. Qed.

Section Statements.

Variable upper : str -> str.
Variables (p : PatientProfile) (cols : list str).

Lemma stmt_icd_group_spec (r : run_state) :
  started_from p cols r ->
  stmt_icd_group upper r
  = match diagnosis_code p with
    | [] => inl (Raised IndexError)
    | c :: _ => inr (assign "icd_group" (OStr (upper [c])) r)
    end.
Proof.
  intros Hs. unfold stmt_icd_group.
  rewrite (get_str_bound _ _ _ (started_code _ _ _ Hs)).
  reflexivity.
Qed.

Lemma stmt_constructor_spec (r : run_state) :
  started_from p cols r ->
  stmt_constructor r = inr (assign "input_data" (OFrame (input_data p)) r).
Proof.
  intros (H1 & H2 & H3 & H4 & H5 & H6 & H7 & H8 & H9 & H10 & H11).
  unfold stmt_constructor.
  rewrite (get_int_bound _ _ _ H1), (get_int_bound _ _ _ H3),
    (get_int_bound _ _ _ H4), (get_int_bound _ _ _ H5),
    (get_float_bound _ _ _ H8), (get_float_bound _ _ _ H9),
    (get_float_bound _ _ _ H10), (get_int_bound _ _ _ H6),
    (get_str_bound _ _ _ H2).
  reflexivity.
Qed.

Lemma stmt_setitem_spec (c : str) (rhs : run_state -> outcome value)
    (v : value) (g : str) (df : DataFrame.t) (r0 r : run_state) :
  prepared p cols g df r0 r -> rhs r = inr v ->
  exists r', stmt_setitem c rhs r = inr r'
             /\ prepared p cols g (DataFrame.setitem c v df) r0 r'.
Proof.
  intros Hp Hv. unfold stmt_setitem. rewrite Hv. cbn [bind_outcome].
  rewrite (get_frame_bound _ _ _ (proj1 (proj2 (proj2 Hp)))). cbn [bind_outcome].
  eexists. split; [reflexivity|]. apply (prepared_frame _ _ _ df). exact Hp.
Qed.

Lemma rhs_spec (r : run_state) :
  started_from p cols r ->
  rhs_los_x_comorb r = inr (VInt (los p * comorbidity_count p))
  /\ rhs_glucose_flag r
     = inr (VInt (int_of_bool (float_gt (avg_glucose p) (float_of_int 200))))
  /\ rhs_creatinine_flag r
     = inr (VInt (int_of_bool (float_gt (avg_creatinine p) (float_of_int 2))))
  /\ rhs_hb_flag r
     = inr (VInt (int_of_bool (float_lt (avg_hemoglobin p) (float_of_int 10))))
  /\ rhs_polypharmacy_flag r
     = inr (VInt (int_of_bool (15 <=? num_medications p)%Z)).
Proof.
  intros (H1 & H2 & H3 & H4 & H5 & H6 & H7 & H8 & H9 & H10 & H11).
  unfold rhs_los_x_comorb, rhs_glucose_flag, rhs_creatinine_flag,
    rhs_hb_flag, rhs_polypharmacy_flag.
  rewrite (get_int_bound _ _ _ H3), (get_int_bound _ _ _ H5),
    (get_float_bound _ _ _ H10), (get_float_bound _ _ _ H8),
    (get_float_bound _ _ _ H9), (get_int_bound _ _ _ H6).
  repeat split.
Qed.

Lemma loop_body_spec (c g : str) (df : DataFrame.t) (r0 r : run_state) :
  prepared p cols g df r0 r ->
  exists r', loop_body c r = inr r'
             /\ prepared p cols g
                  (if contains c (DataFrame.columns df) then df
                   else DataFrame.setitem c (VInt 0) df) r0 r'.
Proof.
  intros Hp. apply (prepared_col _ _ _ _ c) in Hp.
  unfold loop_body. cbv zeta.
  assert (Hc : bound "col" (assign "col" (OStr c) r) = Some (OStr c))
    by (names; reflexivity).
  rewrite (get_str_bound _ _ _ Hc). cbn [bind_outcome].
  rewrite (get_frame_bound _ _ _ (proj1 (proj2 (proj2 Hp)))). cbn [bind_outcome].
  destruct (contains c (DataFrame.columns df)).
  - eexists. split; [reflexivity|exact Hp].
  - eexists. split; [reflexivity|]. apply (prepared_frame _ _ _ df). exact Hp.
Qed.

Lemma loop_spec (l : list str) (g : str) (df : DataFrame.t) (r0 r : run_state) :
  prepared p cols g df r0 r ->
  exists r', fold_left (fun acc c => bind_outcome acc (loop_body c)) l (inr r)
             = inr r'
             /\ prepared p cols g (fill_missing l df) r0 r'.
Proof.
  revert df r. induction l as [|c l IH]; intros df r Hp.
  - exists r. split; [reflexivity|exact Hp].
  - destruct (loop_body_spec c g df r0 r Hp) as (r1 & E1 & Hp1).
    cbn [fold_left bind_outcome]. rewrite E1.
    destruct (IH _ r1 Hp1) as (r' & E' & Hp').
    exists r'. split; [exact E'|]. exact Hp'.
Qed.

Lemma stmt_fill_missing_spec (g : str) (df : DataFrame.t) (r0 r : run_state) :
  prepared p cols g df r0 r ->
  exists r', stmt_fill_missing r = inr r'
             /\ prepared p cols g (fill_missing cols df) r0 r'.
Proof.
  intros Hp. unfold stmt_fill_missing.
  destruct Hp as (Hs & Hrest).
  rewrite (get_list_bound _ _ _ (started_columns _ _ _ Hs)).
  cbn [bind_outcome]. apply loop_spec. split; assumption.
Qed.

Lemma stmt_one_hot_spec (g : str) (df : DataFrame.t) (r0 r : run_state) :
  prepared p cols g df r0 r ->
  exists r', stmt_one_hot r = inr r'
             /\ prepared p cols g (one_hot g cols df) r0 r'.
Proof.
  intros Hp. pose proof Hp as (Hs & Hg & Hd & _).
  unfold stmt_one_hot, one_hot.
  rewrite (get_str_bound _ _ _ Hg). cbn [bind_outcome].
  rewrite (get_list_bound _ _ _ (started_columns _ _ _ Hs)).
  cbn [bind_outcome].
  destruct (contains g cols).
  - rewrite (get_frame_bound _ _ _ Hd). cbn [bind_outcome].
    eexists. split; [reflexivity|]. apply (prepared_frame _ _ _ df). exact Hp.
  - exists r. split; [reflexivity|exact Hp].
Qed.

Lemma stmt_align_spec (g : str) (df : DataFrame.t) (r0 r : run_state) :
  prepared p cols g df r0 r ->
  match DataFrame.getitem cols df with
  | inl e => stmt_align r = inl (Raised e)
  | inr fv => exists r', stmt_align r = inr r'
                         /\ prepared p cols g fv r0 r'
  end.
Proof.
  intros Hp. pose proof Hp as (Hs & Hg & Hd & _).
  unfold stmt_align.
  rewrite (get_frame_bound _ _ _ Hd). cbn [bind_outcome].
  rewrite (get_list_bound _ _ _ (started_columns _ _ _ Hs)).
  cbn [bind_outcome].
  destruct (DataFrame.getitem cols df) as [e|fv]; cbn [lift bind_outcome].
  - reflexivity.
  - eexists. split; [reflexivity|]. apply (prepared_frame _ _ _ df). exact Hp.
Qed.

(** The statements of the block, run on any namespace that binds the
    inputs, compute what [feature_prep] computes from the inputs. *)
Lemma run_feature_prep_spec (r : run_state) :
  started_from p cols r ->
  match feature_prep upper p cols with
  | inl e => run_feature_prep upper r = inl (Raised e)
  | inr fv => exists g r', run_feature_prep upper r = inr r'
                           /\ prepared p cols g fv r r'
  end.
Proof.
  intros Hs. unfold feature_prep, icd_group, run_feature_prep.
  rewrite (stmt_icd_group_spec r Hs).
  destruct (diagnosis_code p) as [|c rest]; [reflexivity|].
  cbn [bind bind_outcome ret].
  set (g := upper [c]).
  set (r1 := assign "icd_group" (OStr g) r).
  assert (Hs1 : started_from p cols r1)
    by (apply started_from_assign; [unfold assigned; simpl; tauto|exact Hs]).
  rewrite (stmt_constructor_spec r1 Hs1). cbn [bind_outcome].
  assert (Hp2 : prepared p cols g (input_data p) r
                  (assign "input_data" (OFrame (input_data p)) r1)).
  { split; [|split; [|split; [|split]]].
    - apply started_from_assign; [unfold assigned; simpl; tauto|exact Hs1].
    - unfold r1. names. reflexivity.
    - names. reflexivity.
    - unfold r1. names. reflexivity.
    - reflexivity. }
  set (r2 := assign "input_data" (OFrame (input_data p)) r1) in *.
  destruct (rhs_spec r2 (proj1 Hp2)) as (V1 & _).
  destruct (stmt_setitem_spec (py "los_x_comorb") _ _ g _ r r2 Hp2 V1)
    as (r3 & -> & Hp3). cbn [bind_outcome].
  destruct (rhs_spec r3 (proj1 Hp3)) as (_ & V2 & _).
  destruct (stmt_setitem_spec (py "glucose_flag") _ _ g _ r r3 Hp3 V2)
    as (r4 & -> & Hp4). cbn [bind_outcome].
  destruct (rhs_spec r4 (proj1 Hp4)) as (_ & _ & V3 & _).
  destruct (stmt_setitem_spec (py "creatinine_flag") _ _ g _ r r4 Hp4 V3)
    as (r5 & -> & Hp5). cbn [bind_outcome].
  destruct (rhs_spec r5 (proj1 Hp5)) as (_ & _ & _ & V4 & _).
  destruct (stmt_setitem_spec (py "hb_flag") _ _ g _ r r5 Hp5 V4)
    as (r6 & -> & Hp6). cbn [bind_outcome].
  destruct (rhs_spec r6 (proj1 Hp6)) as (_ & _ & _ & _ & V5).
  destruct (stmt_setitem_spec (py "polypharmacy_flag") _ _ g _ r r6 Hp6 V5)
    as (r7 & -> & Hp7). cbn [bind_outcome].
  fold (engineered p) in Hp7.
  destruct (stmt_fill_missing_spec g _ r r7 Hp7) as (r8 & -> & Hp8).
  cbn [bind_outcome].
  destruct (stmt_one_hot_spec g _ r r8 Hp8) as (r9 & -> & Hp9).
  cbn [bind_outcome].
  pose proof (stmt_align_spec g _ r r9 Hp9) as Ha.
  destruct (DataFrame.getitem cols
              (one_hot g cols (fill_missing cols (engineered p)))) as [e|fv].
  - exact Ha.
  - destruct Ha as (r' & -> & Hp'). exists g, r'. split; [reflexivity|exact Hp'].
Qed.

End Statements.

Lemma stmt_level_spec (x : float) (r : run_state) :
  bound "prob" r = Some (OFloat x) ->
  exists r', stmt_level r = inr r'
             /\ bound "level" r' = Some (OStr (level_name (risk_level x)))
             /\ bound "color" r' = Some (OStr (risk_color x))
             /\ bound "prob" r' = Some (OFloat x)
             /\ bound "input_data" r' = bound "input_data" r.
Proof.
  intros Hx. unfold stmt_level, risk_level, risk_color, classify.
  rewrite (get_float_bound _ _ _ Hx). cbn [bind_outcome].
  destruct (float_ge x (float_lit 50 100));
    [|destruct (float_ge x (float_lit 30 100))];
    (eexists; split; [reflexivity|]);
    (split; [names; reflexivity|]); (split; [names; reflexivity|]);
    (split; [names; exact Hx|names; reflexivity]).
Qed.

Lemma stmt_risk_percent_spec (x : float) (r : run_state) :
  bound "prob" r = Some (OFloat x) ->
  stmt_risk_percent r = inr (assign "risk_percent" (OFloat (risk_percent x)) r).
Proof.
  intros Hx. unfold stmt_risk_percent.
  rewrite (get_float_bound _ _ _ Hx). reflexivity.
Qed.

(** Once [prob] is bound, the rest of the block binds the level and the
    color that [classify] gives for it. *)
Lemma after_predict (x : float) (r : run_state) :
  bound "prob" r = Some (OFloat x) ->
  exists r', bind_outcome (stmt_risk_percent r) stmt_level = inr r'
             /\ bound "level" r' = Some (OStr (level_name (risk_level x)))
             /\ bound "color" r' = Some (OStr (risk_color x))
             /\ bound "prob" r' = Some (OFloat x)
             /\ bound "input_data" r' = bound "input_data" r.
Proof.
  intros Hx. rewrite (stmt_risk_percent_spec x r Hx). cbn [bind_outcome].
  assert (Hx' : bound "prob" (assign "risk_percent" (OFloat (risk_percent x)) r)
                = Some (OFloat x)) by (names; exact Hx).
  destruct (stmt_level_spec x _ Hx') as (r' & E & Hl & Hc & Hp & Hd).
  exists r'. split; [exact E|]. split; [exact Hl|]. split; [exact Hc|].
  split; [exact Hp|]. rewrite Hd. names. reflexivity.
Qed.

Lemma run_analyze_spec (m : DataFrame.t -> option float) (df : DataFrame.t)
    (r : run_state) :
  bound "model" r = Some (OModel m) ->
  bound "input_data" r = Some (OFrame df) ->
  match m df with
  | None => run_analyze r = inl ModelError
  | Some x =>
      exists r', run_analyze r = inr r'
                 /\ bound "level" r' = Some (OStr (level_name (risk_level x)))
                 /\ bound "color" r' = Some (OStr (risk_color x))
                 /\ bound "prob" r' = Some (OFloat x)
                 /\ bound "input_data" r' = Some (OFrame df)
  end.
Proof.
  intros Hm Hd. unfold run_analyze, stmt_predict.
  rewrite (get_model_bound _ _ _ Hm). cbn [bind_outcome].
  rewrite (get_frame_bound _ _ _ Hd). cbn [bind_outcome].
  destruct (m df) as [x|]; [|reflexivity]. cbn [bind_outcome].
  assert (Hx : bound "prob" (assign "prob" (OFloat x) r) = Some (OFloat x))
    by (names; reflexivity).
  destruct (after_predict x _ Hx) as (r' & E & Hl & Hc & Hp & Hd').
  exists r'. split; [exact E|]. split; [exact Hl|]. split; [exact Hc|].
  split; [exact Hp|]. rewrite Hd'. names. exact Hd.
Qed.

(** Numerically equal probabilities are classified alike. *)
Lemma classify_numeric (x1 x2 : float) :
  x1 = x2 \/ SFeqb x1 x2 = true -> classify x1 = classify x2.
Proof.
  intros [->|H]; [reflexivity|].
  apply SFeqb_same_class in H as [->|(s & t & -> & ->)];
    [reflexivity|apply classify_zero].
Qed.

Lemma started_from_bind_inputs p cols m r :
  started_from p cols (bind_inputs p cols m r).
Proof. unfold started_from, bind_inputs. repeat split; names; reflexivity. Qed.

End RunFacts.

Section Determinism.

Variable upper : str -> str.

Import RunFacts.

(** C10. Two runs whose widgets returned the same values and that loaded
    the same schema build the same frame, or fail alike, whatever else
    their namespaces hold and whatever their clocks read; two runs in
    which the model returned the same probability bind the same level
    and color; and with the same model as well, the two runs agree on the
    frame, the probability, the level and the color. *)
Theorem stages_deterministic (p : PatientProfile) (cols : list str)
    (r1 r2 : run_state) :
  started_from p cols r1 -> started_from p cols r2 ->
  match run_feature_prep upper r1, run_feature_prep upper r2 with
  | inr u1, inr u2 =>
      exists fv, feature_prep upper p cols = inr fv
                 /\ bound "input_data" u1 = Some (OFrame fv)
                 /\ bound "input_data" u2 = Some (OFrame fv)
  | inl f1, inl f2 =>
      exists e, feature_prep upper p cols = inl e /\ f1 = Raised e /\ f2 = Raised e
  | _, _ => False
  end
  /\ (forall s1 s2 t1 t2 x1 x2,
         stmt_predict s1 = inr t1 -> stmt_predict s2 = inr t2 ->
         bound "prob" t1 = Some (OFloat x1) ->
         bound "prob" t2 = Some (OFloat x2) ->
         x1 = x2 \/ SFeqb x1 x2 = true ->
         exists u1 u2,
           run_analyze s1 = inr u1 /\ run_analyze s2 = inr u2
           /\ bound "level" u1 = Some (OStr (level_name (risk_level x1)))
           /\ bound "level" u2 = bound "level" u1
           /\ bound "color" u1 = Some (OStr (risk_color x1))
           /\ bound "color" u2 = bound "color" u1)
  /\ (forall m,
         bound "model" r1 = Some (OModel m) ->
         bound "model" r2 = Some (OModel m) ->
         match run_script upper r1, run_script upper r2 with
         | inr u1, inr u2 =>
             bound "input_data" u2 = bound "input_data" u1
             /\ bound "prob" u2 = bound "prob" u1
             /\ bound "level" u2 = bound "level" u1
             /\ bound "color" u2 = bound "color" u1
         | inl f1, inl f2 => f1 = f2
         | _, _ => False
         end).
Proof.
  intros H1 H2.
  pose proof (run_feature_prep_spec upper p cols r1 H1) as S1.
  pose proof (run_feature_prep_spec upper p cols r2 H2) as S2.
  split; [|split].
  - destruct (feature_prep upper p cols) as [e|fv].
    + rewrite S1, S2. exists e. auto.
    + destruct S1 as (g1 & u1 & -> & _ & _ & D1 & _).
      destruct S2 as (g2 & u2 & -> & _ & _ & D2 & _).
      exists fv. auto.
  - intros s1 s2 t1 t2 x1 x2 E1 E2 P1 P2 Hx.
    destruct (after_predict x1 t1 P1) as (u1 & A1 & L1 & C1 & _).
    destruct (after_predict x2 t2 P2) as (u2 & A2 & L2 & C2 & _).
    exists u1, u2. unfold run_analyze. rewrite E1, E2. cbn [bind_outcome].
    split; [exact A1|]. split; [exact A2|].
    split; [exact L1|]. split.
    + rewrite L1, L2. unfold risk_level.
      now rewrite (classify_numeric x1 x2 Hx).
    + split; [exact C1|]. rewrite C1, C2. unfold risk_color.
      now rewrite (classify_numeric x1 x2 Hx).
  - intros m M1 M2. unfold run_script.
    destruct (feature_prep upper p cols) as [e|fv].
    + rewrite S1, S2. reflexivity.
    + destruct S1 as (g1 & u1 & -> & _ & _ & D1 & Hm1 & _).
      destruct S2 as (g2 & u2 & -> & _ & _ & D2 & Hm2 & _).
      cbn [bind_outcome].
      rewrite M1 in Hm1. rewrite M2 in Hm2.
      pose proof (run_analyze_spec m fv u1 Hm1 D1) as A1.
      pose proof (run_analyze_spec m fv u2 Hm2 D2) as A2.
      destruct (m fv) as [x|].
      * destruct A1 as (v1 & -> & L1 & C1 & P1 & F1).
        destruct A2 as (v2 & -> & L2 & C2 & P2 & F2).
        rewrite L1, L2, C1, C2, P1, P2, F1, F2. auto.
      * rewrite A1, A2. reflexivity.
Qed.

End Determinism.

Lemma stages_deterministic_witness :
  match run_script upper_ascii (sample_run sample_time (float_lit 42 100)),
        run_script upper_ascii (stale_run sample_time_later (float_lit 42 100))
  with
  | inr u1, inr u2 =>
      bound "input_data" u2 = bound "input_data" u1
      /\ bound "prob" u2 = bound "prob" u1
      /\ bound "level" u2 = bound "level" u1
      /\ bound "color" u2 = bound "color" u1
  | inl f1, inl f2 => f1 = f2
  | _, _ => False
  end.
Proof.
  destruct (stages_deterministic upper_ascii scenario sample_columns
              (sample_run sample_time (float_lit 42 100))
              (stale_run sample_time_later (float_lit 42 100)))
    as (_ & _ & H).
  - repeat split; reflexivity.
  - repeat split; reflexivity.
  - apply (H (fun _ => Some (float_lit 42 100))); reflexivity.
Defined.

(** The identifier, by contrast, does read the clock: the same namespace
    at two instants gives two identifiers. *)
Example report_id_reads_clock :
  match eval_report_id upper_ascii (sample_run sample_time (float_lit 42 100)),
        eval_report_id upper_ascii (sample_run sample_time_later (float_lit 42 100))
  with
  | inr (id1, _), inr (id2, _) => str_eqb id1 id2 = false
  | _, _ => False
  end.
Proof. vm_compute. reflexivity. Qed.

(** ** Decimal text *)

Module TextFacts.

Ltac to_prop :=
  repeat match goal with
         | H : _ && _ = true |- _ => apply andb_true_iff in H as [? ?]
         | H : (_ <=? _)%N = true |- _ => apply N.leb_le in H
         | H : (_ <? _)%N = true |- _ => apply N.ltb_lt in H
         | H : (_ <=? _)%N = false |- _ => apply N.leb_gt in H
         | H : (_ <? _)%N = false |- _ => apply N.ltb_ge in H
         end.

Lemma str_of_uint_digits (d : Decimal.uint) :
  forallb is_digit (str_of_uint d) = true.
Proof. induction d; simpl; auto. Qed.

Lemma str_of_uint_inj (d d' : Decimal.uint) :
  str_of_uint d = str_of_uint d' -> d = d'.
Proof.
  revert d'. induction d; intros [] H; simpl in H;
    try discriminate; try reflexivity;
    injection H as H; f_equal; auto.
Qed.

Lemma str_of_uint_zeros (k : nat) (d : Decimal.uint) :
  str_of_uint (zeros k d) = repeat 48%N k ++ str_of_uint d.
Proof. induction k; simpl; congruence. Qed.

Lemma of_uint_zeros (k : nat) (d : Decimal.uint) :
  N.of_uint (zeros k d) = N.of_uint d.
Proof. induction k; simpl; auto. Qed.

Lemma zero_padded_zeros (w : nat) (n : N) :
  exists k, zero_padded w n = str_of_uint (zeros k (N.to_uint n)).
Proof. eexists. unfold zero_padded. now rewrite str_of_uint_zeros. Qed.

Lemma zero_padded_digits (w : nat) (n : N) :
  forallb is_digit (zero_padded w n) = true.
Proof.
  destruct (zero_padded_zeros w n) as [k ->]. apply str_of_uint_digits.
Qed.

(** Zero-filling loses nothing: the number can be read back. *)
Lemma zero_padded_inj (w w' : nat) (n n' : N) :
  zero_padded w n = zero_padded w' n' -> n = n'.
Proof.
  destruct (zero_padded_zeros w n) as [k ->].
  destruct (zero_padded_zeros w' n') as [k' ->].
  intros H. apply str_of_uint_inj in H.
  apply (f_equal N.of_uint) in H.
  now rewrite !of_uint_zeros, !DecimalN.Unsigned.of_to in H.
Qed.

Lemma str_of_int_inj (z z' : Z) : str_of_int z = str_of_int z' -> z = z'.
Proof.
  unfold str_of_int. intros H.
  rewrite <- (DecimalZ.of_to z), <- (DecimalZ.of_to z').
  destruct (Z.to_int z) as [d|d], (Z.to_int z') as [d'|d'].
  - apply str_of_uint_inj in H. now subst.
  - pose proof (str_of_uint_digits d) as Hd. rewrite H in Hd. discriminate.
  - pose proof (str_of_uint_digits d') as Hd. rewrite <- H in Hd. discriminate.
  - injection H as H. apply str_of_uint_inj in H. now subst.
Qed.

(** A run of digits followed by something that is not a digit can be cut
    in one way only. *)
Lemma digit_run_unique (a a' t t' : str) :
  forallb is_digit a = true -> forallb is_digit a' = true ->
  no_digit_head t -> no_digit_head t' ->
  a ++ t = a' ++ t' -> a = a' /\ t = t'.
Proof.
  revert a'. induction a as [|c a IH]; intros [|c' a'] Ha Ha' Ht Ht' H; simpl in *.
  - auto.
  - subst t. apply andb_true_iff in Ha' as [Hc _]. simpl in Ht. congruence.
  - subst t'. apply andb_true_iff in Ha as [Hc _]. simpl in Ht'. congruence.
  - injection H as -> H.
    apply andb_true_iff in Ha as [_ Ha]. apply andb_true_iff in Ha' as [_ Ha'].
    destruct (IH a' Ha Ha' Ht Ht' H) as [-> ->]. auto.
Qed.

Lemma field_unique (w w' : nat) (n n' sep : N) (t t' : str) :
  is_digit sep = false ->
  zero_padded w n ++ sep :: t = zero_padded w' n' ++ sep :: t' ->
  n = n' /\ t = t'.
Proof.
  intros Hs H.
  apply digit_run_unique in H as [H1 H2];
    try apply zero_padded_digits; try exact Hs.
  split; [exact (zero_padded_inj _ _ _ _ H1) | congruence].
Qed.

(** The text of an instant can be cut off a hyphen that follows it in one
    way only: every field is a run of digits closed by a separator. *)
Lemma str_of_datetime_unique (t t' : datetime) (r r' : str) :
  str_of_datetime t ++ 45%N :: r = str_of_datetime t' ++ 45%N :: r' ->
  t = t' /\ r = r'.
Proof.
  destruct t as [y mo d h mi s us], t' as [y' mo' d' h' mi' s' us'].
  unfold str_of_datetime; simpl year; simpl month; simpl day; simpl hour;
    simpl minute; simpl second; simpl microsecond.
  change (py "-") with [45%N]; change (py " ") with [32%N];
    change (py ":") with [58%N]; change (py ".") with [46%N].
  rewrite <- !app_assoc. simpl app. intros H.
  apply field_unique in H as [-> H]; [|reflexivity].
  apply field_unique in H as [-> H]; [|reflexivity].
  apply field_unique in H as [-> H]; [|reflexivity].
  apply field_unique in H as [-> H]; [|reflexivity].
  apply field_unique in H as [-> H]; [|reflexivity].
  apply digit_run_unique in H as [Hs Hu]; try apply zero_padded_digits.
  - apply zero_padded_inj in Hs as ->.
    destruct (us =? 0)%N eqn:E, (us' =? 0)%N eqn:E'; simpl in Hu;
      try discriminate.
    + apply N.eqb_eq in E, E'. split; [now subst | congruence].
    + injection Hu as Hu. apply field_unique in Hu as [-> ->]; [|reflexivity].
      auto.
  - destruct (us =? 0)%N; reflexivity.
  - destruct (us' =? 0)%N; reflexivity.
Qed.

Lemma str_of_datetime_inj (t t' : datetime) :
  str_of_datetime t = str_of_datetime t' -> t = t'.
Proof.
  intros H. apply (str_of_datetime_unique t t' [] []). now rewrite H.
Qed.

Lemma to_int_digits (z : Z) (d : Decimal.uint) :
  Z.to_int z = Decimal.Pos d -> exists c r, str_of_uint d = c :: r /\ is_digit c = true.
Proof.
  intros H.
  assert (Hn : d <> Decimal.Nil).
  { destruct z; simpl in H; try discriminate; injection H as <-;
      [discriminate | apply Unsigned.to_uint_nonnil]. }
  destruct d; try contradiction; simpl; eauto.
Qed.

(** The same for the decimal text of an [int]. *)
Lemma str_of_int_unique (a a' : Z) (r r' : str) :
  str_of_int a ++ 45%N :: r = str_of_int a' ++ 45%N :: r' ->
  a = a' /\ r = r'.
Proof.
  unfold str_of_int. intros H.
  rewrite <- (DecimalZ.of_to a), <- (DecimalZ.of_to a').
  destruct (Z.to_int a) as [d|d] eqn:Ea, (Z.to_int a') as [d'|d'] eqn:Ea'.
  - apply digit_run_unique in H as [H1 H2];
      try apply str_of_uint_digits; try reflexivity.
    apply str_of_uint_inj in H1. subst. split; congruence.
  - destruct (to_int_digits a d Ea) as (c & t & Hc & Hd).
    rewrite Hc in H. injection H as -> _. discriminate.
  - destruct (to_int_digits a' d' Ea') as (c & t & Hc & Hd).
    rewrite Hc in H. injection H as <- _. discriminate.
  - injection H as H.
    apply digit_run_unique in H as [H1 H2];
      try apply str_of_uint_digits; try reflexivity.
    apply str_of_uint_inj in H1. subst. split; congruence.
Qed.

(** The hashed text determines the triple. *)
Lemma report_text_inj (t t' : datetime) (a a' : Z) (d d' : str) :
  report_text t a d = report_text t' a' d' -> t = t' /\ a = a' /\ d = d'.
Proof.
  unfold report_text. change (py "-") with [45%N]. simpl app. intros H.
  apply str_of_datetime_unique in H as [-> H].
  apply str_of_int_unique in H as [-> ->]. auto.
Qed.

End TextFacts.

(** ** Encoding and hashing *)

Module HashFacts.

Import TextFacts.
Local Open Scope N_scope.

Lemma forallb_impl {A} (p q : A -> bool) (l : list A) :
  (forall x, p x = true -> q x = true) ->
  forallb p l = true -> forallb q l = true.
Proof.
  intros Hpq. induction l as [|x l IH]; simpl; [reflexivity|].
  intros H. apply andb_true_iff in H as [Hx Hl].
  now rewrite (Hpq x Hx), IH.
Qed.

Lemma digit_is_scalar (c : N) : is_digit c = true -> scalar_value c = true.
Proof.
  unfold is_digit, scalar_value. intros H. to_prop.
  apply orb_true_iff. left. apply N.ltb_lt. lia.
Qed.

Lemma encode_char_total (c : N) :
  scalar_value c = true -> exists bs, encode_char c = inr bs.
Proof.
  unfold scalar_value, encode_char. intros H.
  destruct (c <? 128) eqn:E1; [now eexists|].
  destruct (c <? 2048) eqn:E2; [now eexists|].
  destruct (c <? 65536) eqn:E3.
  - destruct ((55296 <=? c) && (c <=? 57343)) eqn:E4; [|now eexists].
    apply orb_true_iff in H as [H|H]; to_prop; lia.
  - destruct (c <? 1114112) eqn:E4; [now eexists|].
    apply orb_true_iff in H as [H|H]; to_prop; lia.
Qed.

Lemma encode_total (s : str) :
  forallb scalar_value s = true -> exists bs, encode s = inr bs.
Proof.
  induction s as [|c s IH]; simpl; [now eexists|].
  intros H. apply andb_true_iff in H as [Hc Hs].
  destruct (encode_char_total c Hc) as [hd ->].
  destruct (IH Hs) as [tl ->]. simpl. now eexists.
Qed.

Lemma report_text_scalar (t : datetime) (a : Z) (d : str) :
  forallb scalar_value d = true ->
  forallb scalar_value (report_text t a d) = true.
Proof.
  intros Hd.
  assert (Hz : forall w n, forallb scalar_value (zero_padded w n) = true).
  { intros w n. apply (forallb_impl is_digit); [apply digit_is_scalar|].
    apply zero_padded_digits. }
  assert (Hu : forall u, forallb scalar_value (str_of_uint u) = true).
  { intros u. apply (forallb_impl is_digit); [apply digit_is_scalar|].
    apply str_of_uint_digits. }
  unfold report_text, str_of_datetime, str_of_int.
  repeat rewrite forallb_app. rewrite !Hz, Hd.
  destruct (Z.to_int a); simpl; rewrite Hu;
    destruct (microsecond t =? 0); simpl; rewrite ?Hz; reflexivity.
Qed.

(** Setting bits below a multiple of [2^k] is adding. *)
Lemma lor_add (a x k : N) : x < 2 ^ k -> N.lor (a * 2 ^ k) x = a * 2 ^ k + x.
Proof.
  intros Hx.
  assert (H0 : N.land (a * 2 ^ k) x = 0).
  { apply N.bits_inj. intros n. rewrite N.land_spec, N.bits_0.
    destruct (N.lt_ge_cases n k) as [Hn|Hn].
    - now rewrite N.mul_pow2_bits_low.
    - destruct (N.eq_0_gt_0_cases x) as [->|Hpos].
      + now rewrite N.bits_0, andb_false_r.
      + rewrite (N.bits_above_log2 x n), andb_false_r; [reflexivity|].
        apply N.log2_lt_pow2 in Hx; [lia | exact Hpos]. }
  now rewrite N.add_nocarry_lxor, N.lxor_lor.
Qed.

Lemma cons_inj {A} (a b : A) (l l' : list A) :
  a :: l = b :: l' -> a = b /\ l = l'.
Proof. intros H. injection H. auto. Qed.

Ltac divmod x k :=
  pose proof (N.div_mod x k ltac:(discriminate));
  pose proof (N.mod_lt x k ltac:(discriminate)).

(** The octets of one code point, in arithmetic form. *)
Lemma encode_char_arith (c : N) (h : list N) :
  encode_char c = inr h ->
  (c < 128 /\ h = [c])
  \/ (128 <= c < 2048 /\ h = [192 + c / 64; 128 + c mod 64])
  \/ (2048 <= c < 65536
      /\ h = [224 + c / 4096; 128 + (c / 64) mod 64; 128 + c mod 64])
  \/ (65536 <= c < 1114112
      /\ h = [240 + c / 262144; 128 + (c / 4096) mod 64;
              128 + (c / 64) mod 64; 128 + c mod 64]).
Proof.
  unfold encode_char.
  assert (Hlow : forall x, N.lor 128 (N.land x 63) = 128 + x mod 64).
  { intros x. change 63 with (N.ones 6). rewrite N.land_ones.
    apply (lor_add 2 (x mod 2 ^ 6) 6). apply N.mod_lt. discriminate. }
  rewrite !Hlow, !N.shiftr_div_pow2.
  change (2 ^ 6) with 64; change (2 ^ 12) with 4096; change (2 ^ 18) with 262144.
  destruct (c <? 128) eqn:E1; to_prop.
  { intros H; injection H as <-. auto. }
  destruct (c <? 2048) eqn:E2; to_prop.
  { intros H; injection H as <-. right; left. split; [lia|].
    f_equal. apply (lor_add 3 (c / 64) 6).
    apply N.Div0.div_lt_upper_bound. simpl. lia. }
  destruct (c <? 65536) eqn:E3; to_prop.
  { destruct ((55296 <=? c) && (c <=? 57343)); [discriminate|].
    intros H; injection H as <-. right; right; left. split; [lia|].
    f_equal. apply (lor_add 14 (c / 4096) 4).
    apply N.Div0.div_lt_upper_bound. simpl. lia. }
  destruct (c <? 1114112) eqn:E4; to_prop; [|discriminate].
  intros H; injection H as <-. right; right; right. split; [lia|].
  f_equal. apply (lor_add 30 (c / 262144) 3).
  apply N.Div0.div_lt_upper_bound. simpl. lia.
Qed.

(** UTF-8 is a prefix code: the octets of a code point can be cut off
    what follows them in one way only. *)
Lemma encode_char_unique (c c' : N) (h h' t t' : list N) :
  encode_char c = inr h -> encode_char c' = inr h' ->
  h ++ t = h' ++ t' -> c = c' /\ t = t'.
Proof.
  intros Hc Hc' H.
  apply encode_char_arith in Hc, Hc'.
  divmod c 64; divmod (c / 64) 64; divmod (c / 4096) 64.
  divmod c' 64; divmod (c' / 64) 64; divmod (c' / 4096) 64.
  assert (D1 : c / 64 / 64 = c / 4096) by (now rewrite N.Div0.div_div).
  assert (D2 : c / 4096 / 64 = c / 262144) by (now rewrite N.Div0.div_div).
  assert (D1' : c' / 64 / 64 = c' / 4096) by (now rewrite N.Div0.div_div).
  assert (D2' : c' / 4096 / 64 = c' / 262144) by (now rewrite N.Div0.div_div).
  rewrite D1 in *. rewrite D2 in *. rewrite D1' in *. rewrite D2' in *.
  destruct Hc as [[R ->]|[[R ->]|[[R ->]|[R ->]]]];
    destruct Hc' as [[R' ->]|[[R' ->]|[[R' ->]|[R' ->]]]];
    cbn [app] in H;
    repeat match type of H with
           | _ :: _ = _ :: _ => apply cons_inj in H as [? H]
           end;
    split; first [ lia | congruence | exfalso; lia ].
Qed.

Lemma encode_char_nonempty (c : N) (h : list N) : encode_char c = inr h -> h <> [].
Proof.
  intros H. apply encode_char_arith in H.
  destruct H as [[_ ->]|[[_ ->]|[[_ ->]|[_ ->]]]]; discriminate.
Qed.

(** Distinct strings have distinct encodings. *)
Lemma encode_inj (s s' : str) (bs : list N) :
  encode s = inr bs -> encode s' = inr bs -> s = s'.
Proof.
  revert s' bs. induction s as [|c s IH]; intros [|c' s'] bs; cbn [encode].
  - reflexivity.
  - intros H H'. injection H as <-.
    destruct (encode_char c') as [e|h'] eqn:Ec'; [discriminate|].
    destruct (encode s') as [e|tl']; cbn [bind ret] in H'; [discriminate|].
    injection H' as H'. apply app_eq_nil in H' as [-> _].
    now apply encode_char_nonempty in Ec'.
  - intros H H'. injection H' as <-.
    destruct (encode_char c) as [e|h] eqn:Ec; [discriminate|].
    destruct (encode s) as [e|tl]; cbn [bind ret] in H; [discriminate|].
    injection H as H. apply app_eq_nil in H as [-> _].
    now apply encode_char_nonempty in Ec.
  - intros H H'.
    destruct (encode_char c) as [e|h] eqn:Ec; [discriminate|].
    destruct (encode s) as [e|tl] eqn:Es; cbn [bind ret] in H; [discriminate|].
    destruct (encode_char c') as [e|h'] eqn:Ec'; [discriminate|].
    destruct (encode s') as [e|tl'] eqn:Es'; cbn [bind ret] in H'; [discriminate|].
    injection H as <-. injection H' as H'.
    destruct (encode_char_unique c' c h' h tl' tl Ec' Ec H') as [-> ->].
    f_equal. now apply (IH s' tl).
Qed.

(** Octets of the digest. *)
Lemma be_bytes_octets (n : nat) (x : N) :
  length (Sha256.be_bytes n x) = n
  /\ forallb (fun b => b <? 256) (Sha256.be_bytes n x) = true.
Proof.
  induction n as [|n [IHl IHb]]; simpl; [auto|].
  split; [now rewrite IHl|]. rewrite IHb, andb_true_r.
  apply N.ltb_lt. change 255 with (N.ones 8). rewrite N.land_ones.
  apply N.mod_lt. discriminate.
Qed.

Lemma words_octets (ws : list N) :
  length (flat_map (Sha256.be_bytes 4) ws) = (4 * length ws)%nat
  /\ forallb (fun b => b <? 256) (flat_map (Sha256.be_bytes 4) ws) = true.
Proof.
  induction ws as [|x ws [IHl IHb]]; [split; reflexivity|].
  destruct (be_bytes_octets 4 x) as [Hl Hb].
  change (flat_map (Sha256.be_bytes 4) (x :: ws))
    with (Sha256.be_bytes 4 x ++ flat_map (Sha256.be_bytes 4) ws).
  rewrite length_app, forallb_app, Hl, Hb, IHl, IHb.
  split; [simpl; lia | reflexivity].
Qed.

Lemma digest_octets (msg : list N) :
  length (Sha256.digest msg) = 32%nat
  /\ forallb (fun b => b <? 256) (Sha256.digest msg) = true.
Proof.
  unfold Sha256.digest.
  generalize (fold_left Sha256.compress (Sha256.blocks (Sha256.pad msg)) Sha256.H0).
  intros s. destruct (words_octets (Sha256.words s)) as [Hl Hb].
  split; [rewrite Hl; reflexivity | exact Hb].
Qed.

Lemma hex_digit_lower_hex (d : N) :
  d < 16 -> lower_hex (Sha256.hex_digit d) = true.
Proof.
  intros H. unfold lower_hex, is_digit, Sha256.hex_digit.
  destruct (d <? 10) eqn:E; to_prop.
  - apply orb_true_iff; left. apply andb_true_iff; split; apply N.leb_le; lia.
  - apply orb_true_iff; right. apply andb_true_iff; split; apply N.leb_le; lia.
Qed.

(** [hexdigest()] is 64 lower-case hexadecimal digits. *)
Lemma hexdigest_shape (msg : list N) :
  length (Sha256.hexdigest msg) = 64%nat
  /\ forallb lower_hex (Sha256.hexdigest msg) = true.
Proof.
  unfold Sha256.hexdigest.
  destruct (digest_octets msg) as [Hl Hb].
  revert Hl Hb. generalize (Sha256.digest msg) as bs.
  assert (H : forall bs : list N,
             forallb (fun b => b <? 256) bs = true ->
             length (flat_map (fun b => [Sha256.hex_digit (N.shiftr b 4);
                                         Sha256.hex_digit (N.land b 15)]) bs)
             = (2 * length bs)%nat
             /\ forallb lower_hex
                  (flat_map (fun b => [Sha256.hex_digit (N.shiftr b 4);
                                       Sha256.hex_digit (N.land b 15)]) bs) = true).
  { induction bs as [|b bs IH]; cbn [flat_map app length forallb]; [auto|].
    intros Hb. apply andb_true_iff in Hb as [Hb Hbs]. apply N.ltb_lt in Hb.
    destruct (IH Hbs) as [IHl IHf]. split; [rewrite IHl; lia|].
    rewrite IHf, andb_true_r. apply andb_true_iff. split.
    - apply hex_digit_lower_hex. rewrite N.shiftr_div_pow2.
      apply N.Div0.div_lt_upper_bound. exact Hb.
    - apply hex_digit_lower_hex. change 15 with (N.ones 4).
      rewrite N.land_ones. apply N.mod_lt. discriminate. }
  intros bs Hl Hb. destruct (H bs Hb) as [H1 H2]. rewrite H1, Hl. auto.
Qed.

Lemma lower_hex_ascii (c : N) : lower_hex c = true -> is_ascii c = true.
Proof.
  unfold lower_hex, is_digit, is_ascii. intros H.
  apply N.ltb_lt. apply orb_true_iff in H as [H|H]; to_prop; lia.
Qed.

Lemma lower_hex_upper (c : N) : lower_hex c = true -> upper_hex (ascii_upper c) = true.
Proof.
  unfold lower_hex, is_digit, upper_hex, ascii_upper, ascii_lower. intros H.
  apply orb_true_iff in H as [H|H]; to_prop.
  - replace (97 <=? c) with false by (symmetry; apply N.leb_gt; lia). simpl.
    apply orb_true_iff; left. apply andb_true_iff; split; apply N.leb_le; lia.
  - replace (97 <=? c) with true by (symmetry; apply N.leb_le; lia).
    replace (c <=? 122) with true by (symmetry; apply N.leb_le; lia). simpl.
    apply orb_true_iff; right. apply andb_true_iff; split; apply N.leb_le; lia.
Qed.

Lemma forallb_firstn {A} (p : A -> bool) (n : nat) (l : list A) :
  forallb p l = true -> forallb p (firstn n l) = true.
Proof.
  revert l. induction n as [|n IH]; intros [|x l]; simpl; auto.
  intros H. apply andb_true_iff in H as [Hx Hl]. now rewrite Hx, IH.
Qed.

Lemma forallb_map {A B} (f : A -> B) (p : B -> bool) (l : list A) :
  forallb p (map f l) = forallb (fun x => p (f x)) l.
Proof. induction l; simpl; congruence. Qed.

(** The token: the first 12 digits of the digest, in upper case. *)
Lemma token_shape (upper : str -> str) (msg : list N) :
  upper_on_ascii upper ->
  upper (firstn 12 (Sha256.hexdigest msg))
  = map ascii_upper (firstn 12 (Sha256.hexdigest msg))
  /\ length (upper (firstn 12 (Sha256.hexdigest msg))) = 12%nat
  /\ forallb upper_hex (upper (firstn 12 (Sha256.hexdigest msg))) = true.
Proof.
  intros Hup. destruct (hexdigest_shape msg) as [Hl Hh].
  assert (Hf : forallb lower_hex (firstn 12 (Sha256.hexdigest msg)) = true)
    by now apply forallb_firstn.
  rewrite Hup by (apply (forallb_impl lower_hex); [apply lower_hex_ascii | exact Hf]).
  split; [reflexivity|]. split.
  - rewrite length_map, length_firstn, Hl. reflexivity.
  - rewrite forallb_map.
    apply (forallb_impl lower_hex); [apply lower_hex_upper | exact Hf].
Qed.

End HashFacts.

(** ** The report identifier *)

Section ReportId.

Variable upper : str -> str.

Import TextFacts HashFacts.

(** Only the ASCII part of [upper] reaches the identifier. *)
Lemma report_id_any_upper (now : datetime) (a : Z) (d : str) :
  upper_on_ascii upper ->
  report_id upper now a d = report_id upper_ascii now a d.
Proof.
  intros Hup. unfold report_id.
  destruct (encode (report_text now a d)) as [e|octets];
    cbn [bind]; [reflexivity|].
  unfold ret. f_equal. apply (token_shape upper octets Hup).
Qed.

(** C8, as the code has it. For a diagnosis code that can be encoded, the
    identifier exists and is a function of the triple (instant, age, code):
    the first 12 hexadecimal digits, in upper case, of the SHA-256 of the
    UTF-8 text of the triple.  Changing the triple, in one component or in
    several, changes the text and the octets that are hashed. *)
Theorem report_id_token (now : datetime) (a : Z) (d : str) :
  upper_on_ascii upper ->
  forallb scalar_value d = true ->
  exists octets id,
    encode (report_text now a d) = inr octets
    /\ report_id upper now a d = inr id
    /\ id = map ascii_upper (firstn 12 (Sha256.hexdigest octets))
    /\ length id = 12%nat
    /\ forallb upper_hex id = true
    /\ (forall now' a' d',
           (now', a', d') = (now, a, d) -> report_id upper now' a' d' = inr id)
    /\ (forall now' a' d',
           (now', a', d') <> (now, a, d) ->
           report_text now' a' d' <> report_text now a d
           /\ encode (report_text now' a' d') <> inr octets).
Proof.
  intros Hup Hd.
  destruct (encode_total _ (report_text_scalar now a d Hd)) as [octets Henc].
  destruct (token_shape upper octets Hup) as (Hmap & Hlen & Hhex).
  assert (Hid : report_id upper now a d
                = inr (upper (firstn 12 (Sha256.hexdigest octets)))).
  { unfold report_id. rewrite Henc. reflexivity. }
  exists octets, (upper (firstn 12 (Sha256.hexdigest octets))).
  split; [exact Henc|]. split; [exact Hid|]. split; [exact Hmap|].
  split; [exact Hlen|]. split; [exact Hhex|].
  split.
  - intros now' a' d' E. injection E as -> -> ->. exact Hid.
  - intros now' a' d' Hne.
    assert (Htext : report_text now' a' d' <> report_text now a d).
    { intros H. apply Hne.
      apply report_text_inj in H as (-> & -> & ->). reflexivity. }
    split; [exact Htext|].
    intros H. apply Htext. exact (encode_inj _ _ octets H Henc).
Qed.

End ReportId.

Lemma report_id_token_witness :
  exists octets id,
    encode (report_text sample_time 65 (py "I50.9")) = inr octets
    /\ report_id upper_ascii sample_time 65 (py "I50.9") = inr id
    /\ id = py "05253F0B6E32"
    /\ length id = 12%nat.
Proof.
  destruct (report_id_token upper_ascii sample_time 65 (py "I50.9")
              upper_ascii_on_ascii eq_refl)
    as (octets & id & Henc & Hid & _ & Hlen & _).
  exists octets, id. split; [exact Henc|]. split; [exact Hid|].
  split; [|exact Hlen].
  assert (H : report_id upper_ascii sample_time 65 (py "I50.9")
              = inr (py "05253F0B6E32")) by (vm_compute; reflexivity).
  rewrite H in Hid. now injection Hid.
Defined.

(** C8, as the spec has it, fails: two forms filled at the same instant
    with the same age and different diagnosis codes get the same
    identifier, whatever [upper] the run-time has. *)
Lemma report_id_collision :
  py "I50.7611547" <> py "I50.23718028"
  /\ forall upper, upper_on_ascii upper ->
       report_id upper sample_time 65 (py "I50.7611547") = inr (py "A5543E65AEA8")
       /\ report_id upper sample_time 65 (py "I50.23718028") = inr (py "A5543E65AEA8").
Proof.
  split; [discriminate|].
  intros upper Hup. rewrite !(report_id_any_upper upper) by exact Hup.
  split; vm_compute; reflexivity.
Qed.

(** * Further properties of the script *)

(** ** Runs of the display code *)

Example format_1f_samples :
  map format_1f
      [ float_lit 25 100; float_lit 35 100; float_lit 5 100; float_lit 15 100;
        float_lit 9995 100; float_lit 99949 1000; float_lit 12345678 1000;
        SFopp (float_lit 4 100); S754_zero true; S754_nan;
        S754_finite false 2024 (-1074) ]
  = map py [ "0.2"; "0.3"; "0.1"; "0.1"; "100.0"; "99.9"; "12345.7";
             "-0.0"; "-0.0"; "nan"; "0.0" ]%string.
Proof. vm_compute. reflexivity. Qed.

Example percent_text_samples :
  map percent_text [float_lit 4999 10000; float_lit 2999 10000; float_lit 5 10;
                    float_of_int 1; float_of_int 0]
  = map py ["50.0%"; "30.0%"; "50.0%"; "100.0%"; "0.0%"]%string.
Proof. vm_compute. reflexivity. Qed.

Example formatted_time_samples :
  formatted_time sample_time = py "15 Mar 2024 | 10:30".
Proof. reflexivity. Qed.

(** ** More on feature preparation *)

Section FeaturePrepMore.

Variable upper : str -> str.

Import DataFrame DataFrameFacts.

(** The five derived assignments leave the constructor's columns alone. *)
Lemma get_engineered_constructor (p : PatientProfile) (c : str) (v : value) :
  In (c, v) (input_data p) -> get c (engineered p) = Some v.
Proof.
  unfold input_data. simpl.
  intros H.
  repeat (destruct H as [H|H]; [injection H as <- <-; reflexivity|]).
  contradiction.
Qed.

Lemma constructor_columns_produced (p : PatientProfile) (c : str) (v : value) :
  In (c, v) (input_data p) -> In c produced_columns.
Proof.
  unfold input_data, produced_columns. simpl.
  intros H.
  repeat (destruct H as [H|H]; [injection H as <- _; tauto|]).
  contradiction.
Qed.

(** X1. Every column of the constructor (the eight direct fields and
    [gender_M]) reaches the aligned frame with the value it was given
    when the schema lists it, and is dropped without error when the
    schema does not. *)
Theorem constructor_columns_pass_through
    (p : PatientProfile) (cols : list str) (c : str) (v : value) :
  upper_has_no_lower upper ->
  diagnosis_code p <> [] ->
  In (c, v) (input_data p) ->
  exists fv,
    feature_prep upper p cols = inr fv
    /\ (In c cols -> get c fv = Some v)
    /\ (~ In c cols -> get c fv = None).
Proof.
  intros Hup Hd Hin.
  destruct (icd_group_nonempty upper p Hd) as [g Hg].
  exists (map (fun c => (c, final_cell p g c)) cols).
  split; [apply (feature_prep_ok upper p cols g Hg)|].
  rewrite get_map. split.
  - intros Hc. apply contains_In in Hc. rewrite Hc. unfold final_cell.
    rewrite (icd_group_not_produced upper p g c Hup Hg
               (constructor_columns_produced p c v Hin)).
    now rewrite (get_engineered_constructor p c v Hin).
  - intros Hc. apply contains_not_In in Hc. now rewrite Hc.
Qed.

(** X2. Among the schema columns the script does not assign by name, the
    aligned frame holds 1 under the diagnosis group and 0 under every
    other one, at every position: the group columns are one-hot. *)
Theorem group_columns_one_hot
    (p : PatientProfile) (cols : list str) (g c : str) :
  icd_group upper p = inr g ->
  In c cols ->
  ~ In c produced_columns ->
  exists fv,
    feature_prep upper p cols = inr fv
    /\ get c fv = Some (VInt (if str_eqb g c then 1 else 0))
    /\ (forall v, In (c, v) fv -> v = VInt (if str_eqb g c then 1 else 0)).
Proof.
  intros Hg Hin Hnp.
  assert (Hcell : final_cell p g c = VInt (if str_eqb g c then 1 else 0)).
  { unfold final_cell. destruct (str_eqb g c); [reflexivity|].
    now rewrite (get_engineered_other p c Hnp). }
  eexists. split; [apply (feature_prep_ok upper p cols g Hg)|]. split.
  - rewrite get_map. apply contains_In in Hin. now rewrite Hin, Hcell.
  - intros v Hv. apply In_aligned in Hv as [_ ->]. exact Hcell.
Qed.

Lemma engineered_with_code (p : PatientProfile) (code : str) :
  engineered (with_code p code) = engineered p.
Proof. reflexivity. Qed.

Lemma feature_prep_by_group (p : PatientProfile) (code code' : str) (cols : list str) :
  icd_group upper (with_code p code) = icd_group upper (with_code p code') ->
  feature_prep upper (with_code p code) cols
  = feature_prep upper (with_code p code') cols.
Proof.
  intros H. rewrite !feature_prep_closed_form, H.
  destruct (icd_group upper (with_code p code')) as [e|g]; [reflexivity|].
  unfold final_cell. now rewrite !engineered_with_code.
Qed.

(** X3. Only the first character of the diagnosis code reaches the frame:
    codes that begin alike give the same result whatever follows, and so
    do codes whose first characters are ASCII letters differing in case
    only. *)
Theorem diagnosis_code_first_character
    (p : PatientProfile) (c c' : N) (rest rest' : str) (cols : list str) :
  (feature_prep upper (with_code p (c :: rest)) cols
   = feature_prep upper (with_code p (c :: rest')) cols)
  /\ (upper_on_ascii upper ->
      is_ascii c = true -> is_ascii c' = true ->
      ascii_upper c = ascii_upper c' ->
      feature_prep upper (with_code p (c :: rest)) cols
      = feature_prep upper (with_code p (c' :: rest')) cols).
Proof.
  split.
  - apply feature_prep_by_group. reflexivity.
  - intros Hup Hc Hc' E. apply feature_prep_by_group.
    unfold icd_group; simpl.
    rewrite (Hup [c]) by (simpl; now rewrite Hc).
    rewrite (Hup [c']) by (simpl; now rewrite Hc').
    simpl. now rewrite E.
Qed.

Lemma get_In (c : str) (v : value) (df : t) : get c df = Some v -> In (c, v) df.
Proof.
  induction df as [|[k x] df IH]; simpl; [discriminate|].
  destruct (str_eqb k c) eqn:E.
  - apply str_eqb_eq in E. intros H; injection H as <-. subst. auto.
  - auto.
Qed.

(** The frame before alignment, cell by cell. *)
Lemma engineered_cells (p : PatientProfile) :
  engineered p
  = input_data p
    ++ [ (py "los_x_comorb", VInt (los p * comorbidity_count p));
         (py "glucose_flag",
          VInt (int_of_bool (float_gt (avg_glucose p) (float_of_int 200))));
         (py "creatinine_flag",
          VInt (int_of_bool (float_gt (avg_creatinine p) (float_of_int 2))));
         (py "hb_flag",
          VInt (int_of_bool (float_lt (avg_hemoglobin p) (float_of_int 10))));
         (py "polypharmacy_flag",
          VInt (int_of_bool (15 <=? num_medications p)%Z)) ].
Proof. reflexivity. Qed.

(** X4. Outside the nine columns that hold a quantity, every cell of the
    aligned frame is 0 or 1. *)
Theorem other_cells_are_binary
    (p : PatientProfile) (cols : list str) (fv : t) (c : str) (v : value) :
  feature_prep upper p cols = inr fv ->
  In (c, v) fv ->
  ~ In c quantity_columns ->
  v = VInt 0 \/ v = VInt 1.
Proof.
  intros Hfv Hin Hq.
  apply feature_prep_inv in Hfv as (g & _ & ->).
  apply In_aligned in Hin as [_ ->].
  unfold final_cell. destruct (str_eqb g c); [auto|].
  destruct (get c (engineered p)) as [v|] eqn:E; [|auto].
  apply get_In in E. rewrite engineered_cells in E.
  unfold input_data in E. unfold quantity_columns in Hq. simpl in E, Hq.
  assert (Hb : forall b, VInt (int_of_bool b) = VInt 0 \/ VInt (int_of_bool b) = VInt 1)
    by (intros []; auto).
  repeat (destruct E as [E|E];
          [injection E as <- <-;
           first [ exfalso; tauto
                 | apply Hb
                 | destruct (str_eqb (gender p) (py "Male")); auto ]|]).
  contradiction.
Qed.

End FeaturePrepMore.

Lemma constructor_columns_pass_through_witness :
  exists fv,
    feature_prep upper_ascii scenario sample_columns = inr fv
    /\ (In (py "age") sample_columns -> DataFrame.get (py "age") fv = Some (VInt 65))
    /\ (~ In (py "age") sample_columns -> DataFrame.get (py "age") fv = None).
Proof.
  apply (constructor_columns_pass_through upper_ascii scenario sample_columns
           (py "age") (VInt 65)).
  - exact upper_ascii_has_no_lower.
  - discriminate.
  - left. reflexivity.
Defined.

Lemma group_columns_one_hot_witness :
  exists fv,
    feature_prep upper_ascii scenario sample_columns = inr fv
    /\ DataFrame.get (py "E") fv = Some (VInt 0)
    /\ (forall v, In (py "E", v) fv -> v = VInt 0).
Proof.
  apply (group_columns_one_hot upper_ascii scenario sample_columns (py "I") (py "E")).
  - reflexivity.
  - apply contains_In. reflexivity.
  - apply contains_not_In. reflexivity.
Defined.

Lemma diagnosis_code_first_character_witness :
  feature_prep upper_ascii (with_code scenario (py "I50.9")) sample_columns
  = feature_prep upper_ascii (with_code scenario (py "i10")) sample_columns.
Proof.
  apply (proj2 (diagnosis_code_first_character upper_ascii scenario
                  73 105 (py "50.9") (py "10") sample_columns)).
  - exact upper_ascii_on_ascii.
  - reflexivity.
  - reflexivity.
  - reflexivity.
Defined.

Lemma other_cells_are_binary_witness :
  VInt 1 = VInt 0 \/ VInt 1 = VInt 1.
Proof.
  apply (other_cells_are_binary upper_ascii scenario sample_columns
           [ (py "age", VInt 65); (py "gender_M", VInt 1);
             (py "los_x_comorb", VInt 14); (py "glucose_flag", VInt 0);
             (py "creatinine_flag", VInt 0); (py "hb_flag", VInt 0);
             (py "polypharmacy_flag", VInt 0); (py "E", VInt 0);
             (py "I", VInt 1); (py "insurance_private", VInt 0) ]
           (py "I") (VInt 1)).
  - vm_compute. reflexivity.
  - simpl. tauto.
  - apply contains_not_In. reflexivity.
Defined.

(** ** More on the risk level *)

Module FloatOrder.

Import FloatFacts.
Local Open Scope Z_scope.

Lemma float_le_ulps (x y : float) :
  binary64 x -> binary64 y -> (float_le x y = true <-> ulps x <= ulps y).
Proof.
  intros Hx Hy. unfold float_le, SFleb. rewrite (SFcompare_ulps x y Hx Hy).
  rewrite <- Z.compare_le_iff.
  destruct (ulps x ?= ulps y); split; congruence.
Qed.

Lemma float_lt_ulps (x y : float) :
  binary64 x -> binary64 y -> (float_lt x y = true <-> ulps x < ulps y).
Proof.
  intros Hx Hy. unfold float_lt, SFltb. rewrite (SFcompare_ulps x y Hx Hy).
  rewrite <- Z.compare_lt_iff.
  destruct (ulps x ?= ulps y); split; congruence.
Qed.

Lemma binary64_lit_050 : binary64 (float_lit 50 100).
Proof. split; vm_compute; reflexivity. Qed.

Lemma binary64_lit_030 : binary64 (float_lit 30 100).
Proof. split; vm_compute; reflexivity. Qed.

Lemma binary64_not_nan (x : float) : binary64 x -> is_nan x = false.
Proof. intros [_ H]. now destruct x. Qed.

(** The level of a well-formed number, read off its exact value. *)
Lemma risk_level_ulps (prob : float) :
  binary64 prob ->
  (risk_level prob = HIGH <-> ulps (float_lit 50 100) <= ulps prob)
  /\ (risk_level prob = LOW <-> ulps prob < ulps (float_lit 30 100)).
Proof.
  intros Hb. split.
  - rewrite risk_level_HIGH.
    apply (float_le_ulps _ _ binary64_lit_050 Hb).
  - rewrite (risk_level_LOW prob (binary64_not_nan prob Hb)).
    apply (float_lt_ulps _ _ Hb binary64_lit_030).
Qed.

(** Below zero is below the lower threshold, above one is above the upper. *)
Lemma below_zero_lt_030 (prob : float) :
  float_lt prob (float_of_int 0) = true ->
  float_lt prob (float_lit 30 100) = true.
Proof.
  rewrite lit_030. change (float_of_int 0) with (S754_zero false).
  unfold float_lt, SFltb, SFcompare.
  destruct prob as [[|]|[|]| |[|] m e]; cbv beta iota; congruence.
Qed.

Lemma above_one_ge_050 (prob : float) :
  float_gt prob (float_of_int 1) = true ->
  float_ge prob (float_lit 50 100) = true.
Proof.
  rewrite lit_050. unfold float_gt, float_ge, SFltb, SFleb, SFcompare.
  change (float_of_int 1) with (S754_finite false 4503599627370496 (-52)).
  destruct prob as [[|]|[|]| |[|] m e]; try congruence.
  destruct (Z.compare_spec (-52) e), (Z.compare_spec (-53) e);
    try lia; congruence.
Qed.

End FloatOrder.

Section RiskLevelMore.

Import FloatFacts FloatOrder.

(** X5. The cascade accepts every float and checks no range: a value is
    HIGH exactly when it reaches 0.50, LOW exactly when it is NaN or
    below 0.30, and MODERATE otherwise; so a negative number or NaN is
    LOW and a number above 1, or infinity, is HIGH. *)
Theorem risk_level_any_float (prob : float) :
  (risk_level prob = HIGH <-> float_ge prob (float_lit 50 100) = true)
  /\ (risk_level prob = LOW
      <-> is_nan prob = true \/ float_lt prob (float_lit 30 100) = true)
  /\ (risk_level prob = MODERATE
      <-> float_ge prob (float_lit 30 100) = true
          /\ float_ge prob (float_lit 50 100) = false)
  /\ (float_lt prob (float_of_int 0) = true -> risk_level prob = LOW)
  /\ (float_gt prob (float_of_int 1) = true -> risk_level prob = HIGH).
Proof.
  assert (HL : risk_level prob = LOW
               <-> is_nan prob = true \/ float_lt prob (float_lit 30 100) = true).
  { destruct (is_nan prob) eqn:Hn.
    - destruct prob; try discriminate. split; [auto | reflexivity].
    - rewrite (risk_level_LOW prob Hn). split; [auto | intros [?|?]; congruence]. }
  split; [apply risk_level_HIGH|]. split; [exact HL|]. split.
  - unfold risk_level, classify.
    destruct (float_ge prob (float_lit 50 100)); simpl.
    + split; [discriminate | intros [_ ?]; discriminate].
    + destruct (float_ge prob (float_lit 30 100)); simpl; split;
        try tauto; try discriminate. intros [? _]; discriminate.
  - split.
    + intros H. apply HL. right. now apply below_zero_lt_030.
    + intros H. apply risk_level_HIGH. now apply above_one_ge_050.
Qed.

(** X6. The level never goes down when the probability goes up. *)
Theorem risk_level_monotone (a b : float) :
  binary64 a -> binary64 b ->
  float_le a b = true ->
  (level_rank (risk_level a) <= level_rank (risk_level b))%nat.
Proof.
  intros Ha Hb Hle.
  apply (float_le_ulps a b Ha Hb) in Hle.
  destruct (risk_level_ulps a Ha) as [HHa HLa].
  destruct (risk_level_ulps b Hb) as [HHb HLb].
  assert (H35 : (ulps (float_lit 30 100) < ulps (float_lit 50 100))%Z)
    by (vm_compute; reflexivity).
  destruct (risk_level a) eqn:Ea, (risk_level b) eqn:Eb; simpl; try lia.
  - assert (ulps (float_lit 50 100) <= ulps a)%Z by (now apply HHa).
    assert (~ (ulps (float_lit 50 100) <= ulps b)%Z)
      by (intros H'; apply HHb in H'; discriminate).
    lia.
  - assert (ulps (float_lit 50 100) <= ulps a)%Z by (now apply HHa).
    assert (ulps b < ulps (float_lit 30 100))%Z by (now apply HLb).
    lia.
  - assert (~ (ulps a < ulps (float_lit 30 100))%Z)
      by (intros H'; apply HLa in H'; discriminate).
    assert (ulps b < ulps (float_lit 30 100))%Z by (now apply HLb).
    lia.
Qed.

End RiskLevelMore.

Lemma risk_level_monotone_witness :
  (level_rank (risk_level (float_lit 2999 10000))
   <= level_rank (risk_level (float_lit 4999 10000)))%nat.
Proof.
  apply (risk_level_monotone (float_lit 2999 10000) (float_lit 4999 10000)).
  - split; vm_compute; reflexivity.
  - split; vm_compute; reflexivity.
  - vm_compute. reflexivity.
Defined.

(** ** The report texts *)

Module ReportFacts.

Import TextFacts HashFacts.

(** A run of characters of one kind, followed by a character of another
    kind or by nothing, can be cut in one way only. *)
Lemma run_unique (P : N -> bool) (a a' t t' : str) :
  forallb P a = true -> forallb P a' = true ->
  match t with [] => True | c :: _ => P c = false end ->
  match t' with [] => True | c :: _ => P c = false end ->
  a ++ t = a' ++ t' -> a = a' /\ t = t'.
Proof.
  revert a'. induction a as [|c a IH]; intros [|c' a'] Ha Ha' Ht Ht' H; simpl in *.
  - auto.
  - subst t. apply andb_true_iff in Ha' as [Hc _]. congruence.
  - subst t'. apply andb_true_iff in Ha as [Hc _]. congruence.
  - injection H as -> H.
    apply andb_true_iff in Ha as [_ Ha]. apply andb_true_iff in Ha' as [_ Ha'].
    destruct (IH a' Ha Ha' Ht Ht' H) as [-> ->]. auto.
Qed.

Lemma encode_char_fails (c : N) :
  scalar_value c = false -> encode_char c = inl UnicodeEncodeError.
Proof.
  unfold scalar_value, encode_char. intros H.
  apply orb_false_iff in H as [H1 H2]. apply N.ltb_ge in H1.
  replace (c <? 128)%N with false by (symmetry; apply N.ltb_ge; lia).
  replace (c <? 2048)%N with false by (symmetry; apply N.ltb_ge; lia).
  destruct (c <? 65536)%N eqn:E3.
  - apply N.ltb_lt in E3.
    assert (c <= 57343)%N.
    { destruct (57343 <? c)%N eqn:E; [|now apply N.ltb_ge in E].
      simpl in H2. apply N.ltb_ge in H2. lia. }
    replace (55296 <=? c)%N with true by (symmetry; apply N.leb_le; lia).
    replace (c <=? 57343)%N with true by (symmetry; apply N.leb_le; lia).
    reflexivity.
  - apply N.ltb_ge in E3.
    replace (57343 <? c)%N with true in H2 by (symmetry; apply N.ltb_lt; lia).
    simpl in H2. now rewrite H2.
Qed.

(** [encode] fails exactly on a lone surrogate (or a number that is no
    code point), and then with [UnicodeEncodeError]. *)
Lemma encode_fails (s : str) :
  forallb scalar_value s = false -> encode s = inl UnicodeEncodeError.
Proof.
  induction s as [|c s IH]; simpl; [discriminate|].
  destruct (scalar_value c) eqn:Ec; simpl.
  - intros Hs. destruct (encode_char_total c Ec) as [h ->].
    rewrite (IH Hs). reflexivity.
  - intros _. now rewrite (encode_char_fails c Ec).
Qed.

Lemma report_text_scalar_iff (t : datetime) (a : Z) (d : str) :
  forallb scalar_value (report_text t a d) = forallb scalar_value d.
Proof.
  destruct (forallb scalar_value d) eqn:Hd.
  - now apply report_text_scalar.
  - unfold report_text. rewrite !forallb_app, Hd.
    now rewrite !andb_false_r.
Qed.

(** The identifier in full: a token when the code can be encoded, the
    encoder's exception when it cannot. *)
Lemma report_id_cases (upper : str -> str) (now : datetime) (a : Z) (d : str) :
  if forallb scalar_value d
  then exists octets,
         encode (report_text now a d) = inr octets
         /\ report_id upper now a d
            = inr (upper (firstn 12 (Sha256.hexdigest octets)))
  else report_id upper now a d = inl UnicodeEncodeError.
Proof.
  destruct (forallb scalar_value d) eqn:Hd.
  - destruct (encode_total _ (report_text_scalar now a d Hd)) as [octets Henc].
    exists octets. split; [exact Henc|].
    unfold report_id. now rewrite Henc.
  - unfold report_id. rewrite encode_fails; [reflexivity|].
    now rewrite report_text_scalar_iff.
Qed.

End ReportFacts.

Section ReportMore.

Variable upper : str -> str.

Import TextFacts HashFacts ReportFacts.

(** X7. Once the document is set up, [generate_pdf] raises an exception of
    its own exactly when the diagnosis code holds a character UTF-8
    cannot encode (a lone surrogate), and then [UnicodeEncodeError] from
    the identifier, before anything is laid out; for every other code its
    statements complete, and the call ends as the libraries end on the
    texts: with the buffer or with their exception. *)
Theorem generate_pdf_fails_on_unencodable
    (render_exn : Type) (new_document : render_exn + unit)
    (build : pdf_texts -> render_exn + list N)
    (now_id now_shown : datetime) (p : PatientProfile) (prob : float) :
  new_document = inr tt ->
  (forallb scalar_value (diagnosis_code p) = false ->
   generate_pdf render_exn new_document build upper now_id now_shown p prob
   = Raises UnicodeEncodeError)
  /\ (forallb scalar_value (diagnosis_code p) = true ->
      exists texts,
        pdf_content upper now_id now_shown p prob = inr texts
        /\ generate_pdf render_exn new_document build upper now_id now_shown p prob
           = match build texts with
             | inl e => LibraryRaises e
             | inr buffer => Returned buffer
             end)
  /\ (forall e,
        generate_pdf render_exn new_document build upper now_id now_shown p prob
        = Raises e ->
        e = UnicodeEncodeError
        /\ forallb scalar_value (diagnosis_code p) = false).
Proof.
  intros ->.
  pose proof (report_id_cases upper now_id (age p) (diagnosis_code p)) as H.
  unfold generate_pdf, pdf_content.
  destruct (forallb scalar_value (diagnosis_code p)).
  - destruct H as (octets & _ & ->). cbn [bind ret].
    split; [discriminate|]. split.
    + intros _. eexists. split; [reflexivity|]. reflexivity.
    + intros e. destruct (build _); discriminate.
  - rewrite H. cbn [bind].
    split; [reflexivity|]. split; [discriminate|].
    intros e He. injection He as <-. auto.
Qed.

End ReportMore.

Lemma generate_pdf_fails_on_unencodable_witness :
  generate_pdf unit (inr tt) (fun _ => inl tt) upper_ascii
    sample_time sample_time_later
    (with_code scenario [73; 55357]%N) (float_lit 42 100)
  = Raises UnicodeEncodeError.
Proof.
  apply (proj1 (generate_pdf_fails_on_unencodable upper_ascii unit (inr tt)
                  (fun _ => inl tt) sample_time
                  sample_time_later (with_code scenario [73; 55357]%N)
                  (float_lit 42 100) eq_refl)).
  reflexivity.
Defined.

Module PayloadFacts.

Import TextFacts HashFacts ReportFacts.

Lemma digit_not_nl (c : N) : is_digit c = true -> not_nl c = true.
Proof.
  unfold is_digit, not_nl. intros H. to_prop.
  apply negb_true_iff, N.eqb_neq. lia.
Qed.

Lemma upper_hex_not_nl (c : N) : upper_hex c = true -> not_nl c = true.
Proof.
  unfold upper_hex, not_nl. intros H.
  apply negb_true_iff, N.eqb_neq.
  apply orb_true_iff in H as [H|H]; to_prop; lia.
Qed.

Lemma digits_not_nl (d : Decimal.uint) : forallb not_nl (str_of_uint d) = true.
Proof.
  apply (forallb_impl is_digit); [apply digit_not_nl | apply str_of_uint_digits].
Qed.

Lemma zero_padded_not_nl (w : nat) (n : N) : forallb not_nl (zero_padded w n) = true.
Proof.
  apply (forallb_impl is_digit); [apply digit_not_nl | apply zero_padded_digits].
Qed.

Lemma format_1f_not_nl (x : float) : forallb not_nl (format_1f x) = true.
Proof.
  destruct x as [[|]|[|]| |[|] m e]; try reflexivity;
    unfold format_1f; rewrite !forallb_app, !digits_not_nl; reflexivity.
Qed.

Lemma percent_text_not_nl (prob : float) : forallb not_nl (percent_text prob) = true.
Proof.
  unfold percent_text. now rewrite forallb_app, format_1f_not_nl.
Qed.

Lemma level_name_not_nl (l : level) : forallb not_nl (level_name l) = true.
Proof. destruct l; reflexivity. Qed.

Lemma level_name_inj (l l' : level) : level_name l = level_name l' -> l = l'.
Proof. destruct l, l'; intros H; try reflexivity; discriminate. Qed.

(** A month name holds letters only, whatever the month. *)
Lemma month_abbr_letters (P : N -> bool) (m : N) :
  P 32%N = false \/ P 10%N = false ->
  (forall c, (65 <=? c)%N && (c <=? 122)%N = true -> P c = true) ->
  forallb P (month_abbr m) = true.
Proof.
  intros _ HP. unfold month_abbr. destruct m as [|p]; [reflexivity|].
  set (names := map py _).
  assert (Hn : forallb (forallb (fun c => (65 <=? c)%N && (c <=? 122)%N))
                 ([] :: names) = true) by reflexivity.
  rewrite forallb_forall in Hn.
  apply (forallb_impl (fun c => (65 <=? c)%N && (c <=? 122)%N)); [exact HP|].
  apply Hn. destruct (nth_in_or_default (N.to_nat (N.pos p) - 1) names []) as [H| ->].
  - now right.
  - now left.
Qed.

Lemma month_abbr_not_nl (m : N) : forallb not_nl (month_abbr m) = true.
Proof.
  apply month_abbr_letters; [right; reflexivity|].
  intros c H. unfold not_nl. to_prop. apply negb_true_iff, N.eqb_neq. lia.
Qed.

Lemma formatted_time_not_nl (t : datetime) : forallb not_nl (formatted_time t) = true.
Proof.
  unfold formatted_time.
  now rewrite !forallb_app, !zero_padded_not_nl, month_abbr_not_nl, digits_not_nl.
Qed.

Lemma month_abbr_inj (m m' : N) :
  (1 <= m <= 12)%N -> (1 <= m' <= 12)%N ->
  month_abbr m = month_abbr m' -> m = m'.
Proof.
  intros Hm Hm' E.
  assert (Hin : forall k, (1 <= k <= 12)%N -> In k (map N.of_nat (seq 1 12))).
  { intros k Hk. apply in_map_iff. exists (N.to_nat k).
    split; [apply N2Nat.id | apply in_seq; lia]. }
  assert (Hall : forallb (fun a => forallb (fun b =>
                    implb (str_eqb (month_abbr a) (month_abbr b)) (a =? b)%N)
                    (map N.of_nat (seq 1 12))) (map N.of_nat (seq 1 12)) = true)
    by (vm_compute; reflexivity).
  rewrite forallb_forall in Hall. specialize (Hall m (Hin m Hm)).
  rewrite forallb_forall in Hall. specialize (Hall m' (Hin m' Hm')).
  rewrite E, str_eqb_refl in Hall. simpl in Hall. now apply N.eqb_eq.
Qed.

(** The QR text, with the four fields it interpolates set apart. *)
Lemma qr_text_fields (rid lvl pct ft : str) :
  qr_text rid lvl pct ft
  = (qr_line (py "Clinical AI Official Report") ++ qr_line (py "Report ID: CAI-"))
      ++ rid ++ 10%N :: (repeat 32%N 8 ++ py "Risk Level: ")
      ++ lvl ++ 10%N :: (repeat 32%N 8 ++ py "Probability: ")
      ++ pct ++ 10%N :: (repeat 32%N 8 ++ py "Generated: ")
      ++ ft ++ qr_line (py "This is a computer-generated clinical document.")
      ++ qr_line [].
Proof.
  unfold qr_text, qr_line.
  repeat (rewrite <- ?app_assoc, <- ?app_comm_cons). reflexivity.
Qed.

(** The QR text determines the four fields, none of which holds a line
    feed. *)
Lemma qr_text_inj (rid rid' lvl lvl' pct pct' ft ft' : str) :
  forallb not_nl rid = true -> forallb not_nl rid' = true ->
  forallb not_nl lvl = true -> forallb not_nl lvl' = true ->
  forallb not_nl pct = true -> forallb not_nl pct' = true ->
  forallb not_nl ft = true -> forallb not_nl ft' = true ->
  qr_text rid lvl pct ft = qr_text rid' lvl' pct' ft' ->
  rid = rid' /\ lvl = lvl' /\ pct = pct' /\ ft = ft'.
Proof.
  intros Hr Hr' Hl Hl' Hp Hp' Hf Hf' H.
  rewrite !qr_text_fields in H.
  apply app_inv_head in H.
  apply (run_unique not_nl) in H as [-> H]; try assumption; try reflexivity.
  apply cons_inj in H as [_ H]. apply app_inv_head in H.
  apply (run_unique not_nl) in H as [-> H]; try assumption; try reflexivity.
  apply cons_inj in H as [_ H]. apply app_inv_head in H.
  apply (run_unique not_nl) in H as [-> H]; try assumption; try reflexivity.
  apply cons_inj in H as [_ H]. apply app_inv_head in H.
  apply (run_unique not_nl) in H as [-> H]; try assumption; try reflexivity.
  auto.
Qed.

End PayloadFacts.

Section PrintedTexts.

Variable upper : str -> str.

Import TextFacts HashFacts ReportFacts PayloadFacts.

Lemma inr_inj {E A} (a b : A) : @inr E A a = inr b -> a = b.
Proof. intros H. injection H. auto. Qed.

(** X8. The printed time identifies the minute and nothing finer: two
    instants print alike exactly when they agree on day, month, year,
    hour and minute, whatever their seconds and microseconds. *)
Theorem formatted_time_to_the_minute (t t' : datetime) :
  (1 <= month t <= 12)%N -> (1 <= month t' <= 12)%N ->
  (formatted_time t = formatted_time t'
   <-> day t = day t' /\ month t = month t' /\ year t = year t'
       /\ hour t = hour t' /\ minute t = minute t').
Proof.
  destruct t as [y mo d h mi s us], t' as [y' mo' d' h' mi' s' us'].
  unfold formatted_time; simpl year; simpl month; simpl day; simpl hour;
    simpl minute.
  intros Hm Hm'. split.
  - change (py " ") with [32%N]; change (py ":") with [58%N];
      change (py " | ") with [32%N; 124%N; 32%N].
    simpl app. intros H.
    apply field_unique in H as [-> H]; [|reflexivity].
    apply (run_unique (fun c => negb (c =? 32)%N)) in H as [Hmo H];
      try reflexivity;
      try (apply month_abbr_letters; [left; reflexivity|];
           intros c Hc; to_prop; apply negb_true_iff, N.eqb_neq; lia).
    apply (month_abbr_inj mo mo' Hm Hm') in Hmo as ->.
    apply cons_inj in H as [_ H].
    apply digit_run_unique in H as [Hy H];
      try apply str_of_uint_digits; try reflexivity.
    apply str_of_uint_inj in Hy. apply (f_equal N.of_uint) in Hy.
    rewrite !DecimalN.Unsigned.of_to in Hy. subst y'.
    apply cons_inj in H as [_ H]. apply cons_inj in H as [_ H].
    apply cons_inj in H as [_ H].
    apply field_unique in H as [-> H]; [|reflexivity].
    apply zero_padded_inj in H as ->. auto.
  - intros (-> & -> & -> & -> & ->). reflexivity.
Qed.

(** X9. The QR text of a report determines what it was built from: two
    calls of [generate_pdf] that computed the same QR text show the same
    identifier, the same printed time, the same level and the same
    percentage, whatever else differs between the two forms. *)
Theorem qr_payload_determines_fields
    (now_id now_shown now_id' now_shown' : datetime)
    (p p' : PatientProfile) (prob prob' : float) (r r' : pdf_texts) :
  upper_on_ascii upper ->
  pdf_content upper now_id now_shown p prob = inr r ->
  pdf_content upper now_id' now_shown' p' prob' = inr r' ->
  qr_payload r = qr_payload r' ->
  id_paragraph r = id_paragraph r'
  /\ generated_paragraph r = generated_paragraph r'
  /\ risk_level prob = risk_level prob'
  /\ percent_text prob = percent_text prob'.
Proof.
  intros Hup Hr Hr' Hq. unfold pdf_content in Hr, Hr'.
  pose proof (report_id_cases upper now_id (age p) (diagnosis_code p)) as Hc.
  pose proof (report_id_cases upper now_id' (age p') (diagnosis_code p')) as Hc'.
  destruct (forallb scalar_value (diagnosis_code p));
    [|rewrite Hc in Hr; discriminate].
  destruct (forallb scalar_value (diagnosis_code p'));
    [|rewrite Hc' in Hr'; discriminate].
  destruct Hc as (octets & _ & Hid). destruct Hc' as (octets' & _ & Hid').
  rewrite Hid in Hr. rewrite Hid' in Hr'. cbn [bind ret] in Hr, Hr'.
  apply inr_inj in Hr, Hr'. subst r r'. cbn [qr_payload] in Hq.
  cbn [id_paragraph generated_paragraph].
  destruct (token_shape upper octets Hup) as (_ & _ & Hx).
  destruct (token_shape upper octets' Hup) as (_ & _ & Hx').
  apply qr_text_inj in Hq as (-> & Hl & Hp & ->);
    try apply level_name_not_nl; try apply percent_text_not_nl;
    try apply formatted_time_not_nl;
    try (apply (forallb_impl upper_hex); [apply upper_hex_not_nl | assumption]).
  apply level_name_inj in Hl. auto.
Qed.

End PrintedTexts.

Lemma formatted_time_to_the_minute_witness :
  formatted_time sample_time
  = formatted_time {| year := 2024; month := 3; day := 15;
                      hour := 10; minute := 30; second := 7; microsecond := 0 |}.
Proof.
  apply (formatted_time_to_the_minute sample_time
           {| year := 2024; month := 3; day := 15;
              hour := 10; minute := 30; second := 7; microsecond := 0 |}).
  - simpl; lia.
  - simpl; lia.
  - repeat split.
Defined.

Lemma qr_payload_determines_fields_witness :
  risk_level (float_lit 42 100) = risk_level (float_lit 4201 10000)
  /\ percent_text (float_lit 42 100) = percent_text (float_lit 4201 10000).
Proof.
  destruct (pdf_content upper_ascii sample_time sample_time scenario
              (float_lit 42 100)) as [e|r] eqn:E; [vm_compute in E; discriminate|].
  destruct (pdf_content upper_ascii sample_time sample_time_later scenario_female
              (float_lit 4201 10000)) as [e|r'] eqn:E';
    [vm_compute in E'; discriminate|].
  assert (Hq : match pdf_content upper_ascii sample_time sample_time scenario
                       (float_lit 42 100),
                     pdf_content upper_ascii sample_time sample_time_later
                       scenario_female (float_lit 4201 10000)
               with
               | inr a, inr b => qr_payload a = qr_payload b
               | _, _ => True
               end) by (vm_compute; reflexivity).
  rewrite E, E' in Hq.
  destruct (qr_payload_determines_fields upper_ascii
              sample_time sample_time sample_time sample_time_later
              scenario scenario_female (float_lit 42 100) (float_lit 4201 10000)
              r r' upper_ascii_on_ascii E E' Hq) as (_ & _ & H1 & H2).
  split; [exact H1 | exact H2].
Defined.

(** ** The percentage: [prob * 100] on the gauge and on the card *)

Module MulFacts.

Import FloatFacts.
Local Open Scope Z_scope.

Lemma iter_pos_nat {A} (f : A -> A) (p : positive) (x : A) :
  iter_pos f p x = Nat.iter (Pos.to_nat p) f x.
Proof.
  revert x. induction p as [p IH|p IH|]; intros x; simpl iter_pos.
  - rewrite !IH, Pos2Nat.inj_xI.
    replace (S (2 * Pos.to_nat p))%nat with (Pos.to_nat p + (Pos.to_nat p + 1))%nat by lia.
    rewrite !Nat.iter_add. reflexivity.
  - rewrite !IH, Pos2Nat.inj_xO.
    replace (2 * Pos.to_nat p)%nat with (Pos.to_nat p + Pos.to_nat p)%nat by lia.
    rewrite Nat.iter_add. reflexivity.
  - reflexivity.
Qed.

(** One step of the shifter on a mantissa that is not negative. *)
Lemma shr_1_spec (m : Z) (r s : bool) :
  0 <= m ->
  shr_1 (Build_shr_record m r s) = Build_shr_record (m / 2) (Z.odd m) (r || s).
Proof.
  intros Hm. destruct m as [|p|p]; [reflexivity| |lia].
  destruct p as [p|p|]; unfold shr_1.
  - replace (Z.pos p~1 / 2) with (Z.pos p)
      by (apply (Z.div_unique _ _ _ 1); lia).
    reflexivity.
  - replace (Z.pos p~0 / 2) with (Z.pos p)
      by (apply (Z.div_unique _ _ _ 0); lia).
    reflexivity.
  - reflexivity.
Qed.

(** After [j+1] steps the record holds the quotient by [2^(j+1)], the
    bit just below it, and whether anything lies below that bit. *)
Lemma shr_iter_spec (P : Z) (j : nat) :
  0 <= P ->
  exists t,
    let mrs := Nat.iter (S j) shr_1 (Build_shr_record P false false) in
    0 <= shr_m mrs
    /\ P = shr_m mrs * 2 ^ (Z.of_nat j + 1)
           + (if shr_r mrs then 2 ^ Z.of_nat j else 0) + t
    /\ 0 <= t < 2 ^ Z.of_nat j
    /\ (shr_s mrs = true <-> 0 < t).
Proof.
  intros HP. induction j as [|j IH].
  - exists 0. cbv zeta.
    change (Nat.iter 1 shr_1 (Build_shr_record P false false))
      with (shr_1 (Build_shr_record P false false)).
    rewrite shr_1_spec by exact HP. cbn [shr_m shr_r shr_s orb Z.of_nat].
    rewrite Z.pow_0_r, Z.add_0_l, Z.pow_1_r.
    pose proof (Z.div_mod P 2 ltac:(lia)) as Hd.
    rewrite Zmod_odd in Hd.
    assert (0 <= P / 2) by (apply Z.div_pos; lia).
    destruct (Z.odd P); repeat split; try lia; discriminate.
  - destruct IH as (t & Hm & HPeq & Ht & Hs). cbv zeta in *.
    change (Nat.iter (S (S j)) shr_1 (Build_shr_record P false false))
      with (shr_1 (Nat.iter (S j) shr_1 (Build_shr_record P false false))).
    destruct (Nat.iter (S j) shr_1 (Build_shr_record P false false)) as [m r s].
    cbn [shr_m shr_r shr_s] in Hm, HPeq, Hs.
    rewrite shr_1_spec by exact Hm. cbn [shr_m shr_r shr_s].
    exists ((if r then 2 ^ Z.of_nat j else 0) + t).
    pose proof (Z.div_mod m 2 ltac:(lia)) as Hd.
    rewrite Zmod_odd in Hd.
    assert (Hq0 : 0 <= m / 2) by (apply Z.div_pos; lia).
    assert (Hp : 0 < 2 ^ Z.of_nat j) by (apply Z.pow_pos_nonneg; lia).
    assert (E1 : 2 ^ (Z.of_nat j + 1) = 2 * 2 ^ Z.of_nat j)
      by (rewrite Z.pow_add_r, Z.pow_1_r; lia).
    assert (E2 : 2 ^ Z.of_nat (S j) = 2 * 2 ^ Z.of_nat j)
      by (rewrite Nat2Z.inj_succ, Z.pow_succ_r; lia).
    assert (E3 : 2 ^ (Z.of_nat (S j) + 1) = 4 * 2 ^ Z.of_nat j)
      by (rewrite Z.pow_add_r, Z.pow_1_r, E2; lia).
    rewrite E1 in HPeq. rewrite E2, E3.
    revert HPeq Ht Hp Hd Hq0.
    generalize (2 ^ Z.of_nat j) as X. generalize (m / 2) as q.
    intros q X HPeq Ht Hp Hd Hq0.
    split; [assumption|]. split.
    + destruct (Z.odd m), r; nia.
    + split; [destruct r; lia|].
      destruct r, s; simpl; split; intros; try lia; try reflexivity;
        try discriminate.
Qed.

(** Shifting an exact mantissa right and rounding what falls off is
    rounding the quotient to the nearest integer, ties to even. *)
Lemma shr_round (P : Z) (E : Z) (n : positive) :
  0 <= P ->
  round_nearest_even
    (shr_m (fst (shr (Build_shr_record P false false) E (Z.pos n))))
    (loc_of_shr_record (fst (shr (Build_shr_record P false false) E (Z.pos n))))
  = rne P (Z.pos n)
  /\ snd (shr (Build_shr_record P false false) E (Z.pos n)) = E + Z.pos n.
Proof.
  intros HP. unfold shr. cbn [fst snd]. split; [|reflexivity].
  rewrite iter_pos_nat.
  destruct (Pos2Nat.is_succ n) as [j Hj]. rewrite Hj.
  destruct (shr_iter_spec P j HP) as (t & Hm & HPeq & Ht & Hs).
  assert (Hk : Z.pos n = Z.of_nat j + 1) by lia.
  destruct (Nat.iter (S j) shr_1 (Build_shr_record P false false)) as [m r s].
  cbn [shr_m shr_r shr_s] in *. rewrite Hk.
  set (k := Z.of_nat j) in *.
  assert (Hp : 0 < 2 ^ k) by (apply Z.pow_pos_nonneg; lia).
  assert (Hp1 : 2 ^ (k + 1) = 2 * 2 ^ k) by (rewrite Z.pow_add_r, Z.pow_1_r; lia).
  set (rem := (if r then 2 ^ k else 0) + t).
  assert (Hrem : 0 <= rem < 2 ^ (k + 1)) by (unfold rem; destruct r; lia).
  assert (Hq : P / 2 ^ (k + 1) = m)
    by (symmetry; apply (Z.div_unique _ _ _ rem); [lia | unfold rem; lia]).
  assert (Hr : P mod 2 ^ (k + 1) = rem)
    by (symmetry; apply (Z.mod_unique _ _ m rem); [lia | unfold rem; lia]).
  unfold rne. rewrite Hq, Hr, Hp1. unfold rem.
  destruct r, s; cbn [loc_of_shr_record round_nearest_even].
  - assert (0 < t) by (apply Hs; reflexivity).
    replace (2 * (2 ^ k + t) <? 2 * 2 ^ k) with false by (symmetry; apply Z.ltb_ge; lia).
    replace (2 * 2 ^ k <? 2 * (2 ^ k + t)) with true by (symmetry; apply Z.ltb_lt; lia).
    reflexivity.
  - assert (t = 0).
    { destruct (Z.eq_dec t 0) as [|Hne]; [assumption|].
      assert (0 < t) by lia. apply Hs in H. discriminate. }
    subst t.
    replace (2 * (2 ^ k + 0) <? 2 * 2 ^ k) with false by (symmetry; apply Z.ltb_ge; lia).
    replace (2 * 2 ^ k <? 2 * (2 ^ k + 0)) with false by (symmetry; apply Z.ltb_ge; lia).
    reflexivity.
  - replace (2 * (0 + t) <? 2 * 2 ^ k) with true by (symmetry; apply Z.ltb_lt; lia).
    reflexivity.
  - assert (t = 0).
    { destruct (Z.eq_dec t 0) as [|Hne]; [assumption|].
      assert (0 < t) by lia. apply Hs in H. discriminate. }
    subst t.
    replace (2 * (0 + 0) <? 2 * 2 ^ k) with true by (symmetry; apply Z.ltb_lt; lia).
    reflexivity.
Qed.

(** The rounded quotient is within half a unit of the exact one. *)
Lemma rne_near (a k : Z) :
  0 <= a -> 0 <= k ->
  a / 2 ^ k <= rne a k <= a / 2 ^ k + 1
  /\ 2 * (rne a k * 2 ^ k) <= 2 * a + 2 ^ k
  /\ 2 * a <= 2 * (rne a k * 2 ^ k) + 2 ^ k.
Proof.
  intros Ha Hk. unfold rne.
  assert (Hp : 0 < 2 ^ k) by (apply Z.pow_pos_nonneg; lia).
  pose proof (Z.div_mod a (2 ^ k) ltac:(lia)) as Hd.
  pose proof (Z.mod_pos_bound a (2 ^ k) Hp) as Hr.
  revert Hd Hr. generalize (a / 2 ^ k) as q. generalize (a mod 2 ^ k) as r.
  generalize dependent (2 ^ k). intros X HX r q Hd Hr.
  destruct (2 * r <? X) eqn:E1; [apply Z.ltb_lt in E1; nia|].
  apply Z.ltb_ge in E1.
  destruct (X <? 2 * r) eqn:E2; [apply Z.ltb_lt in E2; nia|].
  apply Z.ltb_ge in E2.
  destruct (Z.even q); nia.
Qed.

Lemma digits_le (N : positive) (b : Z) :
  0 <= b -> Z.pos N < 2 ^ b -> Z.pos (digits2_pos N) <= b.
Proof.
  intros Hb HN. destruct (digits2_pos_bounds N) as [Hlo _].
  assert (2 ^ (Z.pos (digits2_pos N) - 1) < 2 ^ b) by lia.
  apply Z.pow_lt_mono_r_iff in H; lia.
Qed.

Lemma digits_ge (N : positive) (b : Z) :
  2 ^ b <= Z.pos N -> b < Z.pos (digits2_pos N).
Proof.
  intros HN. destruct (digits2_pos_bounds N) as [_ Hhi].
  assert (2 ^ b < 2 ^ Z.pos (digits2_pos N)) by lia.
  apply Z.pow_lt_mono_r_iff in H; lia.
Qed.

(** What [binary_round_aux] returns for an exact positive product that
    has to be shifted right and does not overflow: the mantissa is the
    product rounded to nearest-even at the shifted position, renormalized
    by one place when the rounding carries into a 54th bit. *)
Lemma round_aux_spec (s : bool) (P : positive) (E : Z) :
  let n := Z.max (Z.pos (digits2_pos P) - 53) (-1074 - E) in
  0 < n -> E + n + 1 <= 971 -> 0 < rne (Z.pos P) n ->
  exists m g,
    binary_round_aux prec emax s (Z.pos P) E loc_Exact = S754_finite s m g
    /\ binary64 (S754_finite s m g)
    /\ E + n <= g <= E + n + 1
    /\ Z.pos m * 2 ^ (g - (E + n)) = rne (Z.pos P) n.
Proof.
  intros n Hn Hover Hpos.
  destruct (digits2_pos_bounds P) as [Plo Phi].
  set (d := Z.pos (digits2_pos P)) in *.
  assert (Hn0 : 0 <= n) by lia.
  destruct (rne_near (Z.pos P) n ltac:(lia) Hn0) as ((Hq1 & Hq2) & _).
  assert (H2n : 0 < 2 ^ n) by (apply Z.pow_pos_nonneg; lia).
  assert (Hqhi : Z.pos P / 2 ^ n < 2 ^ 53).
  { apply Z.div_lt_upper_bound; [lia|].
    rewrite <- Z.pow_add_r by lia.
    apply Z.lt_le_trans with (2 ^ d); [lia|].
    apply Z.pow_le_mono_r; lia. }
  assert (Hqlo : -1074 < E + n -> 2 ^ 52 <= Z.pos P / 2 ^ n).
  { intros Hg. assert (n = d - 53) by lia.
    apply Z.div_le_lower_bound; [lia|].
    rewrite <- Z.pow_add_r by lia.
    replace (n + 52) with (d - 1) by lia. exact Plo. }
  unfold binary_round_aux, shr_fexp.
  cbn [shr_record_of_loc Zdigits2].
  replace (fexp prec emax (Z.pos (digits2_pos P) + E) - E) with n
    by (unfold fexp, emin, prec, emax; fold d; unfold n; lia).
  destruct n as [|np|np] eqn:En; try lia.
  destruct (shr_round (Z.pos P) E np ltac:(lia)) as [HN He].
  destruct (shr (Build_shr_record (Z.pos P) false false) E (Z.pos np))
    as [mrs' e'] eqn:Hshr.
  cbn [fst snd] in HN, He. rewrite HN. subst e'.
  set (N := rne (Z.pos P) (Z.pos np)) in *.
  destruct N as [|Np|Np] eqn:EN; try lia.
  cbn [shr_record_of_loc Zdigits2].
  set (dN := Z.pos (digits2_pos Np)).
  destruct (Z_lt_le_dec (Z.pos Np) (2 ^ 53)) as [Hlt|Hge].
  - (* no carry *)
    assert (HdN : dN <= 53) by (apply digits_le; lia).
    assert (HdN' : -1074 < E + Z.pos np -> dN = 53).
    { intros Hg. assert (52 < dN) by (apply digits_ge; specialize (Hqlo Hg); lia).
      lia. }
    assert (Hn2 : fexp prec emax (dN + (E + Z.pos np)) - (E + Z.pos np) <= 0)
      by (unfold fexp, emin, prec, emax; lia).
    unfold shr.
    destruct (fexp prec emax (dN + (E + Z.pos np)) - (E + Z.pos np)) eqn:E2;
      try lia; cbn [shr_m];
      replace (E + Z.pos np <=? emax - prec) with true
        by (symmetry; apply Z.leb_le; unfold emax, prec; lia);
      exists Np, (E + Z.pos np);
      (split; [reflexivity|]);
      (split; [|split; [lia|rewrite Z.sub_diag, Z.pow_0_r; lia]]);
      (split; [|reflexivity]); cbn [valid_binary]; unfold bounded;
      apply andb_true_iff; (split; [|apply Z.leb_le; unfold emax, prec; lia]);
      unfold canonical_mantissa; apply Z.eqb_eq; fold dN;
      unfold fexp, emin, prec, emax;
      destruct (Z_lt_le_dec (-1074) (E + Z.pos np)) as [Hg|Hg];
      try (specialize (HdN' Hg)); lia.
  - (* the rounding carried: the mantissa is 2^53 *)
    assert (HNp : Np = 9007199254740992%positive).
    { assert (Z.pos Np = 2 ^ 53) by lia. change (2 ^ 53) with 9007199254740992 in H.
      now injection H. }
    subst Np. unfold dN.
    replace (fexp prec emax (Z.pos (digits2_pos 9007199254740992) + (E + Z.pos np))
             - (E + Z.pos np)) with 1
      by (change (Z.pos (digits2_pos 9007199254740992)) with 54;
          unfold fexp, emin, prec, emax; lia).
    unfold shr. cbn [iter_pos shr_1 shr_m].
    replace (E + Z.pos np + 1 <=? emax - prec) with true
      by (symmetry; apply Z.leb_le; unfold emax, prec; lia).
    exists 4503599627370496%positive, (E + Z.pos np + 1).
    split; [reflexivity|]. split; [|split; [lia|]].
    + split; [|reflexivity]. cbn [valid_binary]. unfold bounded.
      apply andb_true_iff. split; [|apply Z.leb_le; unfold emax, prec; lia].
      unfold canonical_mantissa. apply Z.eqb_eq.
      change (Z.pos (digits2_pos 4503599627370496)) with 53.
      unfold fexp, emin, prec, emax. lia.
    + replace (E + Z.pos np + 1 - (E + Z.pos np)) with 1 by lia. reflexivity.
Qed.

Lemma float_of_int_100 :
  float_of_int 100 = S754_finite false 7036874417766400 (-46).
Proof. vm_compute. reflexivity. Qed.

Lemma risk_percent_finite (m : positive) (e : Z) :
  risk_percent (S754_finite false m e)
  = binary_round_aux prec emax false (Z.pos (m * 7036874417766400)) (e + -46)
      loc_Exact.
Proof. unfold risk_percent. rewrite float_of_int_100. reflexivity. Qed.

Lemma risk_percent_zero (s : bool) : risk_percent (S754_zero s) = S754_zero s.
Proof.
  unfold risk_percent. rewrite float_of_int_100. destruct s; reflexivity.
Qed.

(** The product [prob * 100] of a positive binary64 number, in units of
    [2^-1074]: a positive multiple of a power of two [2^j] that is within
    half of [2^j] of the exact product. *)
Lemma risk_percent_near (m : positive) (e : Z) :
  binary64 (S754_finite false m e) -> e <= 963 ->
  exists j N,
    binary64 (risk_percent (S754_finite false m e))
    /\ 0 <= j <= e + 1081 /\ (-1074 < e -> e + 1080 <= j)
    /\ 0 < N
    /\ ulps (risk_percent (S754_finite false m e)) = N * 2 ^ j
    /\ 2 * (N * 2 ^ j) <= 200 * (Z.pos m * 2 ^ (e + 1074)) + 2 ^ j
    /\ 200 * (Z.pos m * 2 ^ (e + 1074)) <= 2 * (N * 2 ^ j) + 2 ^ j.
Proof.
  intros [V _] He. cbn [valid_binary] in V. unfold bounded in V.
  apply andb_true_iff in V as [Hc _].
  destruct (canonical_bounds m e Hc) as (Hlo & Hm & Hnorm).
  rewrite risk_percent_finite.
  set (P := (m * 7036874417766400)%positive).
  assert (HP : Z.pos P = Z.pos m * (100 * 2 ^ 46)) by (unfold P; reflexivity).
  set (d := Z.pos (digits2_pos P)).
  assert (Hd1 : 52 < d).
  { apply digits_ge. rewrite HP. change (2 ^ 52) with (1 * (64 * 2 ^ 46)). nia. }
  assert (Hd2 : d <= 106).
  { apply digits_le; [lia|]. rewrite HP.
    change (2 ^ 106) with (2 ^ 53 * (128 * 2 ^ 46)).
    assert (0 < 2 ^ 46) by reflexivity. nia. }
  assert (Hd3 : -1074 < e -> 104 < d).
  { intros Hg. specialize (Hnorm Hg). apply digits_ge. rewrite HP.
    change (2 ^ 104) with (2 ^ 52 * (64 * 2 ^ 46)).
    assert (0 < 2 ^ 46) by reflexivity. nia. }
  pose proof (round_aux_spec false P (e + -46)) as Hr. cbv zeta in Hr.
  fold d in Hr.
  set (n := Z.max (d - 53) (-1074 - (e + -46))) in *.
  assert (Hn1 : 0 < n) by (destruct (Z.eq_dec e (-1074)); lia).
  assert (Hn2 : n <= 53) by lia.
  assert (Hn3 : n <= d - 1) by lia.
  destruct (digits2_pos_bounds P) as [Plo _]. fold d in Plo.
  destruct (rne_near (Z.pos P) n ltac:(lia) ltac:(lia)) as ((Hq1 & _) & Hn4 & Hn5).
  assert (HN : 0 < rne (Z.pos P) n).
  { apply Z.lt_le_trans with (Z.pos P / 2 ^ n); [|exact Hq1].
    apply Z.div_str_pos. split; [apply Z.pow_pos_nonneg; lia|].
    apply Z.le_trans with (2 ^ (d - 1)); [|exact Plo].
    apply Z.pow_le_mono_r; lia. }
  destruct (Hr Hn1 ltac:(lia) HN) as (m' & g & -> & Hb & Hg & Hval).
  exists (e + -46 + n + 1074), (rne (Z.pos P) n).
  split; [exact Hb|]. split; [lia|]. split; [lia|]. split; [exact HN|].
  set (j := e + -46 + n + 1074) in *.
  assert (Hj : 0 <= j) by lia.
  split.
  - cbn [ulps]. rewrite <- Hval, <- Z.mul_assoc, <- Z.pow_add_r by lia.
    f_equal. f_equal. lia.
  - assert (HYB : 2 ^ j * 2 ^ 46 = 2 ^ n * 2 ^ (e + 1074))
      by (rewrite <- !Z.pow_add_r by lia; f_equal; lia).
    assert (HA : 0 < 2 ^ (e + 1074)) by (apply Z.pow_pos_nonneg; lia).
    assert (HB : 0 < 2 ^ 46) by reflexivity.
    revert Hn4 Hn5 HYB HA HB. rewrite HP.
    generalize (rne (Z.pos m * (100 * 2 ^ 46)) n) as N.
    generalize (2 ^ 46) as B. generalize (2 ^ (e + 1074)) as A.
    generalize (2 ^ j) as Y. generalize (2 ^ n) as X. generalize (Z.pos m) as M.
    clear. intros M X Y A B N H1 H2 HYB HA HB.
    assert (E1 : N * Y * B = N * X * A)
      by (rewrite <- !Z.mul_assoc; f_equal; exact HYB).
    assert (F1 : 2 * (N * X) * A <= (2 * (M * (100 * B)) + X) * A)
      by (apply Z.mul_le_mono_nonneg_r; lia).
    assert (F2 : 2 * (M * (100 * B)) * A <= (2 * (N * X) + X) * A)
      by (apply Z.mul_le_mono_nonneg_r; lia).
    split; apply (Z.mul_le_mono_pos_r _ _ B HB); lia.
Qed.

Lemma pow2_split (a b : Z) : 0 <= a <= b -> 2 ^ b = 2 ^ (b - a) * 2 ^ a.
Proof. intros H. rewrite <- Z.pow_add_r by lia. f_equal. lia. Qed.

Lemma pow2_pos (a : Z) : 0 <= a -> 0 < 2 ^ a.
Proof. intros H. apply Z.pow_pos_nonneg; lia. Qed.

(** Where the rounded product lies, given where the factor lies: the
    rounding never crosses 30, 50 or 100. *)
Lemma percent_core (m : positive) (e j N : Z) :
  -1074 <= e -> Z.pos m < 2 ^ 53 -> (-1074 < e -> 2 ^ 52 <= Z.pos m) ->
  Z.pos m * 2 ^ (e + 1074) <= 2 ^ 1074 ->
  0 <= j <= e + 1081 -> (-1074 < e -> e + 1080 <= j) -> 0 < N ->
  2 * (N * 2 ^ j) <= 200 * (Z.pos m * 2 ^ (e + 1074)) + 2 ^ j ->
  200 * (Z.pos m * 2 ^ (e + 1074)) <= 2 * (N * 2 ^ j) + 2 ^ j ->
  N * 2 ^ j <= 100 * 2 ^ 1074
  /\ (2 ^ 1073 <= Z.pos m * 2 ^ (e + 1074) <-> 50 * 2 ^ 1074 <= N * 2 ^ j)
  /\ (5404319552844595 * 2 ^ 1020 <= Z.pos m * 2 ^ (e + 1074)
      <-> 30 * 2 ^ 1074 <= N * 2 ^ j).
Proof.
  intros Hlo Hm Hnorm Hone Hj Hjn HN H1 H2.
  assert (HS : 0 < 2 ^ (e + 1074)) by (apply pow2_pos; lia).
  assert (He : e <= -52).
  { destruct (Z_le_gt_dec e (-52)) as [H|H]; [exact H|exfalso].
    specialize (Hnorm ltac:(lia)).
    assert (Hp : 2 ^ 1074 < 2 ^ (e + 1126)) by (apply Z.pow_lt_mono_r; lia).
    rewrite (pow2_split (e + 1074) (e + 1126)) in Hp by lia.
    replace (e + 1126 - (e + 1074)) with 52 in Hp by lia. nia. }
  assert (HY : 0 < 2 ^ j) by (apply pow2_pos; lia).
  assert (HT : 0 < 2 ^ (1075 - j)) by (apply pow2_pos; lia).
  assert (HTY : 2 * 2 ^ 1074 = 2 ^ (1075 - j) * 2 ^ j)
    by (rewrite <- (pow2_split j 1075) by lia; reflexivity).
  assert (HYS : 2 ^ j <= 128 * 2 ^ (e + 1074)).
  { apply Z.le_trans with (2 ^ (e + 1081)); [apply Z.pow_le_mono_r; lia|].
    rewrite (pow2_split (e + 1074) (e + 1081)) by lia.
    replace (e + 1081 - (e + 1074)) with 7 by lia. lia. }
  assert (HW1 : 2 * 2 ^ 1073 = 2 ^ 1074) by reflexivity.
  assert (HW2 : 18014398509481984 * 2 ^ 1020 = 2 ^ 1074) by reflexivity.
  assert (HQ : 2 ^ 1073 = 2 ^ (1073 - (e + 1074)) * 2 ^ (e + 1074))
    by (apply pow2_split; lia).
  assert (HQ0 : 0 < 2 ^ (1073 - (e + 1074))) by (apply pow2_pos; lia).
  split; [|split; [split|split]].
  - (* at most 100 *)
    revert H1 Hone HTY HY HT HN. clear.
    generalize (2 ^ 1074) as W. generalize (2 ^ (1075 - j)) as T.
    generalize (2 ^ j) as Y. generalize (Z.pos m * 2 ^ (e + 1074)) as u.
    intros u Y T W H1 Hone HTY HY HT HN.
    assert (2 * N * Y <= (100 * T + 1) * Y) by lia.
    assert (2 * N <= 100 * T + 1) by (apply (Z.mul_le_mono_pos_r _ _ Y HY); lia).
    assert (N * Y <= 50 * T * Y) by (apply Z.mul_le_mono_nonneg_r; lia).
    lia.
  - (* from one half on, 50 or more *)
    revert H2 HTY HY HT HN HW1. clear.
    generalize (2 ^ 1074) as W. generalize (2 ^ 1073) as W1.
    generalize (2 ^ (1075 - j)) as T.
    generalize (2 ^ j) as Y. generalize (Z.pos m * 2 ^ (e + 1074)) as u.
    intros u Y T W1 W H2 HTY HY HT HN HW1 Hu.
    assert (50 * T * Y <= (2 * N + 1) * Y) by lia.
    assert (50 * T <= 2 * N + 1) by (apply (Z.mul_le_mono_pos_r _ _ Y HY); lia).
    assert (25 * T * Y <= N * Y) by (apply Z.mul_le_mono_nonneg_r; lia).
    lia.
  - (* below one half, below 50 *)
    intros HR.
    destruct (Z_le_gt_dec (2 ^ 1073) (Z.pos m * 2 ^ (e + 1074))) as [H|H];
      [exact H|exfalso].
    rewrite HQ in H.
    assert (Hlt : Z.pos m < 2 ^ (1073 - (e + 1074)))
      by (apply (Z.mul_lt_mono_pos_r _ _ _ HS); lia).
    assert (Hnext : (Z.pos m + 1) * 2 ^ (e + 1074) <= 2 ^ 1073)
      by (rewrite HQ; apply Z.mul_le_mono_nonneg_r; lia).
    revert H1 HR HYS HS HW1 Hnext. clear.
    generalize (2 ^ 1074) as W. generalize (2 ^ 1073) as W1.
    generalize (2 ^ j) as Y. generalize (2 ^ (e + 1074)) as S.
    generalize (Z.pos m) as M.
    intros. lia.
  - (* from 0.3 on, 30 or more *)
    intros Hu.
    assert (Hm30 : 2 ^ 52 * 2 ^ 1020 <= 5404319552844595 * 2 ^ 1020)
      by (apply Z.mul_le_mono_nonneg_r; [apply Z.lt_le_incl, pow2_pos|]; lia).
    assert (Ha : -54 <= e).
    { destruct (Z_le_gt_dec (-54) e) as [H|H]; [exact H|exfalso].
      assert (Hp : 2 ^ (e + 1074) * 2 ^ 53 <= 2 ^ 1019 * 2 ^ 53).
      { apply Z.mul_le_mono_nonneg_r; [lia|]. apply Z.pow_le_mono_r; lia. }
      change (2 ^ 1019 * 2 ^ 53) with (2 ^ 52 * 2 ^ 1020) in Hp. nia. }
    specialize (Hjn ltac:(lia)).
    assert (HY26 : 64 * 2 ^ 1020 <= 2 ^ j).
    { change (64 * 2 ^ 1020) with (2 ^ 1026). apply Z.pow_le_mono_r; lia. }
    assert (Hz : 0 < 2 ^ 1020) by reflexivity.
    revert H2 HTY HY HT HN HW2 Hu HY26 Hz. clear.
    generalize (2 ^ 1074) as W. generalize (2 ^ 1020) as Z0.
    generalize (2 ^ (1075 - j)) as T.
    generalize (2 ^ j) as Y. generalize (Z.pos m * 2 ^ (e + 1074)) as u.
    intros u Y T Z0 W H2 HTY HY HT HN HW2 Hu HY26 Hz.
    assert (30 * T * Y < (2 * N + 2) * Y) by lia.
    assert (30 * T < 2 * N + 2) by (apply (Z.mul_lt_mono_pos_r Y _ _ HY); lia).
    assert (15 * T * Y <= N * Y) by (apply Z.mul_le_mono_nonneg_r; lia).
    lia.
  - (* below 0.3, below 30 *)
    intros HR.
    destruct (Z_le_gt_dec (5404319552844595 * 2 ^ 1020)
                (Z.pos m * 2 ^ (e + 1074))) as [H|H]; [exact H|exfalso].
    assert (Ha : e <= -54).
    { destruct (Z_le_gt_dec e (-54)) as [Hc|Hc]; [exact Hc|exfalso].
      specialize (Hnorm ltac:(lia)).
      assert (Hp : 2 ^ 1021 <= 2 ^ (e + 1074)) by (apply Z.pow_le_mono_r; lia).
      assert (Hb : 2 ^ 52 * 2 ^ 1021 <= Z.pos m * 2 ^ (e + 1074))
        by (apply Z.mul_le_mono_nonneg; lia).
      change (2 ^ 52 * 2 ^ 1021) with (9007199254740992 * 2 ^ 1020) in Hb.
      assert (Hz : 0 < 2 ^ 1020) by reflexivity.
      lia. }
    assert (HZ : 2 ^ 1020 = 2 ^ (1020 - (e + 1074)) * 2 ^ (e + 1074))
      by (apply pow2_split; lia).
    assert (HZ0 : 0 < 2 ^ (1020 - (e + 1074))) by (apply pow2_pos; lia).
    rewrite HZ, Z.mul_assoc in H.
    assert (Hlt : Z.pos m < 5404319552844595 * 2 ^ (1020 - (e + 1074)))
      by (apply (Z.mul_lt_mono_pos_r _ _ _ HS); lia).
    assert (Hnext : (Z.pos m + 1) * 2 ^ (e + 1074) <= 5404319552844595 * 2 ^ 1020).
    { rewrite HZ, Z.mul_assoc. apply Z.mul_le_mono_nonneg_r; lia. }
    assert (Hz : 0 < 2 ^ 1020) by reflexivity.
    revert H1 HR HYS HS HW2 Hnext Hz. clear.
    generalize (2 ^ 1074) as W. generalize (2 ^ 1020) as Z0.
    generalize (2 ^ j) as Y. generalize (2 ^ (e + 1074)) as S.
    generalize (Z.pos m) as M.
    intros. lia.
Qed.

Lemma int_ulps (k : Z) :
  In k [0; 1; 30; 50; 100] ->
  binary64 (float_of_int k) /\ ulps (float_of_int k) = k * 2 ^ 1074.
Proof.
  simpl. intros H.
  repeat (destruct H as [<-|H]; [split; [split|]; vm_compute; reflexivity|]).
  contradiction.
Qed.

Lemma ulps_lit_050 : ulps (float_lit 50 100) = 2 ^ 1073.
Proof. vm_compute. reflexivity. Qed.

Lemma ulps_lit_030 : ulps (float_lit 30 100) = 5404319552844595 * 2 ^ 1020.
Proof. vm_compute. reflexivity. Qed.

(** The percentage of a probability, against the marks of the gauge. *)
Lemma risk_percent_bands (prob : float) :
  binary64 prob -> probability prob ->
  binary64 (risk_percent prob)
  /\ 0 <= ulps (risk_percent prob) <= 100 * 2 ^ 1074
  /\ (ulps (float_lit 50 100) <= ulps prob
      <-> 50 * 2 ^ 1074 <= ulps (risk_percent prob))
  /\ (ulps (float_lit 30 100) <= ulps prob
      <-> 30 * 2 ^ 1074 <= ulps (risk_percent prob))
  /\ (0 < ulps prob -> 0 < ulps (risk_percent prob)).
Proof.
  intros Hb [H0 H1].
  destruct (int_ulps 0 ltac:(simpl; tauto)) as [B0 U0].
  destruct (int_ulps 1 ltac:(simpl; tauto)) as [B1 U1].
  apply (FloatOrder.float_le_ulps _ _ B0 Hb) in H0.
  apply (FloatOrder.float_le_ulps _ _ Hb B1) in H1.
  rewrite U0 in H0. rewrite U1 in H1.
  rewrite ulps_lit_050, ulps_lit_030.
  assert (HW : 0 < 2 ^ 1074) by reflexivity.
  assert (HW1 : 0 < 2 ^ 1073) by reflexivity.
  assert (HW2 : 0 < 2 ^ 1020) by reflexivity.
  destruct prob as [s|s| |s m e]; try (destruct Hb as [_ Hb]; discriminate).
  - rewrite risk_percent_zero. split; [exact Hb|]. cbn [ulps].
    split; [lia|]. split; [split; intros; exfalso; lia|].
    split; [split; intros; exfalso; lia|]. intros; lia.
  - destruct s.
    { exfalso. cbn [ulps] in H0.
      assert (0 < 2 ^ (e + 1074)).
      { destruct Hb as [V _]. cbn [valid_binary] in V. unfold bounded in V.
        apply andb_true_iff in V as [Hc _].
        destruct (canonical_bounds m e Hc) as (Hlo & _).
        apply pow2_pos. lia. }
      nia. }
    pose proof Hb as [V _]. cbn [valid_binary] in V. unfold bounded in V.
    apply andb_true_iff in V as [Hc _].
    destruct (canonical_bounds m e Hc) as (Hlo & Hm & Hnorm).
    cbn [ulps] in H0, H1. rewrite Z.mul_1_l in H1.
    assert (He : e <= 963).
    { destruct (Z_le_gt_dec e 963) as [H|H]; [exact H|exfalso].
      specialize (Hnorm ltac:(lia)).
      assert (Hp : 2 ^ 1074 < 2 ^ (e + 1074)) by (apply Z.pow_lt_mono_r; lia).
      assert (Hq : 1 * 2 ^ (e + 1074) <= Z.pos m * 2 ^ (e + 1074))
        by (apply Z.mul_le_mono_nonneg_r; lia).
      lia. }
    destruct (risk_percent_near m e Hb He)
      as (j & N & Hrb & Hj & Hjn & HN & HR & Hn1 & Hn2).
    destruct (percent_core m e j N Hlo Hm Hnorm H1 Hj Hjn HN Hn1 Hn2)
      as (C1 & C2 & C3).
    assert (HR0 : 0 < N * 2 ^ j)
      by (apply Z.mul_pos_pos; [exact HN|apply pow2_pos; lia]).
    split; [exact Hrb|]. rewrite HR. cbn [ulps].
    split; [lia|]. split; [exact C2|]. split; [exact C3|]. intros _. exact HR0.
Qed.

Lemma percent_ge_50 (prob : float) :
  binary64 prob -> probability prob ->
  float_ge (risk_percent prob) (float_of_int 50) = float_ge prob (float_lit 50 100).
Proof.
  intros Hb Hp. destruct (risk_percent_bands prob Hb Hp) as (Hr & _ & H50 & _).
  destruct (int_ulps 50 ltac:(simpl; tauto)) as [B U].
  apply eq_true_iff_eq. unfold float_ge. fold (float_le (float_of_int 50) (risk_percent prob)).
  fold (float_le (float_lit 50 100) prob).
  rewrite (FloatOrder.float_le_ulps _ _ B Hr), U.
  rewrite (FloatOrder.float_le_ulps _ _ FloatOrder.binary64_lit_050 Hb).
  symmetry. exact H50.
Qed.

Lemma percent_ge_30 (prob : float) :
  binary64 prob -> probability prob ->
  float_ge (risk_percent prob) (float_of_int 30) = float_ge prob (float_lit 30 100).
Proof.
  intros Hb Hp. destruct (risk_percent_bands prob Hb Hp) as (Hr & _ & _ & H30 & _).
  destruct (int_ulps 30 ltac:(simpl; tauto)) as [B U].
  apply eq_true_iff_eq. unfold float_ge. fold (float_le (float_of_int 30) (risk_percent prob)).
  fold (float_le (float_lit 30 100) prob).
  rewrite (FloatOrder.float_le_ulps _ _ B Hr), U.
  rewrite (FloatOrder.float_le_ulps _ _ FloatOrder.binary64_lit_030 Hb).
  symmetry. exact H30.
Qed.

End MulFacts.

Module TenthsFacts.
Import FloatFacts MulFacts.

Lemma round_half_even_near (num den : N) :
  (0 < den)%N ->
  (num / den <= round_half_even num den <= num / den + 1)%N
  /\ (num mod den = 0 -> round_half_even num den = num / den)%N.
Proof.
  intros Hd. unfold round_half_even.
  pose proof (N.mod_lt num den ltac:(lia)) as Hr.
  split.
  - destruct (den <? 2 * (num mod den))%N; [lia|].
    destruct (2 * (num mod den) =? den)%N; [|lia].
    destruct (N.even (num / den)); lia.
  - intros ->. replace (den <? 2 * 0)%N with false by (symmetry; apply N.ltb_ge; lia).
    replace (2 * 0 =? den)%N with false by (symmetry; apply N.eqb_neq; lia).
    reflexivity.
Qed.

(** The tenths printed for a number bracket the number itself. *)
Lemma tenths_bounds (m : positive) (e : Z) (K : N) :
  (-1074 <= e)%Z ->
  ((Z.of_N K * 2 ^ 1074 <= Z.pos m * 2 ^ (e + 1074))%Z -> (10 * K <= tenths m e)%N)
  /\ ((Z.pos m * 2 ^ (e + 1074) <= Z.of_N K * 2 ^ 1074)%Z -> (tenths m e <= 10 * K)%N).
Proof.
  intros He.
  assert (HW : (0 < 2 ^ 1074)%Z) by reflexivity.
  destruct e as [|p|k]; unfold tenths.
  - change (2 ^ (0 + 1074))%Z with (2 ^ 1074)%Z. change (Z.to_N 0) with 0%N.
    rewrite N.pow_0_r. split; intros H.
    + apply Z.mul_le_mono_pos_r in H; [lia|exact HW].
    + apply Z.mul_le_mono_pos_r in H; [lia|exact HW].
  - rewrite Z.pow_add_r by lia.
    assert (Hp : Z.of_N (2 ^ Z.to_N (Z.pos p)) = (2 ^ Z.pos p)%Z)
      by (rewrite N2Z.inj_pow; reflexivity).
    assert (Hp0 : (0 < 2 ^ Z.pos p)%Z) by (apply pow2_pos; lia).
    split; intros H; rewrite Z.mul_assoc in H;
      apply Z.mul_le_mono_pos_r in H; try exact HW;
      apply N2Z.inj_le; rewrite !N2Z.inj_mul, Hp; simpl Z.of_N; lia.
  - assert (Hk : (Z.pos k <= 1074)%Z) by lia.
    assert (HS : (0 < 2 ^ (Z.neg k + 1074))%Z) by (apply pow2_pos; lia).
    assert (HD : (2 ^ 1074 = 2 ^ Z.pos k * 2 ^ (Z.neg k + 1074))%Z).
    { rewrite <- Z.pow_add_r by lia. f_equal. lia. }
    assert (Hp : Z.of_N (2 ^ N.pos k) = (2 ^ Z.pos k)%Z)
      by (rewrite N2Z.inj_pow; reflexivity).
    assert (Hd : (0 < 2 ^ N.pos k)%N) by (apply N2Z.inj_lt; rewrite Hp; apply pow2_pos; lia).
    destruct (round_half_even_near (10 * N.pos m) (2 ^ N.pos k) Hd) as [[R1 R2] R3].
    pose proof (N.div_mod (10 * N.pos m) (2 ^ N.pos k) ltac:(lia)) as Hdm.
    pose proof (N.mod_lt (10 * N.pos m) (2 ^ N.pos k) ltac:(lia)) as Hr.
    rewrite HD. split; intros H; rewrite Z.mul_assoc in H;
      apply Z.mul_le_mono_pos_r in H; try exact HS;
      rewrite <- Hp in H;
      change (Z.pos m) with (Z.of_N (N.pos m)) in H;
      rewrite <- N2Z.inj_mul in H; apply N2Z.inj_le in H.
    + apply N.le_trans with (10 * N.pos m / 2 ^ N.pos k)%N; [|exact R1].
      apply N.div_le_lower_bound; [lia|].
      rewrite (N.mul_comm (2 ^ N.pos k)), <- N.mul_assoc.
      apply N.mul_le_mono_l. exact H.
    + assert (Hq : (10 * N.pos m / 2 ^ N.pos k <= 10 * K)%N).
      { apply N.Div0.div_le_upper_bound.
        rewrite (N.mul_comm (2 ^ N.pos k)), <- N.mul_assoc.
        apply N.mul_le_mono_l. exact H. }
      destruct (N.eq_dec (10 * N.pos m / 2 ^ N.pos k) (10 * K)) as [E|E]; [|lia].
      rewrite R3; [lia|].
      rewrite E in Hdm.
      assert (Hle : (10 * N.pos m <= 2 ^ N.pos k * (10 * K))%N).
      { rewrite (N.mul_comm (2 ^ N.pos k)), <- N.mul_assoc.
        apply N.mul_le_mono_l. exact H. }
      revert Hdm Hle. clear.
      generalize (10 * N.pos m mod 2 ^ N.pos k)%N.
      generalize (2 ^ N.pos k * (10 * K))%N. generalize (10 * N.pos m)%N.
      intros. lia.
Qed.

End TenthsFacts.

Section Display.

Import FloatFacts MulFacts TenthsFacts.
Local Open Scope Z_scope.

(** X10. The level shown is the one the thresholds 50 and 30 give on the
    percentage itself: multiplying by 100 never moves a probability
    across a threshold. *)
Theorem level_from_percent (prob : float) :
  binary64 prob -> probability prob ->
  risk_level prob
  = if float_ge (risk_percent prob) (float_of_int 50) then HIGH
    else if float_ge (risk_percent prob) (float_of_int 30) then MODERATE
    else LOW.
Proof.
  intros Hb Hp. unfold risk_level, classify.
  rewrite (percent_ge_50 prob Hb Hp), (percent_ge_30 prob Hb Hp).
  destruct (float_ge prob (float_lit 50 100)); [reflexivity|].
  destruct (float_ge prob (float_lit 30 100)); reflexivity.
Qed.

(** X11. The gauge shows a value on its axis, inside the step that is
    painted in the color of the bar. *)
Theorem gauge_value_in_step_of_bar_color (prob : float) :
  binary64 prob -> probability prob ->
  exists s, In s gauge_steps
            /\ step_color s = risk_color prob
            /\ in_step (risk_percent prob) s = true.
Proof.
  intros Hb Hp. unfold risk_color, classify.
  rewrite <- (percent_ge_50 prob Hb Hp), <- (percent_ge_30 prob Hb Hp).
  destruct (risk_percent_bands prob Hb Hp) as (Hr & [R0 R100] & _ & _).
  destruct (int_ulps 0 ltac:(simpl; tauto)) as [B0 U0].
  destruct (int_ulps 30 ltac:(simpl; tauto)) as [B30 U30].
  destruct (int_ulps 50 ltac:(simpl; tauto)) as [B50 U50].
  destruct (int_ulps 100 ltac:(simpl; tauto)) as [B100 U100].
  assert (L0 : float_le (float_of_int 0) (risk_percent prob) = true)
    by (apply (FloatOrder.float_le_ulps _ _ B0 Hr); rewrite U0; lia).
  assert (L100 : float_le (risk_percent prob) (float_of_int 100) = true)
    by (apply (FloatOrder.float_le_ulps _ _ Hr B100); rewrite U100; lia).
  assert (Hnot : forall k, binary64 (float_of_int k) ->
            float_ge (risk_percent prob) (float_of_int k) = false ->
            float_le (risk_percent prob) (float_of_int k) = true).
  { intros k Bk Hk. apply (FloatOrder.float_le_ulps _ _ Hr Bk).
    destruct (Z_le_gt_dec (ulps (risk_percent prob)) (ulps (float_of_int k)))
      as [H|H]; [exact H|exfalso].
    assert (Hge : float_le (float_of_int k) (risk_percent prob) = true)
      by (apply (FloatOrder.float_le_ulps _ _ Bk Hr); lia).
    unfold float_ge in Hk. unfold float_le in Hge. congruence. }
  destruct (float_ge (risk_percent prob) (float_of_int 50)) eqn:E50.
  - exists {| step_lo := 50; step_hi := 100; step_color := py "#d62828" |}.
    split; [simpl; tauto|]. split; [reflexivity|].
    unfold in_step. cbn [step_lo step_hi]. apply andb_true_iff. split; assumption.
  - destruct (float_ge (risk_percent prob) (float_of_int 30)) eqn:E30.
    + exists {| step_lo := 30; step_hi := 50; step_color := py "#f77f00" |}.
      split; [simpl; tauto|]. split; [reflexivity|].
      unfold in_step. cbn [step_lo step_hi]. apply andb_true_iff.
      split; [exact E30|apply (Hnot 50 B50 E50)].
    + exists {| step_lo := 0; step_hi := 30; step_color := py "#2a9d8f" |}.
      split; [simpl; tauto|]. split; [reflexivity|].
      unfold in_step. cbn [step_lo step_hi]. apply andb_true_iff.
      split; [exact L0|apply (Hnot 30 B30 E30)].
Qed.


(** X12. The card prints a percentage between 0.0 and 100.0 that agrees with
    the level up to the rounding of the last digit: 50.0 or more for
    HIGH, from 30.0 to 50.0 for MODERATE, 30.0 or less for LOW.  The
    sign is printed only for a negative zero. *)
Theorem percent_text_within_level (prob : float) :
  binary64 prob -> probability prob ->
  exists t : N,
    percent_text prob
    = match prob with S754_zero true => py "-" | _ => [] end
        ++ str_of_uint (N.to_uint (t / 10)) ++ py "."
        ++ str_of_uint (N.to_uint (t mod 10)) ++ py "%"
    /\ (t <= 1000)%N
    /\ match risk_level prob with
       | HIGH => (500 <= t)%N
       | MODERATE => (300 <= t <= 500)%N
       | LOW => (t <= 300)%N
       end.
Proof.
  intros Hb Hp.
  destruct (risk_percent_bands prob Hb Hp) as (Hr & [R0 R100] & H50 & H30 & Hpos).
  destruct (FloatOrder.risk_level_ulps prob Hb) as [LH LL].
  destruct prob as [s|s| |s m e]; try (destruct Hb as [_ Hb]; discriminate).
  - exists 0%N. unfold percent_text. rewrite risk_percent_zero.
    split; [destruct s; reflexivity|]. split; [lia|].
    destruct s; vm_compute; discriminate.
  - destruct s.
    { exfalso. destruct Hp as [Hp _].
      destruct (int_ulps 0 ltac:(simpl; tauto)) as [B0 U0].
      apply (FloatOrder.float_le_ulps _ _ B0 Hb) in Hp. rewrite U0 in Hp.
      cbn [ulps] in Hp.
      destruct Hb as [V _]. cbn [valid_binary] in V. unfold bounded in V.
      apply andb_true_iff in V as [Hc _].
      destruct (canonical_bounds m e Hc) as (Hlo & _).
      assert (0 < 2 ^ (e + 1074)) by (apply pow2_pos; lia). nia. }
    assert (Hu : 0 < ulps (S754_finite false m e)).
    { cbn [ulps]. destruct Hb as [V _]. cbn [valid_binary] in V.
      unfold bounded in V. apply andb_true_iff in V as [Hc _].
      destruct (canonical_bounds m e Hc) as (Hlo & _).
      apply Z.mul_pos_pos; [lia|apply pow2_pos; lia]. }
    specialize (Hpos Hu). unfold percent_text.
    destruct (risk_percent (S754_finite false m e)) as [s'|s'| |s' m' g];
      try (destruct Hr as [_ Hr]; discriminate);
      try (exfalso; cbn [ulps] in Hpos; lia).
    pose proof Hr as [V _]. cbn [valid_binary] in V. unfold bounded in V.
    apply andb_true_iff in V as [Hc _].
    destruct (canonical_bounds m' g Hc) as (Hlo & _).
    assert (HS : 0 < 2 ^ (g + 1074)) by (apply pow2_pos; lia).
    destruct s'; [exfalso; cbn [ulps] in Hpos; nia|].
    cbn [ulps] in R0, R100, H50, H30.
    exists (tenths m' g). split; [|split].
    + unfold format_1f. rewrite <- !app_assoc. reflexivity.
    + apply (tenths_bounds m' g 100 Hlo). exact R100.
    + destruct (risk_level (S754_finite false m e)) eqn:EL.
      * apply (tenths_bounds m' g 50 Hlo). apply H50, LH. reflexivity.
      * split.
        -- apply (tenths_bounds m' g 30 Hlo). apply H30.
           destruct (Z_le_gt_dec (ulps (float_lit 30 100))
                       (ulps (S754_finite false m e))) as [H|H]; [exact H|].
           assert (LOW' : MODERATE = LOW) by (apply LL; lia). discriminate.
        -- apply (tenths_bounds m' g 50 Hlo).
           destruct (Z_le_gt_dec (50 * 2 ^ 1074) (Z.pos m' * 2 ^ (g + 1074)))
             as [H|H]; [|change (Z.of_N 50) with 50; lia].
           assert (HIGH' : MODERATE = HIGH) by (apply LH, H50; exact H).
           discriminate.
      * apply (tenths_bounds m' g 30 Hlo).
        destruct (Z_le_gt_dec (30 * 2 ^ 1074) (Z.pos m' * 2 ^ (g + 1074)))
          as [H|H]; [|change (Z.of_N 30) with 30; lia].
        apply H30 in H.
        assert (Hlt : ulps (S754_finite false m e) < ulps (float_lit 30 100))
          by (apply LL; reflexivity).
        cbn [ulps] in Hlt. exfalso. revert H Hlt. clear.
        generalize (ulps (float_lit 30 100)). intros. lia.
Qed.

End Display.

Lemma level_from_percent_witness :
  risk_level (float_lit 42 100)
  = if float_ge (risk_percent (float_lit 42 100)) (float_of_int 50) then HIGH
    else if float_ge (risk_percent (float_lit 42 100)) (float_of_int 30)
         then MODERATE
    else LOW.
Proof.
  apply (level_from_percent (float_lit 42 100)).
  - split; vm_compute; reflexivity.
  - split; vm_compute; reflexivity.
Defined.

Lemma gauge_value_in_step_of_bar_color_witness :
  exists s, In s gauge_steps
            /\ step_color s = risk_color (float_lit 42 100)
            /\ in_step (risk_percent (float_lit 42 100)) s = true.
Proof.
  apply (gauge_value_in_step_of_bar_color (float_lit 42 100)).
  - split; vm_compute; reflexivity.
  - split; vm_compute; reflexivity.
Defined.

Lemma percent_text_within_level_witness :
  exists t : N,
    percent_text (float_lit 42 100)
    = str_of_uint (N.to_uint (t / 10)) ++ py "."
        ++ str_of_uint (N.to_uint (t mod 10)) ++ py "%"
    /\ (t <= 1000)%N /\ (300 <= t <= 500)%N.
Proof.
  destruct (percent_text_within_level (float_lit 42 100)) as (t & H1 & H2 & H3).
  - split; vm_compute; reflexivity.
  - split; vm_compute; reflexivity.
  - exists t. split; [exact H1|]. split; [exact H2|].
    change (risk_level (float_lit 42 100)) with MODERATE in H3. exact H3.
Defined.
